(** * API security dashboard: scoring engine and traffic analysis

    A shallow embedding of [modules/security_scorer.py], of the
    aggregation, heat-map and scanning code of
    [modules/elasticsearch_analyzer.py], of the snapshot code of
    [modules/mongodb_analyzer.py] and of the scoring steps of [app.py],
    followed by the properties of the scoring and traffic-analysis core.

    Conventions of the embedding.
    - A Python [int] is a [Z].  A Python [float] is a [Q]: arithmetic is
      exact, the rounding error of binary64 is not modelled.  [round(x, 2)]
      rounds the exact value half-to-even, as CPython does.
    - A Python [str] is a [string] of bytes; [lower()] folds ASCII letters.
    - A [dict] whose keys are only ever read with [d.get(k, default)] is a
      record whose field holds the value read, an absent key being its
      default.  A [dict] used as a finite map is a [gmap]; a [dict] whose
      iteration order is observed is an association list in insertion order.
    - An exception is a [None] result of the embedded operation. *)

From Stdlib Require Import ZArith QArith Qround Qabs Lia Lqa List Ascii String Sorted Permutation.
From stdpp Require Import base decidable option list sorting gmap strings pretty.

Local Open Scope string_scope.
Local Open Scope Z_scope.

(** ** Python primitives *)

Module Py.

(** *** Numbers *)

Definition Qltb (x y : Q) : bool := negb (Qle_bool y x).
Definition Qgtb (x y : Q) : bool := Qltb y x.
Definition Qgeb (x y : Q) : bool := Qle_bool y x.

(** Nearest integer, ties to the even one. *)
Definition round_half_even (q : Q) : Z :=
  let f := Qfloor q in
  match Qcompare (q - inject_Z f) (1 # 2) with
  | Lt => f
  | Gt => f + 1
  | Eq => if Z.even f then f else f + 1
  end.

(** [round(x, 2)], of the exact value: CPython rounds the binary64 value,
    which can lie on the other side of a tie the exact value sits on. *)
Definition round2 (x : Q) : Q := inject_Z (round_half_even (x * 100)) / 100.

(** [x / y] on floats; [None] where Python raises [ZeroDivisionError]. *)
Definition truediv (x y : Q) : option Q :=
  if Qeq_bool y 0 then None else Some (x / y)%Q.

(** [int(x)] on a float: truncation towards zero. *)
Definition trunc (x : Q) : Z :=
  if Qle_bool 0 x then Qfloor x else Qceiling x.

(** [max(l)] and [min(l)] of a list of ints; [None] on the empty list,
    where Python raises [ValueError]. *)
Definition max_list (l : list Z) : option Z :=
  match l with
  | [] => None
  | x :: l' => Some (fold_left (fun m y => if m <? y then y else m) l' x)
  end.

Definition min_list (l : list Z) : option Z :=
  match l with
  | [] => None
  | x :: l' => Some (fold_left (fun m y => if y <? m then y else m) l' x)
  end.

(** [max(l, key=f)]: the first element whose key is largest. *)
Definition max_by {A} (f : A -> Z) (l : list A) : option A :=
  match l with
  | [] => None
  | x :: l' => Some (fold_left (fun m y => if f m <? f y then y else m) l' x)
  end.

(** *** Sorting

    [sorted] is stable; so is insertion into the already sorted tail when
    the new element goes before the first element it is not above. *)

Section Sort.
Context {A : Type} (le : A -> A -> bool).

Fixpoint insert_sorted (x : A) (l : list A) : list A :=
  match l with
  | [] => [x]
  | y :: l' => if le x y then x :: y :: l' else y :: insert_sorted x l'
  end.

Definition sorted_by (l : list A) : list A := foldr insert_sorted [] l.
End Sort.

(** [sorted(l)] on ints. *)
Definition sorted : list Z -> list Z := sorted_by Z.leb.

(** [sorted(items, key=f, reverse=True)]: descending keys, ties in the
    original order. *)
Definition sorted_by_key_reverse {A} (f : A -> Z) : list A -> list A :=
  sorted_by (fun a b => f b <=? f a).

(** *** Strings *)

Definition is_upper (c : ascii) : bool :=
  let n := nat_of_ascii c in (65 <=? n)%nat && (n <=? 90)%nat.

Definition lower_char (c : ascii) : ascii :=
  if is_upper c then ascii_of_nat (nat_of_ascii c + 32) else c.

(** [s.lower()] on ASCII text, where [str.lower()] folds the letters A..Z
    and nothing else. *)
Fixpoint lower (s : string) : string :=
  match s with
  | EmptyString => EmptyString
  | String c s' => String (lower_char c) (lower s')
  end.

(** [s.startswith(p)] *)
Fixpoint startswith (p s : string) : bool :=
  match p, s with
  | EmptyString, _ => true
  | String _ _, EmptyString => false
  | String a p', String b s' => if Ascii.eqb a b then startswith p' s' else false
  end.

(** [k in s] *)
Fixpoint contains (k s : string) : bool :=
  startswith k s ||
  match s with
  | EmptyString => false
  | String _ s' => contains k s'
  end.

(** [c in s] for a single character. *)
Definition has_char (c : ascii) (s : string) : bool := contains (String c EmptyString) s.

(** [s.split(c)] for a one-character separator: never empty. *)
Fixpoint split (c : ascii) (s : string) : list string :=
  match s with
  | EmptyString => [EmptyString]
  | String a s' =>
      if Ascii.eqb a c then EmptyString :: split c s'
      else match split c s' with
           | [] => [String a EmptyString]
           | w :: ws => String a w :: ws
           end
  end.

(** Whitespace as [str.strip()] and [int()] see it, in ASCII. *)
Definition is_space (c : ascii) : bool :=
  let n := nat_of_ascii c in
  ((9 <=? n)%nat && (n <=? 13)%nat) || ((28 <=? n)%nat && (n <=? 32)%nat).

Fixpoint lstrip (s : string) : string :=
  match s with
  | String c s' => if is_space c then lstrip s' else s
  | EmptyString => EmptyString
  end.

Fixpoint rstrip (s : string) : string :=
  match s with
  | EmptyString => EmptyString
  | String c s' =>
      match rstrip s' with
      | EmptyString => if is_space c then EmptyString else String c EmptyString
      | r => String c r
      end
  end.

(** [s.strip()] *)
Definition strip (s : string) : string := rstrip (lstrip s).

Definition digit_of (c : ascii) : option Z :=
  let n := nat_of_ascii c in
  if (48 <=? n)%nat && (n <=? 57)%nat then Some (Z.of_nat n - 48) else None.

(** Digits of a decimal literal, with single underscores allowed between
    digits; [prev] tells whether the previous character was a digit. *)
Fixpoint int_digits (acc : Z) (prev : bool) (s : string) : option Z :=
  match s with
  | EmptyString => if prev then Some acc else None
  | String c s' =>
      match digit_of c with
      | Some d => int_digits (10 * acc + d) true s'
      | None =>
          if Ascii.eqb c "_" && prev then int_digits acc false s' else None
      end
  end.

(** [int(s)] on a string; [None] where Python raises [ValueError]. *)
Definition int (s : string) : option Z :=
  match strip s with
  | String "-" s' => Z.opp <$> int_digits 0 false s'
  | String "+" s' => int_digits 0 false s'
  | s' => int_digits 0 false s'
  end.

(** *** Formatting *)

(** [f"{z}"] *)
Definition str_int (z : Z) : string := pretty z.

(** [f"{z:02d}"]: the sign counts in the width. *)
Definition fmt_02d (z : Z) : string :=
  if (0 <=? z) && (z <? 10) then "0" ++ pretty z else pretty z.

(** [f"{x:.1f}"] *)
Definition fmt_1f (x : Q) : string :=
  let n := Z.abs (round_half_even (x * 10)) in
  (if Qltb x 0 then "-" else "") ++ pretty (n / 10) ++ "." ++ pretty (n mod 10).

(** [sep.join(l)] *)
Fixpoint join (sep : string) (l : list string) : string :=
  match l with
  | [] => ""
  | [s] => s
  | s :: l' => s ++ sep ++ join sep l'
  end.

(** [s in l] for a list of strings. *)
Definition in_list (s : string) (l : list string) : bool := existsb (String.eqb s) l.

(** [max(l)] on floats, the first of the largest; 0 stands for the
    [ValueError] of the empty list. *)
Definition Qmax_list (l : list Q) : Q :=
  match l with
  | [] => 0%Q
  | x :: l' => fold_left (fun m y => if Qltb m y then y else m) l' x
  end.

(** *** Dictionaries in insertion order *)

Section Dict.
Context {K V : Type} `{EqDecision K}.

(** [d.get(k)] *)
Fixpoint dict_get (k : K) (d : list (K * V)) : option V :=
  match d with
  | [] => None
  | (k', v) :: d' => if decide (k = k') then Some v else dict_get k d'
  end.

(** [d[k] = v]: an existing key keeps its place, a new one goes last. *)
Fixpoint dict_set (k : K) (v : V) (d : list (K * V)) : list (K * V) :=
  match d with
  | [] => [(k, v)]
  | (k', v') :: d' =>
      if decide (k = k') then (k, v) :: d' else (k', v') :: dict_set k v d'
  end.

(** [d.keys()] *)
Definition dict_keys (d : list (K * V)) : list K := map fst d.
End Dict.

End Py.


(** ** Data model *)

(** One entry of the [sensitive_keywords] mapping of a scan. *)
Record KeywordInfo := {
  kw_count : Z;
  kw_percentage : Q;
  kw_in_headers : Z;
  kw_in_body : Z;
  kw_exists : bool
}.

(** The dictionaries [check_sensitive_fields] returns.  The keys of the
    answer to a non-200 response differ from those of the two other
    returns, so the two shapes are two constructors named after their keys;
    [error] is absent from the successful return. *)
Inductive ScanResult :=
| Exposure (error : option string) (total_logs_checked : Z)
    (sensitive_keywords : list (string * KeywordInfo)) (has_sensitive_data : bool)
| QueryFailed (error : string) (total_logs : Z)
    (sensitive_keywords_found : list (string * KeywordInfo)).

(** [d.get(key)] on such a dictionary, per key. *)
Definition get_error (d : ScanResult) : option string :=
  match d with
  | Exposure e _ _ _ => e
  | QueryFailed e _ _ => Some e
  end.

Definition get_total_logs_checked (d : ScanResult) : option Z :=
  match d with
  | Exposure _ n _ _ => Some n
  | QueryFailed _ _ _ => None
  end.

Definition get_sensitive_keywords (d : ScanResult) : option (list (string * KeywordInfo)) :=
  match d with
  | Exposure _ _ m _ => Some m
  | QueryFailed _ _ _ => None
  end.

Definition get_has_sensitive_data (d : ScanResult) : option bool :=
  match d with
  | Exposure _ _ _ b => Some b
  | QueryFailed _ _ _ => None
  end.

(** The per-API statistics of [_parse_traffic_stats], with the
    [sensitive_data] key the application adds before scoring ([None] while
    the key is absent). *)
Record TrafficStats := {
  api_name : string;
  total_requests : Z;
  avg_requests_per_hour : Q;
  max_requests_per_hour : Z;
  max_requests_per_minute : Z;
  peak_hour : option string;
  peak_hours : list Z;
  unique_ips : Z;
  unique_users : Z;
  top_ips : list (string * Z);
  top_users : list (string * Z);
  avg_response_time_ms : Q;
  status_codes : list (Z * Z);
  error_count : Z;
  error_rate : Q;
  success_rate : Q;
  sensitive_data : option ScanResult
}.

(** The empty dictionary the application scores when the API has no
    statistics: every key reads as its default. *)
Definition no_stats : TrafficStats :=
  {| api_name := ""; total_requests := 0; avg_requests_per_hour := 0;
     max_requests_per_hour := 0; max_requests_per_minute := 0;
     peak_hour := None; peak_hours := []; unique_ips := 0; unique_users := 0;
     top_ips := []; top_users := []; avg_response_time_ms := 0;
     status_codes := []; error_count := 0; error_rate := 0; success_rate := 0;
     sensitive_data := None |}.

(** [traffic_stats['sensitive_data'] = sensitive_data] *)
Definition with_sensitive_data (t : TrafficStats) (d : ScanResult) : TrafficStats :=
  {| api_name := api_name t; total_requests := total_requests t;
     avg_requests_per_hour := avg_requests_per_hour t;
     max_requests_per_hour := max_requests_per_hour t;
     max_requests_per_minute := max_requests_per_minute t;
     peak_hour := peak_hour t; peak_hours := peak_hours t;
     unique_ips := unique_ips t; unique_users := unique_users t;
     top_ips := top_ips t; top_users := top_users t;
     avg_response_time_ms := avg_response_time_ms t;
     status_codes := status_codes t; error_count := error_count t;
     error_rate := error_rate t; success_rate := success_rate t;
     sensitive_data := Some d |}.

(** A policy of the configuration snapshot; [enabled] may be absent. *)
Record PolicyRef := {
  ptype : string;
  enabled : option bool;
  order : Z
}.

Record Policies := {
  request : list PolicyRef;
  response : list PolicyRef;
  error : list PolicyRef
}.

(** [client_ssl] and [backend_ssl]; [non_ssl_names] holds the environment
    names of [non_ssl_environments], respectively [non_ssl_addresses]. *)
Record SslInfo := {
  total : Z;
  ssl_count : Z;
  all_ssl : bool;
  non_ssl_names : list string
}.

Record ApiConfig := {
  policies : Policies;
  client_ssl : SslInfo;
  backend_ssl : SslInfo
}.

Record Recommendation := {
  severity : string;
  category : string;
  message : string;
  action : string
}.

Record ScoreReport := {
  total_score : Q;
  security_level : string;
  component_scores : list (string * Q);
  recommendations : list Recommendation;
  calculated_at : string
}.

(** ** [modules/security_scorer.py] *)

Module SecurityScorer.

Definition rec (sev cat msg act : string) : Recommendation :=
  {| severity := sev; category := cat; message := msg; action := act |}.

(** [p.get('enabled', True)] *)
Definition is_enabled (p : PolicyRef) : bool := default true (enabled p).

(** The three policy lists, concatenated as every scorer does. *)
Definition all_policies (c : ApiConfig) : list PolicyRef :=
  request (policies c) ++ response (policies c) ++ error (policies c).

Definition _score_ip_whitelist (c : ApiConfig) (t : TrafficStats)
  : Q * list Recommendation :=
  let has_ip_whitelist :=
    existsb (fun p => String.eqb (ptype p) "PolicyIpWhite" && is_enabled p)
      (all_policies c) in
  if has_ip_whitelist then (100%Q, [])
  else
    let unique_ips := unique_ips t in
    if (0 <? unique_ips) && (unique_ips <=? 10) then
      (0%Q, [rec "medium" "ip_whitelist"
               ("API has " ++ Py.str_int unique_ips ++
                " unique IPs but no IP whitelist configured. Consider adding IP whitelist policy.")
               "Add PolicyIpWhite to restrict access to known IPs"])
    else (0%Q, []).

(** [int(max_per_hour * 1.2)] *)
Definition suggested_limit (max_per_hour : Z) : Z :=
  Py.trunc (inject_Z max_per_hour * (12 # 10)).

Definition _score_throttling (c : ApiConfig) (t : TrafficStats)
  : Q * list Recommendation :=
  let has_throttling :=
    existsb (fun p =>
               Py.in_list (ptype p) ["PolicyApiBasedThrottling"; "PolicyEndpointRateLimit"]
               && is_enabled p)
      (all_policies c) in
  if has_throttling then (100%Q, [])
  else
    let max_per_hour := max_requests_per_hour t in
    if 1000 <? max_per_hour then
      (0%Q, [rec "high" "throttling"
               ("High traffic API (" ++ Py.str_int max_per_hour ++
                " req/hour) without throttling. Risk of abuse.")
               ("Add throttling policy with limit ~" ++
                Py.str_int (suggested_limit max_per_hour) ++ " req/hour")])
    else if 0 <? max_per_hour then
      (0%Q, [rec "low" "throttling" "No throttling policy configured."
               ("Consider adding throttling policy with limit ~" ++
                Py.str_int (suggested_limit max_per_hour) ++ " req/hour")])
    else (0%Q, []).

Definition _score_quota (c : ApiConfig) (t : TrafficStats)
  : Q * list Recommendation :=
  let has_quota :=
    existsb (fun p => String.eqb (ptype p) "PolicyApiBasedQuota" && is_enabled p)
      (all_policies c) in
  if has_quota then (100%Q, [])
  else if 10000 <? total_requests t then
    (50%Q, [rec "medium" "quota" "High-volume API without quota limits."
              "Consider adding quota policy for cost control and fair usage"])
  else (50%Q, []).

Definition auth_policy_types : list string :=
  ["PolicyApiAuthentication"; "PolicyBasicAuthentication";
   "PolicyJwtAuthentication"; "PolicyOauth2Authentication";
   "PolicyMTLSAuthentication"; "PolicyDigestAuthentication"].

Definition _score_authentication (c : ApiConfig) : Q * list Recommendation :=
  let auth_policies :=
    List.filter (fun p => Py.in_list (ptype p) auth_policy_types && is_enabled p)
      (all_policies c) in
  match auth_policies with
  | [] =>
      (0%Q, [rec "critical" "authentication"
               "No authentication policy configured. API is publicly accessible."
               "Add authentication policy (OAuth2, JWT, or API Key recommended)"])
  | _ :: _ =>
      let auth_types := map ptype auth_policies in
      if Py.in_list "PolicyOauth2Authentication" auth_types
         || Py.in_list "PolicyJwtAuthentication" auth_types then (100%Q, [])
      else if Py.in_list "PolicyMTLSAuthentication" auth_types then (100%Q, [])
      else if Py.in_list "PolicyApiAuthentication" auth_types then (75%Q, [])
      else if Py.in_list "PolicyBasicAuthentication" auth_types then
        (50%Q, [rec "medium" "authentication"
                  "Using Basic Auth. Consider upgrading to OAuth2 or JWT."
                  "Upgrade to stronger authentication method"])
      else (0%Q, [])
  end.

(** [set(range(8, 19))] *)
Definition business_hours : gset Z := list_to_set (seqZ 8 11).

(** [', '.join([f"{h:02d}:00" for h in sorted(peak_hours)])] *)
Definition peak_hours_str (peak_hours : list Z) : string :=
  Py.join ", " (map (fun h => Py.fmt_02d h ++ ":00") (Py.sorted peak_hours)).

(** The action text of both allowed-hours recommendations; it is built
    only for a non-empty [peak_hours]. *)
Definition allowed_hours_action (peak_hours : list Z) : string :=
  "Add PolicyAllowedHours to restrict access to " ++
  Py.fmt_02d (default 0 (Py.min_list peak_hours)) ++ ":00-" ++
  Py.fmt_02d (default 0 (Py.max_list peak_hours) + 1) ++ ":00".

Definition _score_allowed_hours (c : ApiConfig) (t : TrafficStats)
  : Q * list Recommendation :=
  let has_allowed_hours :=
    existsb (fun p => String.eqb (ptype p) "PolicyAllowedHours" && is_enabled p)
      (all_policies c) in
  if has_allowed_hours then (100%Q, [])
  else
    let total_requests := total_requests t in
    let peak_hours := peak_hours t in
    if (100 <? total_requests) && negb (bool_decide (peak_hours = [])) then
      let peak_hours_set : gset Z := list_to_set peak_hours in
      if negb (bool_decide (peak_hours_set = ∅))
         && bool_decide (peak_hours_set ⊆ business_hours) then
        (70%Q, [rec "low" "allowed_hours"
                  ("API traffic is concentrated in business hours (peak: " ++
                   peak_hours_str peak_hours ++
                   "). Consider restricting access to business hours only.")
                  (allowed_hours_action peak_hours)])
      else if (Z.of_nat (length peak_hours) <=? 8) then
        (75%Q, [rec "low" "allowed_hours"
                  ("API traffic is concentrated in specific hours (peak: " ++
                   peak_hours_str peak_hours ++
                   "). Consider time-based access restriction.")
                  (allowed_hours_action peak_hours)])
      else (100%Q, [])
    else (100%Q, []).

Definition _score_traffic_anomaly (t : TrafficStats) : Q * list Recommendation :=
  let avg_per_hour := avg_requests_per_hour t in
  let max_per_hour := max_requests_per_hour t in
  if Py.Qgtb avg_per_hour 0 then
    let spike_ratio := (inject_Z max_per_hour / avg_per_hour)%Q in
    if Py.Qgtb spike_ratio 10 then
      (50%Q, [rec "high" "anomaly"
                ("Severe traffic spike detected (" ++ Py.fmt_1f spike_ratio ++
                 "x average). Possible attack or misconfiguration.")
                "Investigate traffic patterns and consider adding rate limiting"])
    else if Py.Qgtb spike_ratio 5 then
      (70%Q, [rec "medium" "anomaly"
                ("Significant traffic spike detected (" ++ Py.fmt_1f spike_ratio ++
                 "x average).")
                "Monitor traffic patterns and ensure adequate throttling"])
    else (100%Q, [])
  else (100%Q, []).

(** [_score_traffic_anomaly] with the division as Python has it; [None]
    is the [ZeroDivisionError] the method would raise. *)
Definition _score_traffic_anomaly_checked (t : TrafficStats)
  : option (Q * list Recommendation) :=
  let avg_per_hour := avg_requests_per_hour t in
  let max_per_hour := max_requests_per_hour t in
  if Py.Qgtb avg_per_hour 0 then
    spike_ratio ← Py.truediv (inject_Z max_per_hour) avg_per_hour;
    Some
      (if Py.Qgtb spike_ratio 10 then
         (50%Q, [rec "high" "anomaly"
                   ("Severe traffic spike detected (" ++ Py.fmt_1f spike_ratio ++
                    "x average). Possible attack or misconfiguration.")
                   "Investigate traffic patterns and consider adding rate limiting"])
       else if Py.Qgtb spike_ratio 5 then
         (70%Q, [rec "medium" "anomaly"
                   ("Significant traffic spike detected (" ++ Py.fmt_1f spike_ratio ++
                    "x average).")
                   "Monitor traffic patterns and ensure adequate throttling"])
       else (100%Q, []))
  else Some (100%Q, []).

Definition _score_error_rate (t : TrafficStats) : Q * list Recommendation :=
  let error_rate := error_rate t in
  if Py.Qgtb error_rate 20 then
    (30%Q, [rec "critical" "errors"
              ("Very high error rate (" ++ Py.fmt_1f error_rate ++
               "%). Service may be failing.")
              "Investigate backend service health and error causes"])
  else if Py.Qgtb error_rate 10 then
    (60%Q, [rec "high" "errors"
              ("High error rate (" ++ Py.fmt_1f error_rate ++ "%).")
              "Review error logs and improve error handling"])
  else if Py.Qgtb error_rate 5 then
    (80%Q, [rec "medium" "errors"
              ("Elevated error rate (" ++ Py.fmt_1f error_rate ++ "%).")
              "Monitor error trends and investigate common failures"])
  else (100%Q, []).

(** The score and recommendation of one side of the SSL/TLS check. *)
Definition ssl_side (s : SslInfo) (sev msg act : string) : Q * list Recommendation :=
  if 0 <? total s then
    if all_ssl s then (100%Q, [])
    else
      let side_score := (inject_Z (ssl_count s) / inject_Z (total s) * 100)%Q in
      match non_ssl_names s with
      | [] => (side_score, [])
      | names =>
          (side_score,
           [rec sev "ssl_tls" (msg ++ Py.join ", " (take 3 names)) act])
      end
  else (100%Q, []).

Definition _score_ssl_tls (c : ApiConfig) : Q * list Recommendation :=
  let '(client_score, client_recs) :=
    ssl_side (client_ssl c) "high"
      "Client connections without SSL/TLS detected in: "
      "Enable HTTPS for all client-facing endpoints to encrypt data in transit" in
  let '(backend_score, backend_recs) :=
    ssl_side (backend_ssl c) "medium"
      "Backend connections without SSL/TLS: "
      "Use HTTPS for backend service connections to ensure end-to-end encryption" in
  (Py.round2 (client_score * (6 # 10) + backend_score * (4 # 10)),
   (client_recs ++ backend_recs)%list).

(** The penalty table of [_score_logging]. *)
Definition logging_bucket (max_percentage : Q) : Q * string :=
  if Py.Qgtb max_percentage 80 then (10%Q, "critical")
  else if Py.Qgtb max_percentage 50 then (20%Q, "critical")
  else if Py.Qgtb max_percentage 20 then (40%Q, "high")
  else if Py.Qgtb max_percentage 10 then (50%Q, "high")
  else if Py.Qgtb max_percentage 5 then (60%Q, "medium")
  else if Py.Qgtb max_percentage 1 then (70%Q, "low")
  else (80%Q, "low").

Definition _score_logging (c : ApiConfig) (t : TrafficStats)
  : Q * list Recommendation :=
  let has_sensitive_data := default false (sensitive_data t ≫= get_has_sensitive_data) in
  let sensitive_keywords := default [] (sensitive_data t ≫= get_sensitive_keywords) in
  if has_sensitive_data then
    let total_logs := default 0 (sensitive_data t ≫= get_total_logs_checked) in
    let keyword_list :=
      map (fun '(keyword, info) =>
             keyword ++ " (" ++ Py.fmt_1f (kw_percentage info) ++ "%)")
        (List.filter (fun '(_, info) => Py.Qgtb (kw_percentage info) 0)
           sensitive_keywords) in
    match keyword_list with
    | [] => (100%Q, [])
    | _ :: _ =>
        let keywords_str := Py.join ", " (take 5 keyword_list) in
        let max_percentage :=
          Py.Qmax_list (map (fun '(_, info) => kw_percentage info) sensitive_keywords) in
        let '(score, sev) := logging_bucket max_percentage in
        (score,
         [rec sev "logging"
            ("Sensitive data detected in logs: " ++ keywords_str ++ ". Checked " ++
             Py.str_int total_logs ++ " logs.")
            "Configure log masking/filtering to prevent sensitive data (TC, phone, password, etc.) from being logged"])
    end
  else (100%Q, []).

Definition _get_security_level (score : Q) : string :=
  if Py.Qgeb score 90 then "Excellent"
  else if Py.Qgeb score 75 then "Good"
  else if Py.Qgeb score 60 then "Fair"
  else if Py.Qgeb score 40 then "Poor"
  else "Critical".

(** The nine component names, in evaluation order. *)
Definition component_names : list string :=
  ["ip_whitelist_coverage"; "throttling_configured"; "quota_configured";
   "authentication_strength"; "allowed_hours"; "traffic_anomaly";
   "error_rate"; "ssl_tls_status"; "logging_status"].

(** The nine [(score, recommendations)] pairs, in evaluation order. *)
Definition components (c : ApiConfig) (t : TrafficStats)
  : list (string * (Q * list Recommendation)) :=
  [("ip_whitelist_coverage", _score_ip_whitelist c t);
   ("throttling_configured", _score_throttling c t);
   ("quota_configured", _score_quota c t);
   ("authentication_strength", _score_authentication c);
   ("allowed_hours", _score_allowed_hours c t);
   ("traffic_anomaly", _score_traffic_anomaly t);
   ("error_rate", _score_error_rate t);
   ("ssl_tls_status", _score_ssl_tls c);
   ("logging_status", _score_logging c t)].

(** The loop [for component, score in scores.items()]. *)
Definition weighted_total (weights : gmap string Q) (scores : list (string * Q)) : Q :=
  fold_left
    (fun total_score '(component, score) =>
       let weight := default 0%Q (weights !! component) in
       (total_score + score * weight)%Q)
    scores 0%Q.

(** [calculate_api_score]; [now] is [datetime.now().isoformat()]. *)
Definition calculate_api_score (weights : gmap string Q) (now : string)
    (c : ApiConfig) (t : TrafficStats) : ScoreReport :=
  let parts := components c t in
  let scores := map (fun p => (fst p, fst (snd p))) parts in
  let recommendations := concat (map (fun p => snd (snd p)) parts) in
  let total_score := weighted_total weights scores in
  let security_level := _get_security_level total_score in
  {| total_score := Py.round2 total_score;
     security_level := security_level;
     component_scores := scores;
     recommendations := recommendations;
     calculated_at := now |}.

End SecurityScorer.

(** ** [modules/elasticsearch_analyzer.py] *)

Module ElasticsearchAnalyzer.

(** A bucket of the [by_hour] date histogram. *)
Record HourBucket := {
  key_as_string : option string;
  hour_doc_count : Z
}.

(** A bucket of the [apis] terms aggregation, with its sub-aggregations. *)
Record ApiBucket := {
  key : string;
  doc_count : Z;
  api_name_buckets : list string;
  by_hour : list HourBucket;
  unique_ips_value : Z;
  unique_users_value : Z;
  top_ips_buckets : list (string * Z);
  top_users_buckets : list (string * Z);
  avg_response_time_value : option Q;
  status_codes_buckets : list (Z * Z);
  error_count_doc_count : Z
}.

(** A moment as [datetime] has it: microseconds on the time line. *)
Definition datetime := Z.

(** [(end_date - start_date).total_seconds()] *)
Definition total_seconds (start_date end_date : datetime) : Q :=
  (inject_Z (end_date - start_date) / 1000000)%Q.

(** [max(x, 1)] *)
Definition at_least_one (x : Q) : Q := if Py.Qltb x 1 then 1%Q else x.

(** The hour-of-day digits of a timestamp; [None] where the source raises
    and swallows the exception. *)
Definition hour_of (timestamp : string) : option Z :=
  if Py.has_char "T" timestamp then
    s ← Py.split "T" timestamp !! 1%nat;
    h ← Py.split ":" s !! 0%nat;
    Py.int h
  else
    s ← Py.split " " timestamp !! 1%nat;
    h ← Py.split ":" s !! 0%nat;
    Py.int h.

(** One round of the loop filling [hourly_distribution]. *)
Definition add_hour (d : list (Z * Z)) (hour_bucket : HourBucket) : list (Z * Z) :=
  let timestamp := default "" (key_as_string hour_bucket) in
  let count := hour_doc_count hour_bucket in
  if bool_decide (timestamp = "") then d
  else
    match hour_of timestamp with
    | Some hour => Py.dict_set hour (default 0 (Py.dict_get hour d) + count) d
    | None => d
    end.

Definition hourly_distribution (hourly_buckets : list HourBucket) : list (Z * Z) :=
  fold_left add_hour hourly_buckets [].

(** The top five hours of the distribution, before the final sort. *)
Definition top_hours (d : list (Z * Z)) : list Z :=
  map fst (take 5 (Py.sorted_by_key_reverse snd d)).

(** The body of the loop over the API buckets. *)
Definition parse_bucket (start_date end_date : datetime) (bucket : ApiBucket)
  : TrafficStats :=
  let total_requests := doc_count bucket in
  let api_name := default "Unknown" (head (api_name_buckets bucket)) in
  let hours_diff := at_least_one (total_seconds start_date end_date / 3600)%Q in
  let avg_requests_per_hour := (inject_Z total_requests / hours_diff)%Q in
  let hourly_buckets := by_hour bucket in
  let max_requests_per_hour :=
    default 0 (Py.max_list (map hour_doc_count hourly_buckets)) in
  let max_requests_per_minute :=
    if 0 <? max_requests_per_hour
    then Py.trunc (inject_Z max_requests_per_hour / 60 * (15 # 10))%Q
    else 0 in
  let peak_hour := Py.max_by hour_doc_count hourly_buckets ≫= key_as_string in
  let status_codes :=
    fold_left (fun d '(k, n) => Py.dict_set k n d) (status_codes_buckets bucket) [] in
  let error_count := error_count_doc_count bucket in
  let error_rate :=
    if 0 <? total_requests
    then (inject_Z error_count / inject_Z total_requests * 100)%Q
    else 0%Q in
  let peak_hours := top_hours (hourly_distribution hourly_buckets) in
  {| api_name := api_name;
     total_requests := total_requests;
     avg_requests_per_hour := Py.round2 avg_requests_per_hour;
     max_requests_per_hour := max_requests_per_hour;
     max_requests_per_minute := max_requests_per_minute;
     peak_hour := peak_hour;
     peak_hours := Py.sorted peak_hours;
     unique_ips := unique_ips_value bucket;
     unique_users := unique_users_value bucket;
     top_ips := take 5 (top_ips_buckets bucket);
     top_users := take 5 (top_users_buckets bucket);
     avg_response_time_ms :=
       match avg_response_time_value bucket with
       | Some x => if Qeq_bool x 0 then 0%Q else Py.round2 x
       | None => 0%Q
       end;
     status_codes := status_codes;
     error_count := error_count;
     error_rate := Py.round2 error_rate;
     success_rate := Py.round2 (100 - error_rate);
     sensitive_data := None |}.

(** [_parse_traffic_stats], on the buckets of the [apis] aggregation. *)
Definition _parse_traffic_stats (api_buckets : list ApiBucket)
    (start_date end_date : datetime) : list (string * TrafficStats) :=
  fold_left
    (fun stats bucket =>
       Py.dict_set (key bucket) (parse_bucket start_date end_date bucket) stats)
    api_buckets [].

(** What a call of [requests.post] comes to: an exception with its text,
    or a response with its status and what [response.json()] gives, the
    decoded body or the text of the exception it raises. *)
Inductive Fetched (A : Type) :=
| Raised (msg : string)
| Response (status_code : Z) (json : A + string).
Arguments Raised {A} msg.
Arguments Response {A} status_code json.

(** [get_traffic_stats], after the query is sent: [raise_for_status]
    raises on the 4xx and 5xx codes, and every exception yields [{}]. *)
Definition get_traffic_stats (fetched : Fetched (list ApiBucket))
    (start_date end_date : datetime) : list (string * TrafficStats) :=
  match fetched with
  | Raised _ => []
  | Response status_code json =>
      if (400 <=? status_code) && (status_code <? 600) then []
      else match json with
           | inl api_buckets => _parse_traffic_stats api_buckets start_date end_date
           | inr _ => []
           end
  end.

(** *** Sensitive fields *)

(** The [_source] of a hit, both blobs after [str(...)]. *)
Record Hit := {
  fcrh : string;
  fcrb : string
}.

Record KeywordCounts := {
  count : Z;
  in_headers : Z;
  in_body : Z
}.

Definition default_keywords : list string :=
  ["tc"; "kimlik"; "tel"; "telefon"; "sifre"; "password"].

(** The keyword list read from the file; [None] is a missing file. *)
Definition load_keywords (file : option string) : list string :=
  match file with
  | Some text =>
      let content := Py.strip text in
      let parts :=
        if Py.has_char "," content then Py.split "," content
        else Py.split "010" content in
      map (fun kw => Py.lower (Py.strip kw))
        (List.filter (fun kw => negb (bool_decide (Py.strip kw = ""))) parts)
  | None => default_keywords
  end.

(** The body of the inner loop, for one hit and one keyword. *)
Definition count_keyword (fcrh_l fcrb_l : string)
    (keyword_counts : list (string * KeywordCounts)) (keyword : string)
  : list (string * KeywordCounts) :=
  let found_in_headers := Py.contains keyword fcrh_l in
  let found_in_body := Py.contains keyword fcrb_l in
  if found_in_headers || found_in_body then
    match Py.dict_get keyword keyword_counts with
    | Some c =>
        Py.dict_set keyword
          {| count := count c + 1;
             in_headers := if found_in_headers then in_headers c + 1 else in_headers c;
             in_body := if found_in_body then in_body c + 1 else in_body c |}
          keyword_counts
    | None => keyword_counts
    end
  else keyword_counts.

Definition count_hit (sensitive_keywords : list string)
    (keyword_counts : list (string * KeywordCounts)) (hit : Hit)
  : list (string * KeywordCounts) :=
  fold_left (count_keyword (Py.lower (fcrh hit)) (Py.lower (fcrb hit)))
    sensitive_keywords keyword_counts.

(** [{keyword: {'count': 0, ...} for keyword in sensitive_keywords}] *)
Definition initial_counts (sensitive_keywords : list string)
  : list (string * KeywordCounts) :=
  fold_left
    (fun d keyword =>
       Py.dict_set keyword {| count := 0; in_headers := 0; in_body := 0 |} d)
    sensitive_keywords [].

Definition tally (sensitive_keywords : list string) (hits : list Hit)
  : list (string * KeywordCounts) :=
  fold_left (count_hit sensitive_keywords) hits (initial_counts sensitive_keywords).

Definition percentage_of (n total_logs : Z) : Q :=
  if 0 <? total_logs then (inject_Z n / inject_Z total_logs * 100)%Q else 0%Q.

Definition keyword_percentages (total_logs : Z)
    (keyword_counts : list (string * KeywordCounts)) : list (string * KeywordInfo) :=
  omap
    (fun '(keyword, counts) =>
       if 0 <? count counts then
         Some (keyword,
               {| kw_count := count counts;
                  kw_percentage := Py.round2 (percentage_of (count counts) total_logs);
                  kw_in_headers := in_headers counts;
                  kw_in_body := in_body counts;
                  kw_exists := true |})
       else None)
    keyword_counts.

(** The scan of the hits already fetched. *)
Definition scan_hits (sensitive_keywords : list string) (hits : list Hit) : ScanResult :=
  let total_logs := Z.of_nat (length hits) in
  let percentages := keyword_percentages total_logs (tally sensitive_keywords hits) in
  Exposure None total_logs percentages (0 <? Z.of_nat (length percentages)).

(** [check_sensitive_fields], after the query is sent. *)
Definition check_sensitive_fields (file : option string) (fetched : Fetched (list Hit))
  : ScanResult :=
  let sensitive_keywords := load_keywords file in
  match fetched with
  | Raised msg => Exposure (Some msg) 0 [] false
  | Response status_code json =>
      if negb (status_code =? 200) then
        QueryFailed ("ES query failed: " ++ Py.str_int status_code) 0 []
      else
        match json with
        | inl hits => scan_hits sensitive_keywords hits
        | inr msg => Exposure (Some msg) 0 [] false
        end
  end.

(** *** The heat map *)

(** The dictionary [get_hourly_traffic_distribution] returns: the keys
    [hourly_distribution], [max_traffic] and [total_requests]. *)
Record HourlyTraffic := {
  hourly_counts : list Z;
  max_traffic : Z;
  heat_total_requests : Z
}.

Definition no_traffic : HourlyTraffic :=
  {| hourly_counts := replicate 24 0; max_traffic := 0; heat_total_requests := 0 |}.

(** One round of the loop over the buckets; the list keeps its 24 places,
    so [hourly_counts[hour]] is never out of range for [0 <= hour < 24]. *)
Definition add_hour_of_day (hourly_counts : list Z) (bucket : HourBucket) : list Z :=
  let timestamp := default "" (key_as_string bucket) in
  let count := hour_doc_count bucket in
  if bool_decide (timestamp = "") then hourly_counts
  else if Py.has_char "T" timestamp then
    match (s ← Py.split "T" timestamp !! 1%nat;
           h ← Py.split ":" s !! 0%nat;
           Py.int h) with
    | Some hour =>
        if (0 <=? hour) && (hour <? 24) then
          <[Z.to_nat hour := default 0 (hourly_counts !! Z.to_nat hour) + count]>
            hourly_counts
        else hourly_counts
    | None => hourly_counts
    end
  else hourly_counts.

(** [get_hourly_traffic_distribution], after the query is sent. *)
Definition get_hourly_traffic_distribution (fetched : Fetched (list HourBucket))
  : HourlyTraffic :=
  match fetched with
  | Raised _ => no_traffic
  | Response status_code json =>
      if negb (status_code =? 200) then no_traffic
      else
        match json with
        | inl buckets =>
            let hourly_counts := fold_left add_hour_of_day buckets (replicate 24 0) in
            {| hourly_counts := hourly_counts;
               max_traffic := default 0 (Py.max_list hourly_counts);
               heat_total_requests := fold_left Z.add hourly_counts 0 |}
        | inr _ => no_traffic
        end
  end.

End ElasticsearchAnalyzer.

(** ** [modules/mongodb_analyzer.py] *)

Module MongoDBAnalyzer.

(** A policy document of an API proxy; an absent key is [None]. *)
Record PolicyDoc := {
  _class : option string;
  doc_enabled : option bool;
  doc_order : option Z
}.

(** An entry of [apiProxyDeployList]: [deploy] as its truth value,
    [accessUrl] and [environmentName] after their defaults. *)
Record DeployDoc := {
  deploy : bool;
  accessUrl : string;
  environmentName : string
}.

(** What the analyzer reads of an [api_proxy] document;
    [routingAddressWrapperList] holds the [address] of each entry, [""]
    where it is absent. *)
Record ApiDoc := {
  requestPolicyList : list PolicyDoc;
  responsePolicyList : list PolicyDoc;
  errorPolicyList : list PolicyDoc;
  routingAddressWrapperList : list string;
  apiProxyDeployList : list DeployDoc
}.

(** [policy.get('_class', '').split('.')[-1]] *)
Definition policy_class (policy : PolicyDoc) : string :=
  default "" (last (Py.split "." (default "" (_class policy)))).

Definition policy_info (policy : PolicyDoc) : PolicyRef :=
  {| ptype := policy_class policy;
     enabled := Some (default true (doc_enabled policy));
     order := default 0 (doc_order policy) |}.

Definition _parse_policies (api : ApiDoc) : Policies :=
  {| request := map policy_info (requestPolicyList api);
     response := map policy_info (responsePolicyList api);
     error := map policy_info (errorPolicyList api) |}.

Definition _check_backend_ssl (api : ApiDoc) : SslInfo :=
  let routing_addresses := routingAddressWrapperList api in
  let total_backends := Z.of_nat (length routing_addresses) in
  let '(ssl_backends, non_ssl_backends) :=
    fold_left
      (fun '(ssl_backends, non_ssl_backends) address =>
         if Py.startswith "https://" address then (ssl_backends + 1, non_ssl_backends)
         else if Py.startswith "http://" address
              then (ssl_backends, (non_ssl_backends ++ [address])%list)
              else (ssl_backends, non_ssl_backends))
      routing_addresses (0, []) in
  {| total := total_backends;
     ssl_count := ssl_backends;
     all_ssl := (ssl_backends =? total_backends) && (0 <? total_backends);
     non_ssl_names := non_ssl_backends |}.

Definition _check_client_ssl (api : ApiDoc) : SslInfo :=
  let deploy_list := apiProxyDeployList api in
  let '(total_deployed, ssl_deployed, non_ssl_deployed) :=
    fold_left
      (fun '(total_deployed, ssl_deployed, non_ssl_deployed) d =>
         if deploy d then
           let access_url := accessUrl d in
           let env_name := environmentName d in
           if Py.startswith "https://" access_url
           then (total_deployed + 1, ssl_deployed + 1, non_ssl_deployed)
           else if Py.startswith "http://" access_url
                then (total_deployed + 1, ssl_deployed,
                      (non_ssl_deployed ++ [env_name])%list)
                else (total_deployed + 1, ssl_deployed, non_ssl_deployed)
         else (total_deployed, ssl_deployed, non_ssl_deployed))
      deploy_list (0, 0, []) in
  {| total := total_deployed;
     ssl_count := ssl_deployed;
     all_ssl := (ssl_deployed =? total_deployed) && (0 <? total_deployed);
     non_ssl_names := non_ssl_deployed |}.

(** The dictionary [get_api_details] builds from a document, as far as the
    scorer reads it. *)
Definition api_details (api : ApiDoc) : ApiConfig :=
  {| policies := _parse_policies api;
     client_ssl := _check_client_ssl api;
     backend_ssl := _check_backend_ssl api |}.

(** [get_api_details]; [found] is what [find_one] returns, [None] also
    standing for an exception, which the method turns into [None]. *)
Definition get_api_details (found : option ApiDoc) : option ApiConfig :=
  api_details <$> found.

End MongoDBAnalyzer.

(** ** [app.py] *)

Module App.
Import SecurityScorer ElasticsearchAnalyzer.

(** The scoring steps shared by [get_api_score] and [export_report]:
    [api_config] is what [get_api_details] found, the two [Fetched] values
    are the answers to the traffic query and to the sample query. [None]
    is the 404 answer for an unknown API. *)
Definition get_api_score (weights : gmap string Q) (now : string)
    (api_config : option ApiConfig) (api_id : string)
    (start_date end_date : datetime)
    (traffic : Fetched (list ApiBucket))
    (keyword_file : option string) (sample : Fetched (list Hit))
  : option ScoreReport :=
  match api_config with
  | None => None
  | Some api_config =>
      let traffic_stats_dict := get_traffic_stats traffic start_date end_date in
      let traffic_stats := default no_stats (Py.dict_get api_id traffic_stats_dict) in
      let sensitive_data := check_sensitive_fields keyword_file sample in
      let traffic_stats := with_sensitive_data traffic_stats sensitive_data in
      Some (calculate_api_score weights now api_config traffic_stats)
  end.

End App.

(** ** Facts about the primitives *)

Module PyFacts.
Import Py.
Local Open Scope Q_scope.

Lemma Qltb_lt x y : Qltb x y = true <-> x < y.
Proof.
  unfold Qltb. rewrite negb_true_iff, <- not_true_iff_false, Qle_bool_iff.
  split; [apply Qnot_le_lt | apply Qlt_not_le].
Qed.

Lemma Qltb_ge x y : Qltb x y = false <-> y <= x.
Proof. unfold Qltb. rewrite negb_false_iff. apply Qle_bool_iff. Qed.

Lemma Qgeb_ge x y : Qgeb x y = true <-> y <= x.
Proof. apply Qle_bool_iff. Qed.

Lemma Qgeb_lt x y : Qgeb x y = false <-> x < y.
Proof.
  unfold Qgeb. rewrite <- not_true_iff_false, Qle_bool_iff.
  split; [apply Qnot_le_lt | apply Qlt_not_le].
Qed.

(** The rounded value is the floor or the next integer. *)
Lemma round_half_even_floor q :
  round_half_even q = Qfloor q \/ round_half_even q = (Qfloor q + 1)%Z.
Proof.
  unfold round_half_even.
  destruct (Qcompare _ _); [destruct (Z.even _) | |]; auto.
Qed.

Lemma round_half_even_ge (n : Z) q : inject_Z n <= q -> (n <= round_half_even q)%Z.
Proof.
  intros H. apply Qfloor_resp_le in H. rewrite Qfloor_Z in H.
  destruct (round_half_even_floor q) as [-> | ->]; lia.
Qed.

Lemma round_half_even_le (n : Z) q : q <= inject_Z n -> (round_half_even q <= n)%Z.
Proof.
  intros H. pose proof (Qfloor_resp_le _ _ H) as Hf. rewrite Qfloor_Z in Hf.
  destruct (Z.eq_dec (Qfloor q) n) as [E | E].
  - (* q is the integer n: the residue is 0 *)
    assert (Hq : q == inject_Z n).
    { apply Qle_antisym; [exact H |]. rewrite <- E. apply Qfloor_le. }
    unfold round_half_even. rewrite E.
    assert (Hc : Qcompare (q - inject_Z n) (1 # 2) = Lt).
    { apply Qlt_alt. rewrite Hq. unfold Qminus. rewrite Qplus_opp_r. reflexivity. }
    rewrite Hc. lia.
  - destruct (round_half_even_floor q) as [-> | ->]; lia.
Qed.

Lemma round_half_even_mono p q : p <= q -> (round_half_even p <= round_half_even q)%Z.
Proof.
  intros H. pose proof (Qfloor_resp_le _ _ H) as Hf.
  destruct (Z.eq_dec (Qfloor p) (Qfloor q)) as [E | E].
  - unfold round_half_even. rewrite E.
    assert (Hr : p - inject_Z (Qfloor q) <= q - inject_Z (Qfloor q)).
    { apply Qplus_le_l with (z := inject_Z (Qfloor q)).
      unfold Qminus. rewrite <- !Qplus_assoc, (Qplus_comm (- _)), Qplus_opp_r, !Qplus_0_r.
      exact H. }
    destruct (Qcompare (p - _) _) eqn:Cp; destruct (Qcompare (q - _) _) eqn:Cq;
      try match goal with |- context [Z.even ?f] => destruct (Z.even f) end;
      try lia; exfalso.
    + apply Qeq_alt in Cp. apply Qlt_alt in Cq. rewrite Cp in Hr.
      exact (Qlt_not_le _ _ Cq Hr).
    + apply Qgt_alt in Cp. apply Qeq_alt in Cq. rewrite Cq in Hr.
      exact (Qlt_not_le _ _ Cp Hr).
    + apply Qgt_alt in Cp. apply Qlt_alt in Cq.
      exact (Qlt_not_le _ _ (Qlt_trans _ _ _ Cq Cp) Hr).
  - destruct (round_half_even_floor p) as [-> | ->];
      destruct (round_half_even_floor q) as [-> | ->]; lia.
Qed.

Lemma scale_100_le x y : x <= y -> x * 100 <= y * 100.
Proof. intros H. apply Qmult_le_compat_r; [exact H | discriminate]. Qed.

Lemma unscale_100_le (a b : Z) : (a <= b)%Z -> inject_Z a / 100 <= inject_Z b / 100.
Proof.
  intros H. apply Qmult_le_compat_r; [| discriminate].
  rewrite <- Zle_Qle. exact H.
Qed.

Lemma inject_Z_100 (n : Z) : inject_Z (n * 100) / 100 == inject_Z n.
Proof. rewrite inject_Z_mult. field. Qed.

(** [round(x, 2)] is monotone, and does not cross an integer. *)
Lemma round2_mono x y : x <= y -> round2 x <= round2 y.
Proof.
  intros H. unfold round2.
  apply unscale_100_le, round_half_even_mono, scale_100_le, H.
Qed.

Lemma round2_ge (n : Z) x : inject_Z n <= x -> inject_Z n <= round2 x.
Proof.
  intros H. unfold round2. rewrite <- (inject_Z_100 n).
  apply unscale_100_le, round_half_even_ge.
  rewrite inject_Z_mult. apply scale_100_le, H.
Qed.

Lemma round2_le (n : Z) x : x <= inject_Z n -> round2 x <= inject_Z n.
Proof.
  intros H. unfold round2. rewrite <- (inject_Z_100 n).
  apply unscale_100_le, round_half_even_le.
  rewrite inject_Z_mult. apply scale_100_le, H.
Qed.

Lemma round2_int (n : Z) : round2 (inject_Z n) == inject_Z n.
Proof. apply Qle_antisym; [apply round2_le | apply round2_ge]; apply Qle_refl. Qed.

#[export] Instance round_half_even_proper : Proper (Qeq ==> eq) round_half_even.
Proof.
  intros p q E. apply Z.le_antisymm; apply round_half_even_mono; rewrite E; apply Qle_refl.
Qed.

#[export] Instance round2_proper : Proper (Qeq ==> Qeq) round2.
Proof. intros p q E. unfold round2. rewrite E. reflexivity. Qed.

(** *** Sorting *)

Section SortFacts.
Context {A : Type} (le : A -> A -> bool).

Lemma insert_sorted_perm (x : A) (l : list A) : insert_sorted le x l ≡ₚ x :: l.
Proof.
  induction l as [| y l IH]; simpl; [reflexivity |].
  destruct (le x y); [reflexivity |].
  rewrite IH. apply Permutation_swap.
Qed.

Lemma sorted_by_perm (l : list A) : sorted_by le l ≡ₚ l.
Proof.
  induction l as [| x l IH]; simpl; [reflexivity |].
  fold (sorted_by le l). now rewrite insert_sorted_perm, IH.
Qed.

Lemma sorted_by_length (l : list A) : length (sorted_by le l) = length l.
Proof. apply Permutation_length, sorted_by_perm. Qed.

Hypothesis le_total : forall a b, le a b = true \/ le b a = true.
Hypothesis le_trans : forall a b c, le a b = true -> le b c = true -> le a c = true.

Lemma insert_sorted_sorted (x : A) (l : list A) :
  StronglySorted (fun a b => le a b = true) l ->
  StronglySorted (fun a b => le a b = true) (insert_sorted le x l).
Proof.
  induction 1 as [| y l Hs IH Hall]; simpl; [repeat constructor |].
  destruct (le x y) eqn:E.
  - constructor; [now constructor |]. constructor; [exact E |].
    eapply Forall_impl; [exact Hall |]. intros z Hz. now apply le_trans with y.
  - constructor; [exact IH |].
    rewrite (insert_sorted_perm x l). constructor; [| exact Hall].
    destruct (le_total x y) as [H | H]; [congruence | exact H].
Qed.

Lemma sorted_by_sorted (l : list A) :
  StronglySorted (fun a b => le a b = true) (sorted_by le l).
Proof.
  induction l as [| x l IH]; simpl; [constructor |].
  now apply insert_sorted_sorted.
Qed.

End SortFacts.

Lemma StronglySorted_weaken {A} (R R' : A -> A -> Prop) (l : list A) :
  (forall a b, R a b -> R' a b) -> StronglySorted R l -> StronglySorted R' l.
Proof.
  intros Himp. induction 1 as [| x l Hs IH Hall]; constructor; [exact IH |].
  eapply Forall_impl; [exact Hall | auto].
Qed.

(** [sorted(l)] is ascending. *)
Lemma sorted_ascending (l : list Z) : StronglySorted Z.le (sorted l).
Proof.
  apply StronglySorted_weaken with (R := fun a b => (a <=? b)%Z = true).
  - intros a b. apply Z.leb_le.
  - apply sorted_by_sorted.
    + intros a b. rewrite !Z.leb_le. lia.
    + intros a b c. rewrite !Z.leb_le. lia.
Qed.

(** [sorted(items, key=f, reverse=True)] is descending in the key. *)
Lemma sorted_by_key_reverse_descending {A} (f : A -> Z) (l : list A) :
  StronglySorted (fun a b => (f b <= f a)%Z) (sorted_by_key_reverse f l).
Proof.
  apply StronglySorted_weaken with (R := fun a b => (f b <=? f a)%Z = true).
  - intros a b. apply Z.leb_le.
  - apply (sorted_by_sorted (fun a b => (f b <=? f a)%Z)).
    + intros a b. rewrite !Z.leb_le. lia.
    + intros a b c. rewrite !Z.leb_le. lia.
Qed.

End PyFacts.

(** ** Properties of the scorer *)

Module ScorerFacts.
Import Py PyFacts SecurityScorer.

(** An enabled policy of type [ty] is present in the snapshot. *)
Definition enabled_present (ty : string) (c : ApiConfig) : Prop :=
  exists p, In p (all_policies c) /\ ptype p = ty /\ is_enabled p = true.

(** The same, as the scorers test it. *)
Definition has_enabled (ty : string) (l : list PolicyRef) : bool :=
  existsb (fun p => String.eqb (ptype p) ty && is_enabled p) l.

Lemma has_enabled_present ty c :
  has_enabled ty (all_policies c) = true <-> enabled_present ty c.
Proof.
  unfold has_enabled, enabled_present. rewrite existsb_exists.
  split; intros (p & Hin & H).
  - apply andb_true_iff in H as [Ht He]. apply String.eqb_eq in Ht. eauto.
  - exists p. destruct H as [<- ->]. rewrite String.eqb_refl. auto.
Qed.

Lemma in_list_In s l : in_list s l = true <-> In s l.
Proof.
  unfold in_list. rewrite existsb_exists. split.
  - intros (x & Hin & E). apply String.eqb_eq in E. now subst.
  - intros Hin. exists s. now rewrite String.eqb_refl.
Qed.

Definition is_auth (p : PolicyRef) : bool :=
  in_list (ptype p) auth_policy_types && is_enabled p.

(** Among the retained policies, a type of the authentication class is
    found exactly when an enabled policy of that type exists. *)
Lemma auth_types_has ty l :
  In ty auth_policy_types ->
  in_list ty (map ptype (List.filter is_auth l)) = has_enabled ty l.
Proof.
  intros Hty. induction l as [| p l IH]; [reflexivity |].
  simpl. unfold is_auth at 1.
  destruct (String.eqb_spec (ptype p) ty) as [E | E].
  - subst ty. apply in_list_In in Hty. rewrite Hty. simpl.
    destruct (is_enabled p); simpl; [| exact IH].
    now rewrite String.eqb_refl.
  - destruct (in_list (ptype p) auth_policy_types && is_enabled p); simpl; [| exact IH].
    destruct (String.eqb_spec ty (ptype p)) as [E' | _]; [now symmetry in E' | exact IH].
Qed.

Lemma filter_nil_none l :
  List.filter is_auth l = [] ->
  forall ty, In ty auth_policy_types -> has_enabled ty l = false.
Proof.
  intros Hnil ty Hty. rewrite <- (auth_types_has ty l Hty), Hnil. reflexivity.
Qed.

Lemma filter_cons_some p l' l :
  List.filter is_auth l = p :: l' ->
  exists ty, In ty auth_policy_types /\ has_enabled ty l = true.
Proof.
  intros Hf. assert (Hin : In p (List.filter is_auth l)) by (rewrite Hf; now left).
  apply filter_In in Hin as [Hin Ha]. unfold is_auth in Ha.
  apply andb_true_iff in Ha as [Ht He]. exists (ptype p). split.
  - now apply in_list_In.
  - unfold has_enabled. apply existsb_exists. exists p.
    now rewrite String.eqb_refl, He.
Qed.

(** X1: the score of [_score_authentication] in terms of the enabled
    policy types: the ranking of the source, and what it leaves out. *)
Lemma authentication_by_type c :
  let l := all_policies c in
  let r := _score_authentication c in
  let strong :=
    has_enabled "PolicyOauth2Authentication" l
    || has_enabled "PolicyJwtAuthentication" l
    || has_enabled "PolicyMTLSAuthentication" l in
  ((forall ty, In ty auth_policy_types -> has_enabled ty l = false) ->
     fst r = 0%Q /\ map severity (snd r) = ["critical"]
     /\ map category (snd r) = ["authentication"])
  /\ (strong = true -> r = (100%Q, []))
  /\ (strong = false -> has_enabled "PolicyApiAuthentication" l = true ->
      r = (75%Q, []))
  /\ (strong = false -> has_enabled "PolicyApiAuthentication" l = false ->
      has_enabled "PolicyBasicAuthentication" l = true ->
      fst r = 50%Q /\ map severity (snd r) = ["medium"]
      /\ map category (snd r) = ["authentication"])
  /\ (strong = false -> has_enabled "PolicyApiAuthentication" l = false ->
      has_enabled "PolicyBasicAuthentication" l = false ->
      has_enabled "PolicyDigestAuthentication" l = true ->
      r = (0%Q, [])).
Proof.
  intros l r strong. subst r strong. unfold _score_authentication. fold is_auth. fold l.
  destruct (List.filter is_auth l) as [| p l'] eqn:Hf.
  - pose proof (filter_nil_none l Hf) as Hnone.
    rewrite !Hnone by (unfold auth_policy_types; simpl; tauto).
    simpl. repeat split; intros; discriminate.
  - rewrite <- Hf. rewrite !auth_types_has by (unfold auth_policy_types; simpl; tauto).
    split.
    { intros Hall. destruct (filter_cons_some _ _ _ Hf) as (ty & Hty & Hh).
      rewrite (Hall ty Hty) in Hh. discriminate. }
    destruct (has_enabled "PolicyOauth2Authentication" l);
      destruct (has_enabled "PolicyJwtAuthentication" l);
      destruct (has_enabled "PolicyMTLSAuthentication" l);
      destruct (has_enabled "PolicyApiAuthentication" l);
      destruct (has_enabled "PolicyBasicAuthentication" l);
      simpl; repeat split; intros; try discriminate; reflexivity.
Qed.

(** *** Concrete snapshots *)

Definition policy (ty : string) : PolicyRef :=
  {| ptype := ty; enabled := Some true; order := 0 |}.

Definition no_deployments : SslInfo :=
  {| total := 0; ssl_count := 0; all_ssl := false; non_ssl_names := [] |}.

Definition config_of (req : list PolicyRef) (client backend : SslInfo) : ApiConfig :=
  {| policies := {| request := req; response := []; error := [] |};
     client_ssl := client; backend_ssl := backend |}.

Definition digest_only : ApiConfig :=
  config_of [policy "PolicyDigestAuthentication"] no_deployments no_deployments.

(** C1, at a snapshot whose only policy is an enabled Digest
    authentication: a policy of the authentication class is present and
    enabled, no recommendation is made, and the authentication score is
    0 all the same, the score of a snapshot without authentication. *)
Theorem digest_only_scores_zero :
  enabled_present "PolicyDigestAuthentication" digest_only
  /\ In "PolicyDigestAuthentication" auth_policy_types
  /\ _score_authentication digest_only = (0%Q, []).
Proof.
  split; [| split].
  - exists (policy "PolicyDigestAuthentication"). simpl. auto.
  - simpl. tauto.
  - reflexivity.
Qed.

(** *** The level and the reported total *)

Definition configured_weights : gmap string Q :=
  list_to_map
    [("ip_whitelist_coverage", 15 # 100); ("throttling_configured", 15 # 100);
     ("quota_configured", 5 # 100); ("authentication_strength", 20 # 100);
     ("allowed_hours", 5 # 100); ("traffic_anomaly", 5 # 100);
     ("error_rate", 5 # 100); ("ssl_tls_status", 10 # 100);
     ("logging_status", 20 # 100)].

Definition all_client_ssl : SslInfo :=
  {| total := 1; ssl_count := 1; all_ssl := true; non_ssl_names := [] |}.

(** 999 of 1000 backend addresses use TLS. *)
Definition one_plain_backend : SslInfo :=
  {| total := 1000; ssl_count := 999; all_ssl := false;
     non_ssl_names := ["http://10.0.0.7:8080"] |}.

(** Every tracked policy is in place, with [auth] for authentication. *)
Definition guarded_with (auth : string) : ApiConfig :=
  config_of
    [policy "PolicyIpWhite"; policy "PolicyApiBasedThrottling";
     policy "PolicyApiBasedQuota"; policy auth; policy "PolicyAllowedHours"]
    all_client_ssl one_plain_backend.

Definition basic_guarded : ApiConfig := guarded_with "PolicyBasicAuthentication".

Definition now0 : string := "2025-11-10T14:00:00".

Example basic_guarded_scores :
  map (fun p => Qred (snd p))
    (component_scores (calculate_api_score configured_weights now0 basic_guarded no_stats))
  = [100; 100; 100; 50; 100; 100; 100; 2499 # 25 (* 99.96 *); 100]%Q.
Proof. vm_compute. reflexivity. Qed.

(** C2 as stated fails: with the configured weights the weighted sum of
    this snapshot is 89.996, reported as 90.0, and the level is Good,
    where the level of a total of 90.0 is Excellent. *)
Lemma level_not_of_reported_total :
  let r := calculate_api_score configured_weights now0 basic_guarded no_stats in
  (total_score r == 90)%Q
  /\ security_level r = "Good"
  /\ _get_security_level (total_score r) = "Excellent"
  /\ security_level r <> _get_security_level (total_score r).
Proof. vm_compute. repeat split; discriminate. Qed.

(** Rounding to two decimals moves a total across a level boundary only
    by landing on it. *)
Lemma level_round2 (x : Q) :
  _get_security_level x = _get_security_level (round2 x)
  \/ ((round2 x == 90)%Q /\ _get_security_level x = "Good")
  \/ ((round2 x == 75)%Q /\ _get_security_level x = "Fair")
  \/ ((round2 x == 60)%Q /\ _get_security_level x = "Poor")
  \/ ((round2 x == 40)%Q /\ _get_security_level x = "Critical").
Proof.
  pose proof (round2_ge 90 x) as G90. pose proof (round2_le 90 x) as L90.
  pose proof (round2_ge 75 x) as G75. pose proof (round2_le 75 x) as L75.
  pose proof (round2_ge 60 x) as G60. pose proof (round2_le 60 x) as L60.
  pose proof (round2_ge 40 x) as G40. pose proof (round2_le 40 x) as L40.
  change (inject_Z 90) with 90%Q in *. change (inject_Z 75) with 75%Q in *.
  change (inject_Z 60) with 60%Q in *. change (inject_Z 40) with 40%Q in *.
  unfold _get_security_level.
  generalize dependent (round2 x). intros y G90 L90 G75 L75 G60 L60 G40 L40.
  destruct (Qgeb x 90) eqn:X90; [apply Qgeb_ge in X90 | apply Qgeb_lt, Qlt_le_weak in X90];
  destruct (Qgeb x 75) eqn:X75; [apply Qgeb_ge in X75 | apply Qgeb_lt, Qlt_le_weak in X75 | apply Qgeb_ge in X75 | apply Qgeb_lt, Qlt_le_weak in X75];
  try (exfalso; lra).
  all: destruct (Qgeb x 60) eqn:X60; [apply Qgeb_ge in X60 | apply Qgeb_lt, Qlt_le_weak in X60];
    try (exfalso; lra).
  all: destruct (Qgeb x 40) eqn:X40; [apply Qgeb_ge in X40 | apply Qgeb_lt, Qlt_le_weak in X40];
    try (exfalso; lra).
  all: repeat match goal with
         | H : ?P -> _, H' : ?P |- _ => specialize (H H')
         end.
  all: destruct (Qgeb y 90) eqn:Y90; [apply Qgeb_ge in Y90 | apply Qgeb_lt in Y90];
    destruct (Qgeb y 75) eqn:Y75; [apply Qgeb_ge in Y75 | apply Qgeb_lt in Y75 | apply Qgeb_ge in Y75 | apply Qgeb_lt in Y75];
    try (exfalso; lra).
  all: destruct (Qgeb y 60) eqn:Y60; [apply Qgeb_ge in Y60 | apply Qgeb_lt in Y60];
    try (exfalso; lra).
  all: destruct (Qgeb y 40) eqn:Y40; [apply Qgeb_ge in Y40 | apply Qgeb_lt in Y40];
    try (exfalso; lra).
  all: first
         [ left; reflexivity
         | right; left; split; [lra | reflexivity]
         | right; right; left; split; [lra | reflexivity]
         | right; right; right; left; split; [lra | reflexivity]
         | right; right; right; right; split; [lra | reflexivity] ].
Qed.

(** *** The weighted total *)

(** [self.weights.get(name, 0)] *)
Definition weight_of (weights : gmap string Q) (name : string) : Q :=
  default 0%Q (weights !! name).

(** [component_scores[name]] of a report. *)
Definition score_of (name : string) (r : ScoreReport) : Q :=
  default 0%Q (dict_get name (component_scores r)).

Definition Qsum (l : list Q) : Q := fold_right Qplus 0%Q l.

(** The sum over the nine component names of score times weight. *)
Definition weighted_sum (weights : gmap string Q) (r : ScoreReport) : Q :=
  Qsum (map (fun name => (score_of name r * weight_of weights name)%Q) component_names).

Lemma dict_get_cons {V} (k k' : string) (v : V) (d : list (string * V)) :
  dict_get k ((k', v) :: d) = if String.eqb k k' then Some v else dict_get k d.
Proof.
  simpl. destruct (String.eqb_spec k k'); case_decide; congruence.
Qed.

(** Looks a literal key up in a literal list of keys. *)
Ltac lookup_keys :=
  repeat match goal with
         | |- context [dict_get ?k ((?k', ?v) :: ?d)] =>
             rewrite (dict_get_cons k k' v d);
             let b := eval vm_compute in (String.eqb k k') in
             change (String.eqb k k') with b; cbv iota
         end.

Lemma weighted_total_sum weights now c t :
  let r := calculate_api_score weights now c t in
  (weighted_total weights (component_scores r) == weighted_sum weights r)%Q.
Proof.
  unfold weighted_sum, weighted_total, score_of, weight_of, Qsum.
  cbn [calculate_api_score component_scores components component_names map fst snd
       fold_left fold_right].
  lookup_keys. cbn [default from_option id]. unfold id. ring.
Qed.

(** C2, amended: the level is read off the weighted sum of the nine
    component scores before it is rounded, by the boundaries 90, 75, 60 and
    40, each included in the level above it; the reported total is that sum
    rounded to two decimals.  So a reported total strictly between two
    boundaries, above 90 or below 40 carries its own level, and a reported
    total of exactly 90, 75, 60 or 40 carries either its own level or the
    one just below. *)
Theorem level_of_unrounded_total (weights : gmap string Q) (now : string)
    (c : ApiConfig) (t : TrafficStats) :
  let r := calculate_api_score weights now c t in
  let x := weighted_sum weights r in
  let s := total_score r in
  (s == round2 x)%Q
  /\ (security_level r = "Excellent" <-> 90 <= x)%Q
  /\ (security_level r = "Good" <-> 75 <= x /\ x < 90)%Q
  /\ (security_level r = "Fair" <-> 60 <= x /\ x < 75)%Q
  /\ (security_level r = "Poor" <-> 40 <= x /\ x < 60)%Q
  /\ (security_level r = "Critical" <-> x < 40)%Q
  /\ (90 < s -> security_level r = "Excellent")%Q
  /\ (s == 90 -> security_level r = "Excellent" \/ security_level r = "Good")%Q
  /\ (75 < s /\ s < 90 -> security_level r = "Good")%Q
  /\ (s == 75 -> security_level r = "Good" \/ security_level r = "Fair")%Q
  /\ (60 < s /\ s < 75 -> security_level r = "Fair")%Q
  /\ (s == 60 -> security_level r = "Fair" \/ security_level r = "Poor")%Q
  /\ (40 < s /\ s < 60 -> security_level r = "Poor")%Q
  /\ (s == 40 -> security_level r = "Poor" \/ security_level r = "Critical")%Q
  /\ (s < 40 -> security_level r = "Critical")%Q.
Proof.
  intros r x s.
  pose proof (weighted_total_sum weights now c t) as E. cbv zeta in E. fold r in E. fold x in E.
  assert (Hs : s = round2 (weighted_total weights (component_scores r))) by reflexivity.
  assert (Hl : security_level r
               = _get_security_level (weighted_total weights (component_scores r)))
    by reflexivity.
  rewrite Hl, Hs. clearbody x. clear Hl Hs s.
  generalize dependent (weighted_total weights (component_scores r)). intros x0 E. clear r.
  pose proof (round2_ge 90 x0) as G90. pose proof (round2_le 90 x0) as L90.
  pose proof (round2_ge 75 x0) as G75. pose proof (round2_le 75 x0) as L75.
  pose proof (round2_ge 60 x0) as G60. pose proof (round2_le 60 x0) as L60.
  pose proof (round2_ge 40 x0) as G40. pose proof (round2_le 40 x0) as L40.
  change (inject_Z 90) with 90%Q in *. change (inject_Z 75) with 75%Q in *.
  change (inject_Z 60) with 60%Q in *. change (inject_Z 40) with 40%Q in *.
  split; [now rewrite E |].
  generalize dependent (round2 x0). intros y G90 L90 G75 L75 G60 L60 G40 L40.
  unfold _get_security_level.
  destruct (Qgeb x0 90) eqn:X90; [apply Qgeb_ge in X90 | apply Qgeb_lt in X90];
    [| destruct (Qgeb x0 75) eqn:X75; [apply Qgeb_ge in X75 | apply Qgeb_lt in X75];
       [| destruct (Qgeb x0 60) eqn:X60; [apply Qgeb_ge in X60 | apply Qgeb_lt in X60];
          [| destruct (Qgeb x0 40) eqn:X40; [apply Qgeb_ge in X40 | apply Qgeb_lt in X40]]]].
  all: repeat match goal with
         | |- _ /\ _ => split
         | |- _ <-> _ => split
         end; intros;
       repeat match goal with H : _ /\ _ |- _ => destruct H end;
       try discriminate; try reflexivity; try lra;
       try (left; reflexivity); try (right; reflexivity);
       exfalso; lra.
Qed.

Lemma Qsum_le {A} (f g : A -> Q) (l : list A) :
  (forall a, In a l -> (f a <= g a)%Q) -> (Qsum (map f l) <= Qsum (map g l))%Q.
Proof.
  induction l as [| a l IH]; intros H; simpl; [apply Qle_refl |].
  apply Qplus_le_compat; [apply H; now left | apply IH; intros; apply H; now right].
Qed.

Definition negative_weight : gmap string Q :=
  {[ "authentication_strength" := (-1)%Q ]}.

Definition oauth_guarded : ApiConfig := guarded_with "PolicyOauth2Authentication".

(** Settles [forall name, In name component_names -> name <> k -> ...] on
    concrete reports. *)
Ltac others_fixed :=
  let name := fresh "name" in
  let Hin := fresh "Hin" in
  let Hne := fresh "Hne" in
  intros name Hin Hne; simpl in Hin;
  repeat (destruct Hin as [<- | Hin];
          [first [exfalso; apply Hne; reflexivity | vm_compute; reflexivity] |]);
  destruct Hin.

(** C3 as stated fails twice.  The reported total is the weighted sum
    rounded to two decimals, not the sum: 90.0 for a sum of 89.996.  And
    with a negative weight the total goes down when the component goes up:
    under the weight -1 for authentication, raising that component from 50
    to 100 with the eight others unchanged takes the total from -50 to
    -100. *)
Lemma total_not_sum_nor_monotone :
  let r0 := calculate_api_score configured_weights now0 basic_guarded no_stats in
  let r := calculate_api_score negative_weight now0 basic_guarded no_stats in
  let r' := calculate_api_score negative_weight now0 oauth_guarded no_stats in
  ~ (total_score r0 == weighted_sum configured_weights r0)%Q
  /\ (weighted_sum configured_weights r0 == 89996 # 1000)%Q
  /\ (forall name, In name component_names -> name <> "authentication_strength" ->
      (score_of name r == score_of name r')%Q)
  /\ (score_of "authentication_strength" r <= score_of "authentication_strength" r')%Q
  /\ ~ (total_score r <= total_score r')%Q.
Proof.
  split; [| split; [| split; [| split]]].
  - intros H. vm_compute in H. discriminate.
  - vm_compute. reflexivity.
  - others_fixed.
  - vm_compute. discriminate.
  - intros H. vm_compute in H. exact (H eq_refl).
Qed.

(** C3, amended: the reported total is the sum over the nine component
    names of score times supplied weight (0 for a name without weight),
    rounded to two decimals; and between two reports under the same weights
    whose other eight component scores agree, the total does not decrease
    when the score of a component whose weight is not negative does not. *)
Theorem total_rounded_sum_monotone (weights : gmap string Q) (now : string)
    (c : ApiConfig) (t : TrafficStats) :
  let r := calculate_api_score weights now c t in
  (total_score r == round2 (weighted_sum weights r))%Q
  /\ forall (now' : string) (c' : ApiConfig) (t' : TrafficStats) (k : string),
       let r' := calculate_api_score weights now' c' t' in
       (0 <= weight_of weights k)%Q ->
       (forall name, In name component_names -> name <> k ->
                     (score_of name r == score_of name r')%Q) ->
       (score_of k r <= score_of k r')%Q ->
       (total_score r <= total_score r')%Q.
Proof.
  intros r.
  assert (Htot : forall now1 c1 t1,
             (total_score (calculate_api_score weights now1 c1 t1)
              == round2 (weighted_sum weights (calculate_api_score weights now1 c1 t1)))%Q).
  { intros now1 c1 t1.
    change (total_score (calculate_api_score weights now1 c1 t1))
      with (round2 (weighted_total weights
                      (component_scores (calculate_api_score weights now1 c1 t1)))).
    now rewrite weighted_total_sum. }
  split; [apply Htot |].
  intros now' c' t' k r' Hw Hothers Hk.
  subst r r'. rewrite !Htot. apply round2_mono. unfold weighted_sum.
  apply Qsum_le. intros name Hin.
  destruct (decide (name = k)) as [-> | Hne].
  - apply Qmult_le_compat_r; assumption.
  - rewrite (Hothers name Hin Hne). apply Qle_refl.
Qed.

Lemma total_rounded_sum_monotone_witness :
  let r := calculate_api_score configured_weights now0 basic_guarded no_stats in
  let r' := calculate_api_score configured_weights now0 oauth_guarded no_stats in
  (total_score r == round2 (weighted_sum configured_weights r))%Q
  /\ (total_score r <= total_score r')%Q.
Proof.
  pose proof (total_rounded_sum_monotone configured_weights now0 basic_guarded no_stats)
    as [Hsum Hmono].
  split; [exact Hsum |].
  apply (Hmono now0 oauth_guarded no_stats "authentication_strength").
  - vm_compute. discriminate.
  - others_fixed.
  - vm_compute. discriminate.
Defined.

(** *** Allowed hours *)

Definition in_business_hours (h : Z) : Prop := 8 <= h <= 18.

Lemma business_hours_elem (h : Z) : h ∈ business_hours <-> in_business_hours h.
Proof.
  unfold business_hours, in_business_hours.
  rewrite elem_of_list_to_set, elem_of_seqZ. lia.
Qed.

Lemma business_subset (l : list Z) :
  (list_to_set l : gset Z) ⊆ business_hours <-> Forall in_business_hours l.
Proof.
  rewrite Forall_forall. split.
  - intros Hsub h Hin. apply business_hours_elem, Hsub, elem_of_list_to_set, Hin.
  - intros Hall h Hin. apply elem_of_list_to_set in Hin.
    apply business_hours_elem. auto.
Qed.

Lemma set_of_nonempty (l : list Z) : l <> [] -> (list_to_set l : gset Z) <> ∅.
Proof.
  destruct l as [| h l]; [congruence |]. intros _ Hempty.
  assert (Hin : h ∈ (list_to_set (h :: l) : gset Z)) by (rewrite elem_of_list_to_set; left).
  rewrite Hempty in Hin. now apply not_elem_of_empty in Hin.
Qed.

Definition quiet_config : ApiConfig := config_of [] no_deployments no_deployments.

Definition stats_with (n : Z) (hours : list Z) : TrafficStats :=
  {| api_name := "orders"; total_requests := n; avg_requests_per_hour := 0;
     max_requests_per_hour := 0; max_requests_per_minute := 0;
     peak_hour := None; peak_hours := hours; unique_ips := 0; unique_users := 0;
     top_ips := []; top_users := []; avg_response_time_ms := 0;
     status_codes := []; error_count := 0; error_rate := 0; success_rate := 100;
     sensitive_data := None |}.

(** C4 as stated fails at exactly 100 requests: the peak hour 09:00 is
    within business hours and no allowed-hours policy is enabled, yet the
    score is 100 and nothing is recommended, where the claim gives 70 and
    one recommendation. *)
Lemma hundred_requests_not_enough :
  let t := stats_with 100 [9] in
  ~ enabled_present "PolicyAllowedHours" quiet_config
  /\ 100 <= total_requests t
  /\ peak_hours t <> []
  /\ Forall in_business_hours (peak_hours t)
  /\ _score_allowed_hours quiet_config t = (100%Q, [])
  /\ fst (_score_allowed_hours quiet_config t) <> 70%Q.
Proof.
  split; [| split; [| split; [| split; [| split]]]].
  - intros (p & Hin & _). destruct Hin.
  - simpl. lia.
  - discriminate.
  - repeat constructor; unfold in_business_hours; lia.
  - reflexivity.
  - discriminate.
Qed.

(** C4, amended: with an enabled allowed-hours policy the score is 100
    with no recommendation.  Without one it is 100 with no recommendation
    unless there are more than 100 requests and peak hours are known; then
    70 with one low recommendation if every peak hour is within 08:00 to
    18:59, else 75 with one low recommendation if at most 8 peak hours are
    listed, else 100 with none. *)
Theorem allowed_hours_cases (c : ApiConfig) (t : TrafficStats) :
  let r := _score_allowed_hours c t in
  (enabled_present "PolicyAllowedHours" c -> r = (100%Q, []))
  /\ (~ enabled_present "PolicyAllowedHours" c ->
      (total_requests t <= 100 \/ peak_hours t = [] -> r = (100%Q, []))
      /\ (100 < total_requests t -> peak_hours t <> [] ->
          (Forall in_business_hours (peak_hours t) ->
           fst r = 70%Q /\ map severity (snd r) = ["low"]
           /\ map category (snd r) = ["allowed_hours"])
          /\ (~ Forall in_business_hours (peak_hours t) ->
              (length (peak_hours t) <= 8)%nat ->
              fst r = 75%Q /\ map severity (snd r) = ["low"]
              /\ map category (snd r) = ["allowed_hours"])
          /\ (~ Forall in_business_hours (peak_hours t) ->
              (8 < length (peak_hours t))%nat ->
              r = (100%Q, [])))).
Proof.
  intros r. subst r. unfold _score_allowed_hours.
  fold (has_enabled "PolicyAllowedHours" (all_policies c)).
  pose proof (has_enabled_present "PolicyAllowedHours" c) as Hp.
  destruct (has_enabled "PolicyAllowedHours" (all_policies c)).
  { split; [reflexivity |]. intros Hn. exfalso. apply Hn, Hp. reflexivity. }
  split; [intros He; apply Hp in He; discriminate |]. intros _.
  destruct (100 <? total_requests t) eqn:Htot;
    [apply Z.ltb_lt in Htot | apply Z.ltb_ge in Htot].
  2: { split; [reflexivity |]. intros; lia. }
  destruct (peak_hours t) as [| h l] eqn:Hpk.
  { split; [reflexivity |]. intros _ Hne. now contradiction Hne. }
  rewrite <- Hpk. cbn [andb negb].
  rewrite (bool_decide_eq_false_2 (peak_hours t = [])) by (rewrite Hpk; discriminate).
  cbn [andb negb].
  rewrite (bool_decide_eq_false_2 (list_to_set (peak_hours t) = (∅ : gset Z)))
    by (apply set_of_nonempty; rewrite Hpk; discriminate).
  cbn [andb negb].
  split; [intros [Hle | Hnil]; [lia | rewrite Hpk in Hnil; discriminate] |].
  intros _ _.
  destruct (decide (Forall in_business_hours (peak_hours t))) as [Hall | Hall].
  - rewrite bool_decide_eq_true_2 by (now apply business_subset).
    split; [intros _; repeat split | split; intros Hn; now contradiction Hn].
  - rewrite bool_decide_eq_false_2 by (now rewrite business_subset).
    split; [intros Hy; now contradiction Hall |].
    destruct (Z.of_nat (length (peak_hours t)) <=? 8) eqn:Hlen;
      [apply Z.leb_le in Hlen | apply Z.leb_gt in Hlen].
    + split; [intros _ _; repeat split | intros _ Hgt; lia].
    + split; [intros _ Hle; lia | intros _ _; reflexivity].
Qed.

Lemma allowed_hours_cases_witness :
  let r := _score_allowed_hours quiet_config (stats_with 101 [9; 10]) in
  fst r = 70%Q /\ map severity (snd r) = ["low"]
  /\ map category (snd r) = ["allowed_hours"].
Proof.
  pose proof (allowed_hours_cases quiet_config (stats_with 101 [9; 10])) as [_ H].
  destruct H as [_ H].
  - intros (p & Hin & _). destruct Hin.
  - destruct H as [H _].
    + simpl. lia.
    + discriminate.
    + apply H. repeat constructor; unfold in_business_hours; lia.
Defined.

(** *** The scorers on the cases the specification lists *)

Example ip_whitelist_present :
  _score_ip_whitelist
    (config_of [policy "PolicyIpWhite"] no_deployments no_deployments)
    (stats_with 0 [])
  = (100%Q, []).
Proof. reflexivity. Qed.

Example spike_of_twelve :
  _score_traffic_anomaly
    {| api_name := "orders"; total_requests := 1680; avg_requests_per_hour := 10;
       max_requests_per_hour := 120; max_requests_per_minute := 3;
       peak_hour := None; peak_hours := []; unique_ips := 0; unique_users := 0;
       top_ips := []; top_users := []; avg_response_time_ms := 0;
       status_codes := []; error_count := 0; error_rate := 0; success_rate := 100;
       sensitive_data := None |}
  = ((50 # 1)%Q,
     [rec "high" "anomaly"
        "Severe traffic spike detected (12.0x average). Possible attack or misconfiguration."
        "Investigate traffic patterns and consider adding rate limiting"]).
Proof. vm_compute. reflexivity. Qed.

Example password_in_sixty_percent :
  let exposure :=
    Exposure None 100
      [("password",
        {| kw_count := 60; kw_percentage := 60; kw_in_headers := 0; kw_in_body := 60;
           kw_exists := true |})]
      true in
  let r := _score_logging quiet_config (with_sensitive_data no_stats exposure) in
  fst r = 20%Q /\ map severity (snd r) = ["critical"]
  /\ map message (snd r)
     = ["Sensitive data detected in logs: password (60.0%). Checked 100 logs."].
Proof. vm_compute. repeat split. Qed.

Example business_hours_advice :
  _score_allowed_hours quiet_config (stats_with 150 [14; 9])
  = (70%Q,
     [rec "low" "allowed_hours"
        "API traffic is concentrated in business hours (peak: 09:00, 14:00). Consider restricting access to business hours only."
        "Add PolicyAllowedHours to restrict access to 09:00-15:00"]).
Proof. vm_compute. reflexivity. Qed.

Example night_hours_advice :
  _score_allowed_hours quiet_config (stats_with 150 [23; 2])
  = (75%Q,
     [rec "low" "allowed_hours"
        "API traffic is concentrated in specific hours (peak: 02:00, 23:00). Consider time-based access restriction."
        "Add PolicyAllowedHours to restrict access to 02:00-24:00"]).
Proof. vm_compute. reflexivity. Qed.

End ScorerFacts.

(** ** Properties of the traffic analysis *)

Module AnalyzerFacts.
Import Py PyFacts ElasticsearchAnalyzer.

(** *** Dictionaries *)

Section DictFacts.
Context {K V : Type} `{EqDecision K}.
Implicit Types (k : K) (v : V) (d : list (K * V)).

Lemma dict_get_set_eq k v d : dict_get k (dict_set k v d) = Some v.
Proof.
  induction d as [| [k' v'] d IH]; simpl.
  - now rewrite decide_True.
  - destruct (decide (k = k')) as [E | E]; simpl.
    + now rewrite decide_True.
    + now rewrite decide_False.
Qed.

Lemma dict_get_set_ne k k' v d : k <> k' -> dict_get k (dict_set k' v d) = dict_get k d.
Proof.
  intros Hne. induction d as [| [k2 v2] d IH]; simpl.
  - now rewrite decide_False.
  - destruct (decide (k' = k2)) as [E | E]; simpl.
    + subst k2. now rewrite !decide_False.
    + destruct (decide (k = k2)); [reflexivity | exact IH].
Qed.

Lemma dict_get_set_is_Some k k' v d :
  is_Some (dict_get k d) -> is_Some (dict_get k (dict_set k' v d)).
Proof.
  intros Hs. destruct (decide (k = k')) as [-> | Hne].
  - rewrite dict_get_set_eq. eauto.
  - now rewrite dict_get_set_ne.
Qed.

(** The keys after an assignment: the same, or one more at the end. *)
Lemma dict_keys_set k v d :
  dict_keys (dict_set k v d)
  = if bool_decide (k ∈ dict_keys d) then dict_keys d else (dict_keys d ++ [k])%list.
Proof.
  unfold dict_keys. induction d as [| [k' v'] d IH].
  - reflexivity.
  - cbn [dict_set map fst]. destruct (decide (k = k')) as [E | E].
    + subst k'. rewrite bool_decide_eq_true_2; [reflexivity | left].
    + cbn [map fst]. rewrite IH.
      destruct (bool_decide_reflect (k ∈ map fst d)) as [Hin | Hin].
      * rewrite bool_decide_eq_true_2; [reflexivity | now right].
      * rewrite bool_decide_eq_false_2; [reflexivity |].
        intros Hin'. apply elem_of_cons in Hin' as [E' | Hin']; congruence.
Qed.

Lemma dict_keys_set_NoDup k v d : NoDup (dict_keys d) -> NoDup (dict_keys (dict_set k v d)).
Proof.
  intros Hnd. rewrite dict_keys_set.
  destruct (bool_decide_reflect (k ∈ dict_keys d)) as [Hin | Hin]; [exact Hnd |].
  apply NoDup_app. split; [exact Hnd |]. split.
  - intros x Hx Hx'. apply list_elem_of_singleton in Hx'. now subst.
  - apply NoDup_singleton.
Qed.

(** A loop of assignments [d[key(b)] = f(b)]. *)
Definition assign_all {B} (key : B -> K) (f : B -> V) (l : list B) d :=
  fold_left (fun d b => dict_set (key b) (f b) d) l d.

Lemma assign_all_keeps {B} (key : B -> K) (f : B -> V) (l : list B) d k :
  is_Some (dict_get k d) -> is_Some (dict_get k (assign_all key f l d)).
Proof.
  revert d. induction l as [| a l IH]; intros d Hs; simpl; [exact Hs |].
  apply IH. now apply dict_get_set_is_Some.
Qed.

Lemma assign_all_in {B} (key : B -> K) (f : B -> V) (l : list B) d b :
  In b l -> is_Some (dict_get (key b) (assign_all key f l d)).
Proof.
  revert d. induction l as [| a l IH]; intros d Hin; simpl; [destruct Hin |].
  destruct Hin as [-> | Hin]; [| now apply IH].
  apply assign_all_keeps. rewrite dict_get_set_eq. eauto.
Qed.



End DictFacts.

(** *** Concrete buckets *)

Definition hour_bucket (timestamp : string) (n : Z) : HourBucket :=
  {| key_as_string := Some timestamp; hour_doc_count := n |}.

Definition bucket_of (id : string) (n : Z) (hours : list HourBucket) : ApiBucket :=
  {| key := id; doc_count := n; api_name_buckets := ["Orders"]; by_hour := hours;
     unique_ips_value := 0; unique_users_value := 0;
     top_ips_buckets := []; top_users_buckets := [];
     avg_response_time_value := None; status_codes_buckets := [];
     error_count_doc_count := 0 |}.

(** One hour, in microseconds. *)
Definition hour_us : Z := 3600000000.

(** *** The hourly maximum and the hourly average *)

Definition Zsum (l : list Z) : Z := fold_right Z.add 0 l.

Lemma fold_max_ge (l : list Z) (acc : Z) :
  let m := fold_left (fun m y => if m <? y then y else m) l acc in
  acc <= m /\ forall y, In y l -> y <= m.
Proof.
  revert acc. induction l as [| x l IH]; intros acc; simpl.
  - split; [lia | intros y []].
  - destruct (IH (if acc <? x then x else acc)) as [Hacc Hall].
    destruct (Z.ltb_spec acc x); split; try lia;
      intros y [<- | Hy]; try lia; now apply Hall.
Qed.

Lemma max_list_ge (l : list Z) (y : Z) : In y l -> y <= default 0 (max_list l).
Proof.
  destruct l as [| x l]; [intros [] |]. simpl.
  destruct (fold_max_ge l x) as [Hx Hall]. intros [<- | Hy]; [exact Hx | now apply Hall].
Qed.

Lemma Zsum_le_max (l : list Z) :
  Zsum l <= Z.of_nat (length l) * default 0 (max_list l).
Proof.
  pose proof (max_list_ge l) as Hge. generalize dependent (default 0 (max_list l)).
  intros m Hge. induction l as [| x l IH]; simpl; [lia |].
  assert (x <= m) by (apply Hge; now left).
  assert (Zsum l <= Z.of_nat (length l) * m) by (apply IH; intros; apply Hge; now right).
  lia.
Qed.

Lemma at_least_one_ge (x : Q) : (1 <= at_least_one x)%Q.
Proof.
  unfold at_least_one. destruct (Qltb x 1) eqn:E; [apply Qle_refl |].
  now apply Qltb_ge in E.
Qed.

(** The range of the query, in hours, floored at one. *)
Definition hours_diff (start_date end_date : datetime) : Q :=
  at_least_one (total_seconds start_date end_date / 3600)%Q.

(** C5 as stated fails on a forward range: over the hour from 10:30 to
    11:30 the histogram has two buckets of 5 requests, the average is
    10/1 = 10 and the maximum 5. *)
Lemma two_half_hours_below_average :
  let b := bucket_of "orders" 10
             [hour_bucket "2025-11-10T10:00:00.000Z" 5;
              hour_bucket "2025-11-10T11:00:00.000Z" 5] in
  let s := parse_bucket (21 * hour_us / 2) (23 * hour_us / 2) b in
  0 < total_requests s
  /\ (avg_requests_per_hour s == 10)%Q
  /\ max_requests_per_hour s = 5
  /\ ~ (avg_requests_per_hour s <= inject_Z (max_requests_per_hour s))%Q.
Proof.
  split; [| split; [| split]].
  - reflexivity.
  - vm_compute. reflexivity.
  - reflexivity.
  - intros H. vm_compute in H. exact (H eq_refl).
Qed.

(** C5, amended: for a bucket with requests whose hourly counts add up to
    its document count and whose histogram has no more buckets than the
    range has hours (the floor of one hour included), the hourly maximum
    is at least the hourly average of the record. *)
Theorem max_at_least_avg (start_date end_date : datetime) (b : ApiBucket) :
  0 < doc_count b ->
  Zsum (map hour_doc_count (by_hour b)) = doc_count b ->
  (inject_Z (Z.of_nat (length (by_hour b))) <= hours_diff start_date end_date)%Q ->
  let s := parse_bucket start_date end_date b in
  (avg_requests_per_hour s <= inject_Z (max_requests_per_hour s))%Q.
Proof.
  intros Hpos Hsum Hlen s. subst s. cbn [parse_bucket avg_requests_per_hour max_requests_per_hour].
  fold (hours_diff start_date end_date).
  pose proof (Zsum_le_max (map hour_doc_count (by_hour b))) as Hmax.
  rewrite length_map, Hsum in Hmax.
  set (m := default 0 (max_list (map hour_doc_count (by_hour b)))) in *.
  set (n := Z.of_nat (length (by_hour b))) in *.
  pose proof (at_least_one_ge (total_seconds start_date end_date / 3600)) as Hone.
  fold (hours_diff start_date end_date) in Hone.
  set (hd := hours_diff start_date end_date) in *.
  assert (Hn : 0 <= n) by (subst n; lia).
  assert (Hm : 0 <= m) by nia.
  apply round2_le. apply Qle_shift_div_r; [lra |].
  apply Qle_trans with (inject_Z (n * m)).
  - rewrite <- Zle_Qle. exact Hmax.
  - rewrite inject_Z_mult, (Qmult_comm (inject_Z m) hd).
    apply Qmult_le_compat_r; [exact Hlen |].
    change 0%Q with (inject_Z 0). rewrite <- Zle_Qle. exact Hm.
Qed.

Lemma max_at_least_avg_witness :
  let b := bucket_of "orders" 10
             [hour_bucket "2025-11-10T10:00:00.000Z" 4;
              hour_bucket "2025-11-10T11:00:00.000Z" 6] in
  let s := parse_bucket (10 * hour_us) (12 * hour_us) b in
  (avg_requests_per_hour s <= inject_Z (max_requests_per_hour s))%Q.
Proof.
  apply max_at_least_avg.
  - reflexivity.
  - reflexivity.
  - vm_compute. discriminate.
Defined.

(** *** Buckets without documents *)

Lemma parse_as_assign (api_buckets : list ApiBucket) (start_date end_date : datetime) :
  _parse_traffic_stats api_buckets start_date end_date
  = assign_all key (parse_bucket start_date end_date) api_buckets [].
Proof. reflexivity. Qed.




(** *** Reversed ranges *)

(** C9 as stated fails: over a range that ends two hours before it starts
    the aggregation returns statistics for the API, its 10 requests
    averaged over the floor of one hour. *)
Lemma reversed_range_yields_statistics :
  let b := bucket_of "orders" 10 [hour_bucket "2025-11-10T10:00:00.000Z" 10] in
  let start_date := 12 * hour_us in
  let end_date := 10 * hour_us in
  end_date < start_date
  /\ exists s,
       get_traffic_stats (Response 200 (inl [b])) start_date end_date = [("orders", s)]
       /\ total_requests s = 10
       /\ (avg_requests_per_hour s == 10)%Q.
Proof.
  split; [reflexivity |]. eexists. split; [reflexivity |].
  split; [reflexivity | vm_compute; reflexivity].
Qed.

(** C9, amended: a range whose end precedes its start raises nothing; its
    length in hours is floored to one, so the statistics are those of an
    empty range at the start date: every bucket yields a record, with
    avg_requests_per_hour equal to its document count. *)
Theorem reversed_range_floored (api_buckets : list ApiBucket)
    (start_date end_date : datetime) :
  end_date < start_date ->
  _parse_traffic_stats api_buckets start_date end_date
  = _parse_traffic_stats api_buckets start_date start_date
  /\ forall b, In b api_buckets ->
       is_Some (dict_get (key b) (_parse_traffic_stats api_buckets start_date end_date))
       /\ (avg_requests_per_hour (parse_bucket start_date end_date b)
           == inject_Z (doc_count b))%Q.
Proof.
  intros Hrev.
  assert (Hfloor : forall e, e <= start_date ->
             at_least_one (total_seconds start_date e / 3600) = 1%Q).
  { intros e He. unfold at_least_one.
    rewrite (proj2 (Qltb_lt _ _)); [reflexivity |].
    unfold total_seconds.
    assert (Hd : (inject_Z (e - start_date) <= 0)%Q).
    { change 0%Q with (inject_Z 0). rewrite <- Zle_Qle. lia. }
    set (x := inject_Z (e - start_date)) in *.
    apply Qlt_shift_div_r; [reflexivity |]. apply Qlt_shift_div_r; [reflexivity |]. lra. }
  assert (Hsame : forall b, parse_bucket start_date end_date b
                            = parse_bucket start_date start_date b).
  { intros b. unfold parse_bucket. rewrite !Hfloor by lia. reflexivity. }
  split.
  - rewrite !parse_as_assign. generalize ([] : list (string * TrafficStats)).
    induction api_buckets as [| a l IH]; intros d; simpl; [reflexivity |].
    rewrite Hsame. apply IH.
  - intros b Hin. split.
    + rewrite parse_as_assign. now apply assign_all_in.
    + cbn [parse_bucket avg_requests_per_hour]. rewrite Hfloor by lia.
      assert (E : (inject_Z (doc_count b) / 1 == inject_Z (doc_count b))%Q) by field.
      rewrite E. apply round2_int.
Qed.

Lemma reversed_range_floored_witness :
  let l := [bucket_of "orders" 10 [hour_bucket "2025-11-10T10:00:00.000Z" 10]] in
  _parse_traffic_stats l (12 * hour_us) (10 * hour_us)
  = _parse_traffic_stats l (12 * hour_us) (12 * hour_us).
Proof.
  apply (reversed_range_floored
           [bucket_of "orders" 10 [hour_bucket "2025-11-10T10:00:00.000Z" 10]]
           (12 * hour_us) (10 * hour_us)).
  reflexivity.
Defined.

(** *** Peak hours *)

Lemma add_hour_NoDup (d : list (Z * Z)) (hb : HourBucket) :
  NoDup (dict_keys d) -> NoDup (dict_keys (add_hour d hb)).
Proof.
  intros Hnd. unfold add_hour. case_bool_decide; [exact Hnd |].
  destruct (hour_of _); [now apply dict_keys_set_NoDup | exact Hnd].
Qed.

Lemma hourly_distribution_NoDup (hourly_buckets : list HourBucket) :
  NoDup (dict_keys (hourly_distribution hourly_buckets)).
Proof.
  unfold hourly_distribution.
  assert (H : forall l d, NoDup (dict_keys d) -> NoDup (dict_keys (fold_left add_hour l d))).
  { induction l as [| hb l IH]; intros d Hnd; simpl; [exact Hnd |].
    now apply IH, add_hour_NoDup. }
  apply H. constructor.
Qed.

(** X2: for every API bucket, whatever its timestamps: the peak hours are
    ascending and distinct, as many as the distribution has hours up to
    five, and no hour of the distribution left out has a higher count than
    one that is listed. *)
Lemma peak_hours_selected (start_date end_date : datetime) (b : ApiBucket) :
  let d := hourly_distribution (by_hour b) in
  let hs := peak_hours (parse_bucket start_date end_date b) in
  StronglySorted Z.le hs
  /\ NoDup hs
  /\ length hs = Nat.min 5 (length d)
  /\ forall h, h ∈ hs ->
       exists n, (h, n) ∈ d
                 /\ forall h' n', (h', n') ∈ d -> h' ∉ hs -> n' <= n.
Proof.
  intros d hs. subst hs. cbn [parse_bucket peak_hours]. fold d. unfold top_hours.
  set (L := sorted_by_key_reverse snd d).
  assert (HL : L ≡ₚ d) by apply sorted_by_perm.
  assert (Hsorted : StronglySorted (fun a b : Z * Z => snd b <= snd a) (take 5 L ++ drop 5 L)).
  { rewrite take_drop. apply sorted_by_key_reverse_descending. }
  assert (Hperm : sorted (map fst (take 5 L)) ≡ₚ map fst (take 5 L)) by apply sorted_by_perm.
  split; [apply sorted_ascending |]. split; [| split].
  - rewrite Hperm, <- firstn_map. apply sublist_NoDup with (map fst L).
    + rewrite HL. apply hourly_distribution_NoDup.
    + apply sublist_take.
  - unfold sorted. rewrite sorted_by_length, length_map, length_take.
    now rewrite (Permutation_length HL).
  - intros h Hh. rewrite Hperm in Hh.
    apply list_elem_of_In, in_map_iff in Hh as ([h0 n] & Heq & Hin). simpl in Heq. subst h0.
    apply list_elem_of_In in Hin.
    exists n. split.
    + rewrite <- HL, <- (take_drop 5 L). apply elem_of_app. now left.
    + intros h' n' Hin' Hout. rewrite <- HL, <- (take_drop 5 L) in Hin'.
      apply elem_of_app in Hin' as [Hin' | Hin'].
      * exfalso. apply Hout. rewrite Hperm.
        apply list_elem_of_In, in_map_iff. exists (h', n'). split; [reflexivity |].
        now apply list_elem_of_In.
      * apply (StronglySorted_app_1_elem_of _ _ _ _ _ Hsorted Hin Hin').
Qed.

Example hour_of_iso : hour_of "2025-11-10T14:00:00.000Z" = Some 14.
Proof. reflexivity. Qed.
Example hour_of_spaced : hour_of "2025-11-10 07:00:00" = Some 7.
Proof. reflexivity. Qed.
Example hour_of_no_time : hour_of "2025-11-10" = None.
Proof. reflexivity. Qed.
Example hour_of_letters : hour_of "2025-11-10Tnoon:00" = None.
Proof. reflexivity. Qed.

(** Six hours of the day; the five busiest are kept, in ascending order. *)
Example peak_hours_top_five :
  peak_hours
    (parse_bucket 0 (24 * hour_us)
       (bucket_of "orders" 77
          [hour_bucket "2025-11-10T09:00:00.000Z" 10;
           hour_bucket "2025-11-10T23:00:00.000Z" 30;
           hour_bucket "2025-11-10T03:00:00.000Z" 1;
           hour_bucket "2025-11-10T12:00:00.000Z" 20;
           hour_bucket "2025-11-10T17:00:00.000Z" 5;
           hour_bucket "2025-11-10T08:00:00.000Z" 11]))
  = [8; 9; 12; 17; 23].
Proof. reflexivity. Qed.

(** C10, at a histogram bucket whose timestamp carries 99 where the hour
    belongs: the text is not skipped, and the record lists 99 among its
    peak hours, outside the range 0 to 23. *)
Theorem peak_hour_out_of_range :
  let b := bucket_of "orders" 5 [hour_bucket "2025-11-10T99:00:00.000Z" 5] in
  let s := parse_bucket 0 hour_us b in
  dict_get "orders" (_parse_traffic_stats [b] 0 hour_us) = Some s
  /\ peak_hours s = [99]
  /\ ~ Forall (fun h => 0 <= h <= 23) (peak_hours s).
Proof.
  split; [reflexivity | split; [reflexivity |]].
  intros H. vm_compute in H. inversion H as [| ? ? [_ Hh] _]. exact (Hh eq_refl).
Qed.

(** *** Sensitive fields: keyword lists without repetition *)

Definition zero_counts : KeywordCounts := {| count := 0; in_headers := 0; in_body := 0 |}.

(** The counters of one keyword after one more log. *)
Definition bump (fcrh_l fcrb_l keyword : string) (c : KeywordCounts) : KeywordCounts :=
  let found_in_headers := contains keyword fcrh_l in
  let found_in_body := contains keyword fcrb_l in
  if found_in_headers || found_in_body then
    {| count := count c + 1;
       in_headers := if found_in_headers then in_headers c + 1 else in_headers c;
       in_body := if found_in_body then in_body c + 1 else in_body c |}
  else c.

(** The dictionary that holds [c k] for every keyword [k], in order. *)
Definition table {V} (keywords : list string) (c : string -> V) : list (string * V) :=
  map (fun k => (k, c k)) keywords.

Lemma table_ext {V} (keywords : list string) (c c' : string -> V) :
  (forall k, In k keywords -> c k = c' k) -> table keywords c = table keywords c'.
Proof. intros H. apply map_ext_in. intros k Hk. now rewrite H. Qed.

Lemma dict_get_table {V} (keywords : list string) (c : string -> V) (k : string) :
  dict_get k (table keywords c) = if decide (k ∈ keywords) then Some (c k) else None.
Proof.
  induction keywords as [| a l IH]; cbn [table map dict_get].
  - rewrite decide_False; [reflexivity | apply not_elem_of_nil].
  - destruct (decide (k = a)) as [-> | Hne].
    + rewrite decide_True; [reflexivity | left].
    + fold (table l c). rewrite IH. destruct (decide (k ∈ l)) as [Hin | Hin].
      * rewrite decide_True; [reflexivity | now right].
      * rewrite decide_False; [reflexivity |].
        intros Hin'. apply elem_of_cons in Hin' as [E | Hin']; congruence.
Qed.

Lemma dict_set_table {V} (keywords : list string) (c : string -> V) (k : string) (v : V) :
  List.NoDup keywords -> In k keywords ->
  dict_set k v (table keywords c)
  = table keywords (fun k' => if decide (k' = k) then v else c k').
Proof.
  induction keywords as [| a l IH]; intros Hnd Hin; [destruct Hin |].
  inversion Hnd as [| ? ? Hni Hnd']; subst. simpl.
  destruct (decide (k = a)) as [-> | Hne].
  - rewrite decide_True by reflexivity. f_equal.
    apply table_ext. intros k' Hk'. rewrite decide_False; [reflexivity | congruence].
  - rewrite decide_False by congruence. f_equal.
    destruct Hin as [E | Hin]; [congruence |]. now apply IH.
Qed.

Lemma dict_set_fresh {V} (d : list (string * V)) (k : string) (v : V) :
  ~ In k (dict_keys d) -> dict_set k v d = (d ++ [(k, v)])%list.
Proof.
  induction d as [| [k' v'] d IH]; intros Hni; simpl; [reflexivity |].
  simpl in Hni. rewrite decide_False by (intros E; apply Hni; now left).
  f_equal. apply IH. tauto.
Qed.

Lemma initial_counts_table (keywords : list string) :
  List.NoDup keywords -> initial_counts keywords = table keywords (fun _ => zero_counts).
Proof.
  intros Hnd. unfold initial_counts. fold zero_counts.
  assert (H : forall l d, List.NoDup (dict_keys d ++ l) ->
              fold_left (fun d k => dict_set k zero_counts d) l d
              = (d ++ table l (fun _ => zero_counts))%list).
  { induction l as [| a l IH]; intros d Hd; simpl; [now rewrite app_nil_r |].
    assert (Hfresh : ~ In a (dict_keys d)).
    { intros Hin. apply NoDup_remove_2 in Hd. apply Hd, in_or_app. now left. }
    rewrite IH.
    - rewrite (dict_set_fresh d a zero_counts Hfresh), <- app_assoc. reflexivity.
    - rewrite (dict_set_fresh d a zero_counts Hfresh).
      unfold dict_keys. rewrite map_app, <- app_assoc. exact Hd. }
  apply (H keywords []). exact Hnd.
Qed.

Lemma count_keyword_table (fcrh_l fcrb_l : string) (keywords : list string)
    (c : string -> KeywordCounts) (k : string) :
  List.NoDup keywords -> In k keywords ->
  count_keyword fcrh_l fcrb_l (table keywords c) k
  = table keywords (fun k' => if decide (k' = k) then bump fcrh_l fcrb_l k (c k) else c k').
Proof.
  intros Hnd Hin. unfold count_keyword.
  rewrite dict_get_table, decide_True by (now apply list_elem_of_In).
  unfold bump. destruct (contains k fcrh_l || contains k fcrb_l).
  - now apply dict_set_table.
  - apply table_ext. intros k' _. destruct (decide (k' = k)); congruence.
Qed.

Lemma count_all_table (fcrh_l fcrb_l : string) (keywords : list string) :
  List.NoDup keywords ->
  forall (l : list string) (c : string -> KeywordCounts),
    List.NoDup l -> (forall k, In k l -> In k keywords) ->
    fold_left (count_keyword fcrh_l fcrb_l) l (table keywords c)
    = table keywords
        (fun k => if decide (k ∈ l) then bump fcrh_l fcrb_l k (c k) else c k).
Proof.
  intros Hnd. induction l as [| a l IH]; intros c Hl Hsub; cbn [fold_left].
  - apply table_ext. intros k _. rewrite decide_False; [reflexivity | apply not_elem_of_nil].
  - inversion Hl as [| ? ? Hni Hl']; subst.
    rewrite count_keyword_table by (auto; apply Hsub; now left).
    rewrite IH by (auto; intros; apply Hsub; now right).
    apply table_ext. intros k _.
    destruct (decide (k = a)) as [-> | Hne].
    + rewrite decide_False by (now rewrite list_elem_of_In).
      rewrite decide_True; [reflexivity | left].
    + destruct (decide (k ∈ l)) as [Hin | Hin].
      * rewrite decide_True; [reflexivity | now right].
      * rewrite decide_False; [reflexivity |].
        intros Hin'. apply elem_of_cons in Hin' as [E | Hin']; congruence.
Qed.

Lemma count_hit_table (keywords : list string) (c : string -> KeywordCounts) (hit : Hit) :
  List.NoDup keywords ->
  count_hit keywords (table keywords c) hit
  = table keywords (fun k => bump (lower (fcrh hit)) (lower (fcrb hit)) k (c k)).
Proof.
  intros Hnd. unfold count_hit. rewrite count_all_table by auto.
  apply table_ext. intros k Hk. rewrite decide_True; [reflexivity | now apply list_elem_of_In].
Qed.

(** The counters of keyword [k] over the hits, from [c]. *)
Definition counted (k : string) (hits : list Hit) (c : KeywordCounts) : KeywordCounts :=
  fold_left (fun c hit => bump (lower (fcrh hit)) (lower (fcrb hit)) k c) hits c.

Lemma tally_table (keywords : list string) (hits : list Hit) :
  List.NoDup keywords ->
  tally keywords hits = table keywords (fun k => counted k hits zero_counts).
Proof.
  intros Hnd. unfold tally. rewrite initial_counts_table by exact Hnd.
  assert (H : forall c, fold_left (count_hit keywords) hits (table keywords c)
                        = table keywords (fun k => counted k hits (c k))).
  { induction hits as [| hit hits IH]; intros c; simpl; [reflexivity |].
    rewrite count_hit_table by exact Hnd. rewrite IH. reflexivity. }
  apply H.
Qed.

(** The number of hits that satisfy [p]. *)
Definition count_if (p : Hit -> bool) (hits : list Hit) : Z :=
  Z.of_nat (length (List.filter p hits)).

Definition in_headers_of (k : string) (hit : Hit) : bool := contains k (lower (fcrh hit)).
Definition in_body_of (k : string) (hit : Hit) : bool := contains k (lower (fcrb hit)).

Lemma counted_spec (k : string) (hits : list Hit) (c : KeywordCounts) :
  counted k hits c
  = {| count := count c + count_if (fun h => in_headers_of k h || in_body_of k h) hits;
       in_headers := in_headers c + count_if (in_headers_of k) hits;
       in_body := in_body c + count_if (in_body_of k) hits |}.
Proof.
  unfold counted, count_if. revert c.
  induction hits as [| hit hits IH]; intros [n nh nb]; simpl.
  - f_equal; lia.
  - rewrite IH. unfold bump, in_headers_of, in_body_of.
    destruct (contains k (lower (fcrh hit))); destruct (contains k (lower (fcrb hit)));
      simpl; f_equal; lia.
Qed.

(** The entry of the result for counters [c]. *)
Definition info_of (total_logs : Z) (c : KeywordCounts) : KeywordInfo :=
  {| kw_count := count c;
     kw_percentage := round2 (percentage_of (count c) total_logs);
     kw_in_headers := in_headers c;
     kw_in_body := in_body c;
     kw_exists := true |}.

Lemma keyword_percentages_table (total_logs : Z) (keywords : list string)
    (c : string -> KeywordCounts) (k : string) :
  dict_get k (keyword_percentages total_logs (table keywords c))
  = if decide (k ∈ keywords /\ 0 < count (c k)) then Some (info_of total_logs (c k)) else None.
Proof.
  unfold keyword_percentages.
  induction keywords as [| a l IH]; cbn [table map omap list_omap].
  - rewrite decide_False; [reflexivity |]. intros [Hin _]. now apply not_elem_of_nil in Hin.
  - fold (table l c). destruct (Z.ltb_spec 0 (count (c a))) as [Hpos | Hpos].
    + cbn [dict_get]. destruct (decide (k = a)) as [-> | Hne].
      * rewrite decide_True; [reflexivity | split; [left | exact Hpos]].
      * rewrite IH. destruct (decide (k ∈ l /\ 0 < count (c k))) as [[Hin Hk] | Hn].
        -- rewrite decide_True; [reflexivity | split; [now right | exact Hk]].
        -- rewrite decide_False; [reflexivity |]. intros [Hin Hk].
           apply elem_of_cons in Hin as [E | Hin]; [congruence | tauto].
    + rewrite IH. destruct (decide (k ∈ l /\ 0 < count (c k))) as [[Hin Hk] | Hn].
      * rewrite decide_True; [reflexivity | split; [now right | exact Hk]].
      * rewrite decide_False; [reflexivity |]. intros [Hin Hk].
        apply elem_of_cons in Hin as [E | Hin]; [subst; lia | tauto].
Qed.

(** X3: for a keyword list without repetition the scan is as C7 describes it:
    the mapping holds exactly the keywords found in some sampled record,
    each with the number of records that contain it in the headers or in
    the body, the numbers of those that contain it in the headers and in
    the body, and the rounded percentage; and the flag tells whether the
    mapping is non-empty. *)
Lemma scan_of_distinct_keywords (keywords : list string) (hits : list Hit) :
  List.NoDup keywords ->
  let n := Z.of_nat (length hits) in
  let found k := count_if (fun h => in_headers_of k h || in_body_of k h) hits in
  exists m has,
    scan_hits keywords hits = Exposure None n m has
    /\ (forall k,
          dict_get k m
          = if decide (k ∈ keywords /\ 0 < found k)
            then Some {| kw_count := found k;
                         kw_percentage := round2 (percentage_of (found k) n);
                         kw_in_headers := count_if (in_headers_of k) hits;
                         kw_in_body := count_if (in_body_of k) hits;
                         kw_exists := true |}
            else None)
    /\ (has = true <-> m <> []).
Proof.
  intros Hnd n found. unfold scan_hits. fold n. eexists _, _. split; [reflexivity |]. split.
  - intros k. rewrite tally_table by exact Hnd. rewrite keyword_percentages_table.
    rewrite counted_spec. unfold info_of. cbn [count in_headers in_body zero_counts].
    rewrite !Z.add_0_l. reflexivity.
  - destruct (keyword_percentages n (tally keywords hits)); simpl; split;
      intros H; try reflexivity; try discriminate; try lia. now contradiction H.
Qed.

(** *** Sensitive fields: the scan *)

Definition hit_of (headers body : string) : Hit := {| fcrh := headers; fcrb := body |}.

Lemma scan_of_distinct_keywords_witness :
  exists m has,
    scan_hits ["password"; "tc"]
      [hit_of "X-Password: x" "{}"; hit_of "Accept: */*" "{'tc': 1}"]
    = Exposure None 2 m has
    /\ (has = true <-> m <> []).
Proof.
  assert (Hnd : List.NoDup ["password"; "tc"])
    by (repeat constructor; simpl; intuition discriminate).
  destruct (scan_of_distinct_keywords ["password"; "tc"]
              [hit_of "X-Password: x" "{}"; hit_of "Accept: */*" "{'tc': 1}"] Hnd)
    as (m & has & Hscan & _ & Hflag).
  exists m, has. split; [exact Hscan | exact Hflag].
Defined.

Example load_commas : load_keywords (Some "TC, Kimlik ,tel,") = ["tc"; "kimlik"; "tel"].
Proof. reflexivity. Qed.

(** Two of three logs mention the password, one of them in both blobs. *)
Example scan_password :
  check_sensitive_fields (Some "password")
    (Response 200
       (inl [hit_of "Authorization: Basic" "{'Password': 'x'}";
             hit_of "X-Password: x" "password=x";
             hit_of "Accept: */*" "{}"]))
  = Exposure None 3
      [("password",
        {| kw_count := 2; kw_percentage := Py.round2 (2 / 3 * 100);
           kw_in_headers := 1; kw_in_body := 2; kw_exists := true |})]
      true.
Proof. reflexivity. Qed.

(** C7, at a keyword file that names a keyword twice: for the single
    sampled log, which contains it, the count is 2 and the percentage 200,
    where one record contains the keyword. *)
Theorem repeated_keyword_counts_twice :
  let hits := [hit_of "X-TC: 12345678901" "{}"] in
  load_keywords (Some "tc,tc") = ["tc"; "tc"]
  /\ exists info,
       check_sensitive_fields (Some "tc,tc") (Response 200 (inl hits))
       = Exposure None 1 [("tc", info)] true
       /\ kw_count info = 2
       /\ (kw_percentage info == 200)%Q
       /\ kw_in_headers info = 2
       /\ length (List.filter
                    (fun h => contains "tc" (lower (fcrh h)) || contains "tc" (lower (fcrb h)))
                    hits) = 1%nat.
Proof.
  split; [reflexivity |]. eexists. split; [reflexivity |].
  split; [reflexivity | split; [vm_compute; reflexivity | split; reflexivity]].
Qed.

(** The record of a failed scan has the keys of a successful one when the
    failure is an exception: of the request, or of decoding the answer. *)
Lemma raised_scan_well_formed (file : option string) (msg : string) (r : ScanResult) :
  r = check_sensitive_fields file (Raised msg)
  \/ r = check_sensitive_fields file (Response 200 (inr msg)) ->
  get_error r = Some msg
  /\ get_total_logs_checked r = Some 0
  /\ get_sensitive_keywords r = Some []
  /\ get_has_sensitive_data r = Some false.
Proof. intros [-> | ->]; repeat split. Qed.

(** C8, at an answer of status 500: the record returned has an error and
    the keys [total_logs] and [sensitive_keywords_found]; it has none of
    [total_logs_checked], [sensitive_keywords] and [has_sensitive_data],
    the keys of the record returned when the request raises. *)
Theorem failed_status_other_keys :
  let r := check_sensitive_fields None (Response 500 (inr "Internal Server Error")) in
  r = QueryFailed "ES query failed: 500" 0 []
  /\ get_error r = Some "ES query failed: 500"
  /\ get_total_logs_checked r = None
  /\ get_sensitive_keywords r = None
  /\ get_has_sensitive_data r = None
  /\ check_sensitive_fields None (Raised "Connection refused")
     = Exposure (Some "Connection refused") 0 [] false.
Proof. repeat split. Qed.

End AnalyzerFacts.

(** ** The rules of the component scorers *)

Module ScorerRules.
Import Py PyFacts SecurityScorer ScorerFacts.

(** An enabled policy of one of the types [tys] is present. *)
Definition enabled_any (tys : list string) (c : ApiConfig) : Prop :=
  exists p, In p (all_policies c) /\ In (ptype p) tys /\ is_enabled p = true.

Lemma existsb_enabled_any (tys : list string) (c : ApiConfig) :
  existsb (fun p => in_list (ptype p) tys && is_enabled p) (all_policies c) = true
  <-> enabled_any tys c.
Proof.
  unfold enabled_any. rewrite existsb_exists. split; intros (p & Hin & H); exists p.
  - apply andb_true_iff in H as [Ht He]. apply in_list_In in Ht. auto.
  - destruct H as [Ht He]. apply in_list_In in Ht. rewrite Ht, He. auto.
Qed.

Lemma existsb_enabled_one (ty : string) (c : ApiConfig) :
  existsb (fun p => String.eqb (ptype p) ty && is_enabled p) (all_policies c) = true
  <-> enabled_any [ty] c.
Proof.
  unfold enabled_any. rewrite existsb_exists. split; intros (p & Hin & H); exists p.
  - apply andb_true_iff in H as [Ht He]. apply String.eqb_eq in Ht. simpl. auto.
  - destruct H as [[Ht | []] He]. rewrite <- Ht, String.eqb_refl, He. auto.
Qed.

(** X4: the IP whitelist score is 100 exactly when an enabled PolicyIpWhite
    is present, whichever list holds it, and 0 otherwise; a recommendation,
    one, of medium severity, is made exactly when none is present and the
    number of unique addresses is between 1 and 10. *)
Theorem ip_whitelist_rule (c : ApiConfig) (t : TrafficStats) :
  let r := _score_ip_whitelist c t in
  (fst r = 100%Q <-> enabled_any ["PolicyIpWhite"] c)
  /\ (fst r = 0%Q <-> ~ enabled_any ["PolicyIpWhite"] c)
  /\ (map severity (snd r) = ["medium"] /\ map category (snd r) = ["ip_whitelist"]
      <-> ~ enabled_any ["PolicyIpWhite"] c /\ 0 < unique_ips t <= 10)
  /\ (snd r = [] <-> enabled_any ["PolicyIpWhite"] c \/ unique_ips t <= 0 \/ 10 < unique_ips t).
Proof.
  intros r. subst r. unfold _score_ip_whitelist.
  pose proof (existsb_enabled_one "PolicyIpWhite" c) as Hp.
  destruct (existsb _ (all_policies c)).
  - assert (He : enabled_any ["PolicyIpWhite"] c) by now apply Hp.
    simpl. repeat split; intros; try tauto; try discriminate; intuition discriminate.
  - assert (He : ~ enabled_any ["PolicyIpWhite"] c) by (intros H; apply Hp in H; discriminate).
    destruct (0 <? unique_ips t) eqn:H0; [apply Z.ltb_lt in H0 | apply Z.ltb_ge in H0];
      (destruct (unique_ips t <=? 10) eqn:H10; [apply Z.leb_le in H10 | apply Z.leb_gt in H10]);
      simpl; repeat split; intros; try tauto; try discriminate; try lia;
      try (intuition (discriminate || lia)).
Qed.

(** The throttling score is 100 exactly when an enabled policy of type
    PolicyApiBasedThrottling or PolicyEndpointRateLimit is present, and 0
    otherwise; without one, the single recommendation is high above 1000
    requests in the busiest hour, low from 1 to 1000, and there is none
    when no hour had a request. *)
Theorem throttling_rule (c : ApiConfig) (t : TrafficStats) :
  let r := _score_throttling c t in
  let tys := ["PolicyApiBasedThrottling"; "PolicyEndpointRateLimit"] in
  (fst r = 100%Q <-> enabled_any tys c)
  /\ (fst r = 0%Q <-> ~ enabled_any tys c)
  /\ (map severity (snd r) = ["high"]
      <-> ~ enabled_any tys c /\ 1000 < max_requests_per_hour t)
  /\ (map severity (snd r) = ["low"]
      <-> ~ enabled_any tys c /\ 0 < max_requests_per_hour t <= 1000)
  /\ (snd r = [] <-> enabled_any tys c \/ max_requests_per_hour t <= 0)
  /\ Forall (fun x => category x = "throttling") (snd r).
Proof.
  intros r tys. subst r. unfold _score_throttling.
  pose proof (existsb_enabled_any tys c) as Hp. subst tys.
  destruct (existsb _ (all_policies c)).
  - assert (He : enabled_any ["PolicyApiBasedThrottling"; "PolicyEndpointRateLimit"] c)
      by now apply Hp.
    simpl. repeat split; intros; try tauto; try discriminate; try constructor;
      intuition discriminate.
  - assert (He : ~ enabled_any ["PolicyApiBasedThrottling"; "PolicyEndpointRateLimit"] c)
      by (intros H; apply Hp in H; discriminate).
    destruct (1000 <? max_requests_per_hour t) eqn:H1;
      [apply Z.ltb_lt in H1 | apply Z.ltb_ge in H1];
      [| destruct (0 <? max_requests_per_hour t) eqn:H0;
         [apply Z.ltb_lt in H0 | apply Z.ltb_ge in H0]];
      simpl; repeat split; intros; try tauto; try discriminate; try lia;
      try (repeat constructor); try (intuition (discriminate || lia)).
Qed.

(** The quota score is 100 exactly when an enabled PolicyApiBasedQuota
    is present and 50 otherwise, never 0; the single, medium recommendation
    is made exactly when none is present and there are more than 10000
    requests. *)
Theorem quota_rule (c : ApiConfig) (t : TrafficStats) :
  let r := _score_quota c t in
  (fst r = 100%Q <-> enabled_any ["PolicyApiBasedQuota"] c)
  /\ (fst r = 50%Q <-> ~ enabled_any ["PolicyApiBasedQuota"] c)
  /\ (map severity (snd r) = ["medium"] /\ map category (snd r) = ["quota"]
      <-> ~ enabled_any ["PolicyApiBasedQuota"] c /\ 10000 < total_requests t)
  /\ (snd r = [] <-> enabled_any ["PolicyApiBasedQuota"] c \/ total_requests t <= 10000).
Proof.
  intros r. subst r. unfold _score_quota.
  pose proof (existsb_enabled_one "PolicyApiBasedQuota" c) as Hp.
  destruct (existsb _ (all_policies c)).
  - assert (He : enabled_any ["PolicyApiBasedQuota"] c) by now apply Hp.
    simpl. repeat split; intros; try tauto; try discriminate; intuition discriminate.
  - assert (He : ~ enabled_any ["PolicyApiBasedQuota"] c)
      by (intros H; apply Hp in H; discriminate).
    destruct (10000 <? total_requests t) eqn:H1;
      [apply Z.ltb_lt in H1 | apply Z.ltb_ge in H1];
      simpl; repeat split; intros; try tauto; try discriminate; try lia;
      try (intuition (discriminate || lia)).
Qed.

Local Open Scope Q_scope.

Lemma Qgtb_gt x y : Qgtb x y = true <-> y < x.
Proof. apply Qltb_lt. Qed.

Lemma Qgtb_le x y : Qgtb x y = false <-> x <= y.
Proof. apply Qltb_ge. Qed.

Lemma ratio_above (k m a : Q) : 0 < a -> (k < m / a <-> k * a < m).
Proof.
  intros Ha. split; intros H.
  - apply Qmult_lt_r with (z := / a); [now apply Qinv_lt_0_compat |].
    rewrite <- Qmult_assoc, Qmult_inv_r, Qmult_1_r by lra. exact H.
  - apply Qlt_shift_div_l; assumption.
Qed.

(** The thresholds of the anomaly score, on the hourly average and the
    hourly maximum. *)
Lemma traffic_anomaly_cases (t : TrafficStats) :
  let r := _score_traffic_anomaly t in
  let a := avg_requests_per_hour t in
  let m := inject_Z (max_requests_per_hour t) in
  (fst r = 50 /\ map severity (snd r) = ["high"%string] <-> 0 < a /\ 10 * a < m)
  /\ (fst r = 70 /\ map severity (snd r) = ["medium"%string]
      <-> 0 < a /\ 5 * a < m /\ m <= 10 * a)
  /\ (r = (100, []) <-> a <= 0 \/ m <= 5 * a)
  /\ Forall (fun x => category x = "anomaly"%string) (snd r).
Proof.
  intros r a m. subst r. unfold _score_traffic_anomaly. fold a. fold m.
  destruct (Qgtb a 0) eqn:Ha; [apply Qgtb_gt in Ha | apply Qgtb_le in Ha].
  - pose proof (ratio_above 10 m a Ha) as H10. pose proof (ratio_above 5 m a Ha) as H5.
    destruct (Qgtb (m / a) 10) eqn:E10; [apply Qgtb_gt in E10 | apply Qgtb_le in E10];
      [| destruct (Qgtb (m / a) 5) eqn:E5; [apply Qgtb_gt in E5 | apply Qgtb_le in E5]].
    + apply H10 in E10. simpl. repeat split; intros; try discriminate;
        try (repeat constructor); try tauto; try lra; intuition (discriminate || lra).
    + apply H5 in E5. assert (m <= 10 * a) by (apply Qnot_lt_le; intros H; apply H10 in H; lra).
      simpl. repeat split; intros; try discriminate;
        try (repeat constructor); try tauto; try lra; intuition (discriminate || lra).
    + assert (m <= 5 * a) by (apply Qnot_lt_le; intros H; apply H5 in H; lra).
      simpl. repeat split; intros; try discriminate;
        try (repeat constructor); try tauto; try lra; intuition (discriminate || lra).
  - simpl. repeat split; intros; try discriminate;
      try (repeat constructor); try tauto; try lra; intuition (discriminate || lra).
Qed.

(** X5: the anomaly score never divides by a zero average: the method
    returns for every statistics record, and what it returns is 50 with
    one high recommendation when the average is positive and the maximum
    is more than 10 times the average, 70 with one medium recommendation
    when it is more than 5 and at most 10 times, and 100 with none
    otherwise, in particular whenever the average is not positive. *)
Theorem traffic_anomaly_rule (t : TrafficStats) :
  let a := avg_requests_per_hour t in
  let m := inject_Z (max_requests_per_hour t) in
  exists r,
    _score_traffic_anomaly_checked t = Some r
    /\ r = _score_traffic_anomaly t
    /\ (fst r = 50 /\ map severity (snd r) = ["high"%string] <-> 0 < a /\ 10 * a < m)
    /\ (fst r = 70 /\ map severity (snd r) = ["medium"%string]
        <-> 0 < a /\ 5 * a < m /\ m <= 10 * a)
    /\ (r = (100, []) <-> a <= 0 \/ m <= 5 * a)
    /\ Forall (fun x => category x = "anomaly"%string) (snd r).
Proof.
  intros a m. exists (_score_traffic_anomaly t). split; [| split; [reflexivity |]].
  - unfold _score_traffic_anomaly_checked, _score_traffic_anomaly, truediv.
    destruct (Qgtb (avg_requests_per_hour t) 0) eqn:Ha; [| reflexivity].
    apply Qgtb_gt in Ha.
    destruct (Qeq_bool (avg_requests_per_hour t) 0) eqn:Hz; [| reflexivity].
    apply Qeq_bool_eq in Hz. rewrite Hz in Ha. now apply Qlt_irrefl in Ha.
  - apply traffic_anomaly_cases.
Qed.

(** X6: the error-rate score has strict thresholds: 30 (critical) above
    20 percent, 60 (high) above 10 up to 20 included, 80 (medium) above 5
    up to 10 included, and 100 with no recommendation up to 5 included. *)
Theorem error_rate_rule (t : TrafficStats) :
  let r := _score_error_rate t in
  let e := error_rate t in
  (fst r = 30 /\ map severity (snd r) = ["critical"%string] <-> 20 < e)
  /\ (fst r = 60 /\ map severity (snd r) = ["high"%string] <-> 10 < e /\ e <= 20)
  /\ (fst r = 80 /\ map severity (snd r) = ["medium"%string] <-> 5 < e /\ e <= 10)
  /\ (r = (100, []) <-> e <= 5)
  /\ Forall (fun x => category x = "errors"%string) (snd r).
Proof.
  intros r e. subst r. unfold _score_error_rate. fold e.
  destruct (Qgtb e 20) eqn:E20; [apply Qgtb_gt in E20 | apply Qgtb_le in E20];
    [| destruct (Qgtb e 10) eqn:E10; [apply Qgtb_gt in E10 | apply Qgtb_le in E10];
       [| destruct (Qgtb e 5) eqn:E5; [apply Qgtb_gt in E5 | apply Qgtb_le in E5]]];
    simpl; repeat split; intros; try discriminate;
    try (repeat constructor); try tauto; try lra; intuition (discriminate || lra).
Qed.

Local Close Scope Q_scope.

Local Open Scope Q_scope.

(** *** Logging *)

Lemma Qmax_list_max (l : list Q) :
  l <> [] -> In (Qmax_list l) l /\ forall p, In p l -> p <= Qmax_list l.
Proof.
  destruct l as [| x l]; [congruence |]. intros _. unfold Qmax_list.
  assert (H : forall l acc,
             let m := fold_left (fun m y => if Qltb m y then y else m) l acc in
             (m = acc \/ In m l) /\ acc <= m /\ forall p, In p l -> p <= m).
  { clear. induction l as [| y l IH]; intros acc; simpl.
    - split; [now left | split; [apply Qle_refl | intros p []]].
    - destruct (IH (if Qltb acc y then y else acc)) as (Hin & Hacc & Hall).
      destruct (Qltb acc y) eqn:E; [apply Qltb_lt in E | apply Qltb_ge in E].
      + split; [destruct Hin as [-> | Hin]; auto |]. split; [lra |].
        intros p [<- | Hp]; [exact Hacc | now apply Hall].
      + split; [destruct Hin as [-> | Hin]; auto |]. split; [exact Hacc |].
        intros p [<- | Hp]; [lra | now apply Hall]. }
  destruct (H l x) as (Hin & Hacc & Hall). split.
  - destruct Hin as [-> | Hin]; [now left | now right].
  - intros p [<- | Hp]; [exact Hacc | now apply Hall].
Qed.

(** X7: a larger exposure never gives a better logging score: the penalty
    table is antitone in the percentage, and its scores stay between 10
    and 80. *)
Theorem logging_bucket_antitone (p q : Q) :
  p <= q ->
  fst (logging_bucket q) <= fst (logging_bucket p)
  /\ 10 <= fst (logging_bucket q) <= 80.
Proof.
  intros Hpq. unfold logging_bucket.
  repeat match goal with
         | |- context [Qgtb ?x ?y] =>
             let E := fresh "E" in
             destruct (Qgtb x y) eqn:E; [apply Qgtb_gt in E | apply Qgtb_le in E]
         end; simpl; try lra.
Qed.

Lemma logging_bucket_antitone_witness :
  fst (logging_bucket 60) <= fst (logging_bucket 4)
  /\ 10 <= fst (logging_bucket 60) <= 80.
Proof. apply logging_bucket_antitone. discriminate. Defined.

(** The percentages the scan recorded, as [_score_logging] reads them. *)
Definition recorded_percentages (t : TrafficStats) : list Q :=
  map (fun p : string * KeywordInfo => kw_percentage (snd p))
    (default [] (sensitive_data t ≫= get_sensitive_keywords)).

Definition flagged (t : TrafficStats) : bool :=
  default false (sensitive_data t ≫= get_has_sensitive_data).

Lemma positive_filter_nil (l : list (string * KeywordInfo)) :
  List.filter (fun '(_, info) => Qgtb (kw_percentage info) 0) l = []
  <-> Forall (fun p => p <= 0) (map (fun p : string * KeywordInfo => kw_percentage (snd p)) l).
Proof.
  induction l as [| [k info] l IH]; simpl.
  - split; [constructor | reflexivity].
  - destruct (Qgtb (kw_percentage info) 0) eqn:E;
      [apply Qgtb_gt in E | apply Qgtb_le in E].
    + split; [discriminate |]. intros H. apply Forall_cons in H as [H _]. simpl in H. lra.
    + rewrite IH. split; [now constructor | intros H; now apply Forall_cons in H as [_ H]].
Qed.

(** X8: the logging score is 100 with no recommendation exactly when the
    scan did not flag sensitive data or no recorded percentage is positive
    (a keyword found in so few records that its percentage rounds to 0.0
    costs nothing); otherwise the score and the severity of the single
    recommendation are those of the penalty table at the largest recorded
    percentage. *)
Theorem logging_rule (c : ApiConfig) (t : TrafficStats) :
  let r := _score_logging c t in
  let pcts := recorded_percentages t in
  (r = (100, []) <-> flagged t = false \/ Forall (fun p => p <= 0) pcts)
  /\ (flagged t = true -> ~ Forall (fun p => p <= 0) pcts ->
      In (Qmax_list pcts) pcts
      /\ (forall p, In p pcts -> p <= Qmax_list pcts)
      /\ fst r = fst (logging_bucket (Qmax_list pcts))
      /\ map severity (snd r) = [snd (logging_bucket (Qmax_list pcts))]
      /\ map category (snd r) = ["logging"%string]).
Proof.
  intros r pcts. subst r pcts. unfold _score_logging, recorded_percentages, flagged.
  set (kws := default [] (sensitive_data t ≫= get_sensitive_keywords)).
  destruct (default false (sensitive_data t ≫= get_has_sensitive_data)).
  2: { split; [split; auto | intros H; discriminate]. }
  pose proof (positive_filter_nil kws) as Hnil.
  destruct (List.filter _ kws) as [| x l] eqn:Hf; cbn [map].
  - assert (Hall : Forall (fun p => p <= 0)
                     (map (fun p : string * KeywordInfo => kw_percentage (snd p)) kws))
      by now apply Hnil.
    split; [split; auto | intros _ Hn; now contradiction Hn].
  - assert (Hn : ~ Forall (fun p => p <= 0)
                     (map (fun p : string * KeywordInfo => kw_percentage (snd p)) kws)).
    { intros H. apply Hnil in H. discriminate. }
    assert (Hne : map (fun p : string * KeywordInfo => kw_percentage (snd p)) kws <> []).
    { intros E. apply Hn. rewrite E. constructor. }
    assert (Hsame : map (fun '(_, info) => kw_percentage info) kws
                    = map (fun p : string * KeywordInfo => kw_percentage (snd p)) kws).
    { apply map_ext. now intros [k info]. }
    rewrite Hsame.
    destruct (Qmax_list_max _ Hne) as [Hin Hmax].
    destruct (logging_bucket _) as [score sev] eqn:Hb. cbn [fst snd map severity category rec].
    split.
    + split; [intros H | intros [H | H]; [discriminate | tauto]].
      exfalso. inversion H.
    + intros _ _. repeat split; assumption.
Qed.

Lemma logging_rule_witness :
  let exposure :=
    Exposure None 100
      [("tc"%string,
        {| kw_count := 3; kw_percentage := 3; kw_in_headers := 3; kw_in_body := 0;
           kw_exists := true |});
       ("password"%string,
        {| kw_count := 60; kw_percentage := 60; kw_in_headers := 0; kw_in_body := 60;
           kw_exists := true |})]
      true in
  let r := _score_logging quiet_config (with_sensitive_data no_stats exposure) in
  fst r = 20 /\ map severity (snd r) = ["critical"%string].
Proof.
  pose proof (logging_rule quiet_config
                (with_sensitive_data no_stats
                   (Exposure None 100
                      [("tc"%string,
                        {| kw_count := 3; kw_percentage := 3; kw_in_headers := 3;
                           kw_in_body := 0; kw_exists := true |});
                       ("password"%string,
                        {| kw_count := 60; kw_percentage := 60; kw_in_headers := 0;
                           kw_in_body := 60; kw_exists := true |})]
                      true))) as [_ H].
  destruct H as (_ & _ & Hs & Hv & _).
  - reflexivity.
  - intros H. apply Forall_cons in H as [H _]. vm_compute in H. exact (H eq_refl).
  - split; [exact Hs | exact Hv].
Defined.

Local Close Scope Q_scope.

Local Open Scope Q_scope.

(** *** SSL/TLS *)

(** The counts of one side are consistent. *)
Definition ssl_counts_ok (s : SslInfo) : Prop := (0 <= ssl_count s <= total s)%Z.

(** Every endpoint of one side uses TLS, or there is none. *)
Definition fully_encrypted (s : SslInfo) : Prop :=
  (total s <= 0)%Z \/ all_ssl s = true \/ ssl_count s = total s.

Lemma ssl_side_bounds (s : SslInfo) (sev msg act : string) :
  ssl_counts_ok s -> 0 <= fst (ssl_side s sev msg act) <= 100.
Proof.
  intros [Hlo Hhi]. unfold ssl_side.
  destruct (0 <? total s)%Z eqn:Ht; [apply Z.ltb_lt in Ht | simpl; lra].
  destruct (all_ssl s); [simpl; lra |].
  assert (Hside : 0 <= inject_Z (ssl_count s) / inject_Z (total s) * 100 <= 100).
  { assert (Hc : 0 <= inject_Z (ssl_count s)) by (change 0 with (inject_Z 0); now rewrite <- Zle_Qle).
    assert (Hct : inject_Z (ssl_count s) <= inject_Z (total s)) by now rewrite <- Zle_Qle.
    assert (Hpos : 0 < inject_Z (total s)) by (change 0 with (inject_Z 0); now rewrite <- Zlt_Qlt).
    assert (H01 : 0 <= inject_Z (ssl_count s) / inject_Z (total s) <= 1).
    { split; [apply Qle_shift_div_l; lra | apply Qle_shift_div_r; lra]. }
    lra. }
  destruct (non_ssl_names s); simpl; exact Hside.
Qed.

Lemma ssl_side_full (s : SslInfo) (sev msg act : string) :
  fully_encrypted s -> fst (ssl_side s sev msg act) == 100 /\ (total s <= 0 \/ all_ssl s = true -> snd (ssl_side s sev msg act) = [])%Z.
Proof.
  intros Hfull. unfold ssl_side.
  destruct (0 <? total s)%Z eqn:Ht; [apply Z.ltb_lt in Ht | simpl; split; [reflexivity | auto]].
  destruct (all_ssl s) eqn:Ha; [simpl; split; [reflexivity | auto] |].
  destruct Hfull as [H | [H | H]]; [lia | congruence |].
  assert (E : inject_Z (ssl_count s) / inject_Z (total s) * 100 == 100).
  { rewrite H. field. change 0 with (inject_Z 0). rewrite inject_Z_injective. lia. }
  split.
  - destruct (non_ssl_names s); simpl; exact E.
  - intros [Hz | Hz]; [lia | congruence].
Qed.

Lemma ssl_side_recs (s : SslInfo) (sev msg act : string) :
  snd (ssl_side s sev msg act) = []
  \/ exists m, snd (ssl_side s sev msg act) = [rec sev "ssl_tls" m act].
Proof.
  unfold ssl_side. destruct (0 <? total s)%Z; [| now left].
  destruct (all_ssl s); [now left |].
  destruct (non_ssl_names s); [now left | right; eexists; reflexivity].
Qed.

Definition client_side (c : ApiConfig) : Q * list Recommendation :=
  ssl_side (client_ssl c) "high"
    "Client connections without SSL/TLS detected in: "
    "Enable HTTPS for all client-facing endpoints to encrypt data in transit".

Definition backend_side (c : ApiConfig) : Q * list Recommendation :=
  ssl_side (backend_ssl c) "medium"
    "Backend connections without SSL/TLS: "
    "Use HTTPS for backend service connections to ensure end-to-end encryption".

Lemma score_ssl_tls_unfold (c : ApiConfig) :
  _score_ssl_tls c
  = (round2 (fst (client_side c) * (6 # 10) + fst (backend_side c) * (4 # 10)),
     (snd (client_side c) ++ snd (backend_side c))%list).
Proof.
  unfold _score_ssl_tls, client_side, backend_side.
  destruct (ssl_side (client_ssl c) _ _ _), (ssl_side (backend_ssl c) _ _ _). reflexivity.
Qed.

(** X9: with consistent counts on both sides the SSL/TLS score is between
    0 and 100, and it is 100 when every client-facing deployment and every
    backend uses TLS, a side without any endpoint counting as such; at most
    two recommendations are made, the client one first. *)
Theorem ssl_tls_rule (c : ApiConfig) :
  ssl_counts_ok (client_ssl c) -> ssl_counts_ok (backend_ssl c) ->
  let r := _score_ssl_tls c in
  0 <= fst r <= 100
  /\ (fully_encrypted (client_ssl c) -> fully_encrypted (backend_ssl c) -> fst r == 100)
  /\ (length (snd r) <= 2)%nat
  /\ exists l, (l = [] \/ l = ["high"] \/ l = ["medium"] \/ l = ["high"; "medium"])%string
               /\ map severity (snd r) = l.
Proof.
  intros Hc Hb r. subst r. rewrite score_ssl_tls_unfold. cbn [fst snd].
  pose proof (ssl_side_bounds (client_ssl c) _ _ _ Hc : 0 <= fst (client_side c) <= 100) as Hcb.
  pose proof (ssl_side_bounds (backend_ssl c) _ _ _ Hb : 0 <= fst (backend_side c) <= 100) as Hbb.
  split; [| split; [| split]].
  - split.
    + apply (round2_ge 0). change (inject_Z 0) with 0. lra.
    + apply (round2_le 100). change (inject_Z 100) with 100. lra.
  - intros Hfc Hfb.
    destruct (ssl_side_full (client_ssl c) _ _ _ Hfc : fst (client_side c) == 100 /\ _) as [E1 _].
    destruct (ssl_side_full (backend_ssl c) _ _ _ Hfb : fst (backend_side c) == 100 /\ _) as [E2 _].
    rewrite E1, E2.
    assert (E : 100 * (6 # 10) + 100 * (4 # 10) == inject_Z 100) by reflexivity.
    rewrite E. apply round2_int.
  - unfold client_side, backend_side.
    destruct (ssl_side_recs (client_ssl c) "high"
                "Client connections without SSL/TLS detected in: "
                "Enable HTTPS for all client-facing endpoints to encrypt data in transit")
      as [-> | [x ->]];
      destruct (ssl_side_recs (backend_ssl c) "medium"
                  "Backend connections without SSL/TLS: "
                  "Use HTTPS for backend service connections to ensure end-to-end encryption")
        as [-> | [y ->]];
      simpl; lia.
  - unfold client_side, backend_side.
    destruct (ssl_side_recs (client_ssl c) "high"
                "Client connections without SSL/TLS detected in: "
                "Enable HTTPS for all client-facing endpoints to encrypt data in transit")
      as [-> | [x ->]];
      destruct (ssl_side_recs (backend_ssl c) "medium"
                  "Backend connections without SSL/TLS: "
                  "Use HTTPS for backend service connections to ensure end-to-end encryption")
        as [-> | [y ->]];
      simpl; eexists; (split; [| reflexivity]); tauto.
Qed.

Lemma ssl_tls_rule_witness :
  let r := _score_ssl_tls basic_guarded in
  0 <= fst r <= 100 /\ (length (snd r) <= 2)%nat.
Proof.
  destruct (ssl_tls_rule basic_guarded) as (Hb & _ & Hl & _).
  - unfold ssl_counts_ok. simpl. lia.
  - unfold ssl_counts_ok. simpl. lia.
  - split; [exact Hb | exact Hl].
Defined.

Local Close Scope Q_scope.

(** *** The report as a whole *)

Definition severities : list string := ["low"; "medium"; "high"; "critical"].

Definition categories : list string :=
  ["ip_whitelist"; "throttling"; "quota"; "authentication"; "allowed_hours";
   "anomaly"; "errors"; "ssl_tls"; "logging"].

Definition known (x : Recommendation) : Prop :=
  In (severity x) severities /\ In (category x) categories.

Ltac known_list :=
  repeat (apply List.Forall_cons; [unfold known; simpl; tauto |]); apply List.Forall_nil.

Ltac known_recs := repeat case_match; simpl; (split; [known_list | lia]).

Lemma ip_whitelist_recs c t :
  Forall known (snd (_score_ip_whitelist c t)) /\ (length (snd (_score_ip_whitelist c t)) <= 1)%nat.
Proof. unfold _score_ip_whitelist. known_recs. Qed.

Lemma throttling_recs c t :
  Forall known (snd (_score_throttling c t)) /\ (length (snd (_score_throttling c t)) <= 1)%nat.
Proof. unfold _score_throttling. known_recs. Qed.

Lemma quota_recs c t :
  Forall known (snd (_score_quota c t)) /\ (length (snd (_score_quota c t)) <= 1)%nat.
Proof. unfold _score_quota. known_recs. Qed.

Lemma authentication_recs c :
  Forall known (snd (_score_authentication c)) /\ (length (snd (_score_authentication c)) <= 1)%nat.
Proof. unfold _score_authentication. known_recs. Qed.

Lemma allowed_hours_recs c t :
  Forall known (snd (_score_allowed_hours c t)) /\ (length (snd (_score_allowed_hours c t)) <= 1)%nat.
Proof. unfold _score_allowed_hours. known_recs. Qed.

Lemma traffic_anomaly_recs t :
  Forall known (snd (_score_traffic_anomaly t)) /\ (length (snd (_score_traffic_anomaly t)) <= 1)%nat.
Proof. unfold _score_traffic_anomaly. known_recs. Qed.

Lemma error_rate_recs t :
  Forall known (snd (_score_error_rate t)) /\ (length (snd (_score_error_rate t)) <= 1)%nat.
Proof. unfold _score_error_rate. known_recs. Qed.

Lemma ssl_tls_recs c :
  Forall known (snd (_score_ssl_tls c)) /\ (length (snd (_score_ssl_tls c)) <= 2)%nat.
Proof.
  rewrite score_ssl_tls_unfold. cbn [snd]. unfold client_side, backend_side.
  destruct (ssl_side_recs (client_ssl c) "high"
              "Client connections without SSL/TLS detected in: "
              "Enable HTTPS for all client-facing endpoints to encrypt data in transit")
    as [-> | [x ->]];
    destruct (ssl_side_recs (backend_ssl c) "medium"
                "Backend connections without SSL/TLS: "
                "Use HTTPS for backend service connections to ensure end-to-end encryption")
      as [-> | [y ->]];
    simpl; (split; [known_list | lia]).
Qed.

Lemma logging_bucket_severity (m : Q) : In (snd (logging_bucket m)) severities.
Proof. unfold logging_bucket. repeat case_match; simpl; tauto. Qed.

Lemma logging_recs c t :
  Forall known (snd (_score_logging c t)) /\ (length (snd (_score_logging c t)) <= 1)%nat.
Proof.
  unfold _score_logging.
  destruct (default false _); [| simpl; split; [constructor | lia]].
  destruct (map _ (List.filter _ _)); [simpl; split; [constructor | lia] |].
  match goal with |- context [logging_bucket ?m] =>
    pose proof (logging_bucket_severity m) as Hsev; destruct (logging_bucket m) as [score sev]
  end.
  simpl in *. split; [known_list | lia].
Qed.

(** X10: every recommendation of a report has one of the four severities
    and one of the nine categories, and a report holds at most 10 of
    them. *)
Theorem recommendations_known (weights : gmap string Q) (now : string)
    (c : ApiConfig) (t : TrafficStats) :
  let r := calculate_api_score weights now c t in
  Forall known (recommendations r) /\ (length (recommendations r) <= 10)%nat.
Proof.
  intros r. subst r.
  cbn [calculate_api_score recommendations components map concat fst snd].
  destruct (ip_whitelist_recs c t), (throttling_recs c t), (quota_recs c t),
    (authentication_recs c), (allowed_hours_recs c t), (traffic_anomaly_recs t),
    (error_rate_recs t), (ssl_tls_recs c), (logging_recs c t).
  split.
  - repeat (apply Forall_app; split; try assumption). constructor.
  - rewrite !length_app. simpl. lia.
Qed.

Local Open Scope Q_scope.

Ltac const_bounds := repeat case_match; simpl; lra.

Lemma ip_whitelist_bounds c t : 0 <= fst (_score_ip_whitelist c t) <= 100.
Proof. unfold _score_ip_whitelist. const_bounds. Qed.
Lemma throttling_bounds c t : 0 <= fst (_score_throttling c t) <= 100.
Proof. unfold _score_throttling. const_bounds. Qed.
Lemma quota_bounds c t : 0 <= fst (_score_quota c t) <= 100.
Proof. unfold _score_quota. const_bounds. Qed.
Lemma authentication_bounds c : 0 <= fst (_score_authentication c) <= 100.
Proof. unfold _score_authentication. const_bounds. Qed.
Lemma allowed_hours_bounds c t : 0 <= fst (_score_allowed_hours c t) <= 100.
Proof. unfold _score_allowed_hours. const_bounds. Qed.
Lemma traffic_anomaly_bounds t : 0 <= fst (_score_traffic_anomaly t) <= 100.
Proof. unfold _score_traffic_anomaly. const_bounds. Qed.
Lemma error_rate_bounds t : 0 <= fst (_score_error_rate t) <= 100.
Proof. unfold _score_error_rate. const_bounds. Qed.

Lemma logging_bucket_bounds (m : Q) : 10 <= fst (logging_bucket m) <= 80.
Proof.
  unfold logging_bucket.
  repeat match goal with |- context [Qgtb ?x ?y] => destruct (Qgtb x y) end; simpl; lra.
Qed.

Lemma logging_bounds c t : 0 <= fst (_score_logging c t) <= 100.
Proof.
  unfold _score_logging.
  destruct (default false _); [| simpl; lra].
  destruct (map _ (List.filter _ _)); [simpl; lra |].
  match goal with |- context [logging_bucket ?m] =>
    pose proof (logging_bucket_bounds m) as Hb;
    destruct (logging_bucket m) as [score sev]
  end.
  simpl in *. lra.
Qed.

Lemma ssl_tls_bounds c :
  ssl_counts_ok (client_ssl c) -> ssl_counts_ok (backend_ssl c) ->
  0 <= fst (_score_ssl_tls c) <= 100.
Proof.
  intros Hc Hb. rewrite score_ssl_tls_unfold. cbn [fst].
  pose proof (ssl_side_bounds (client_ssl c) _ _ _ Hc : 0 <= fst (client_side c) <= 100).
  pose proof (ssl_side_bounds (backend_ssl c) _ _ _ Hb : 0 <= fst (backend_side c) <= 100).
  split.
  - apply (round2_ge 0). change (inject_Z 0) with 0. lra.
  - apply (round2_le 100). change (inject_Z 100) with 100. lra.
Qed.

Lemma components_in_range (weights : gmap string Q) (now : string)
    (c : ApiConfig) (t : TrafficStats) :
  ssl_counts_ok (client_ssl c) -> ssl_counts_ok (backend_ssl c) ->
  Forall (fun p => 0 <= snd p <= 100)
    (component_scores (calculate_api_score weights now c t)).
Proof.
  intros Hc Hb.
  cbn [calculate_api_score component_scores components map fst snd].
  repeat (apply List.Forall_cons;
          [cbn [snd];
           first [apply ip_whitelist_bounds | apply throttling_bounds | apply quota_bounds
                 | apply authentication_bounds | apply allowed_hours_bounds
                 | apply traffic_anomaly_bounds | apply error_rate_bounds
                 | now apply ssl_tls_bounds | apply logging_bounds] |]).
  apply List.Forall_nil.
Qed.

(** X11: a report scores the nine components, under their fixed names and
    in the fixed order, and with consistent SSL counts every component
    score is between 0 and 100. *)
Theorem component_scores_bounded (weights : gmap string Q) (now : string)
    (c : ApiConfig) (t : TrafficStats) :
  ssl_counts_ok (client_ssl c) -> ssl_counts_ok (backend_ssl c) ->
  let r := calculate_api_score weights now c t in
  map fst (component_scores r) = component_names
  /\ Forall (fun p => 0 <= snd p <= 100) (component_scores r).
Proof.
  intros Hc Hb r. subst r. split; [reflexivity |].
  now apply components_in_range.
Qed.

Lemma component_scores_bounded_witness :
  let r := calculate_api_score configured_weights now0 basic_guarded no_stats in
  map fst (component_scores r) = component_names
  /\ Forall (fun p => 0 <= snd p <= 100) (component_scores r).
Proof.
  apply component_scores_bounded; unfold ssl_counts_ok; simpl; lia.
Defined.

(** The weights are not negative and add up to at most 1. *)
Definition weights_ok (weights : gmap string Q) : Prop :=
  (forall name, In name component_names -> 0 <= weight_of weights name)
  /\ Qsum (map (weight_of weights) component_names) <= 1.

Lemma Qsum_scale (k : Q) {A} (f : A -> Q) (l : list A) :
  Qsum (map (fun a => k * f a) l) == k * Qsum (map f l).
Proof.
  induction l as [| a l IH]; simpl; [ring |]. rewrite IH. ring.
Qed.

Lemma Qsum_nonneg {A} (f : A -> Q) (l : list A) :
  (forall a, In a l -> 0 <= f a) -> 0 <= Qsum (map f l).
Proof.
  induction l as [| a l IH]; intros H; simpl; [lra |].
  assert (0 <= f a) by (apply H; now left).
  assert (0 <= Qsum (map f l)) by (apply IH; intros; apply H; now right). lra.
Qed.

Lemma score_of_bounds (weights : gmap string Q) (now : string)
    (c : ApiConfig) (t : TrafficStats) (name : string) :
  ssl_counts_ok (client_ssl c) -> ssl_counts_ok (backend_ssl c) ->
  0 <= score_of name (calculate_api_score weights now c t) <= 100.
Proof.
  intros Hc Hb. unfold score_of.
  pose proof (components_in_range weights now c t Hc Hb) as Hall.
  induction Hall as [| [k v] l Hk Hall IH]; simpl; [lra |].
  destruct (decide (name = k)); [exact Hk | exact IH].
Qed.

(** X12: with consistent SSL counts and weights that are not negative and
    add up to at most 1 over the nine components, the reported total score
    is between 0 and 100. *)
Theorem total_score_bounded (weights : gmap string Q) (now : string)
    (c : ApiConfig) (t : TrafficStats) :
  weights_ok weights ->
  ssl_counts_ok (client_ssl c) -> ssl_counts_ok (backend_ssl c) ->
  0 <= total_score (calculate_api_score weights now c t) <= 100.
Proof.
  intros [Hw Hsum] Hc Hb.
  change (total_score (calculate_api_score weights now c t))
    with (round2 (weighted_total weights
                    (component_scores (calculate_api_score weights now c t)))).
  rewrite weighted_total_sum. unfold weighted_sum.
  set (r := calculate_api_score weights now c t).
  assert (Hlo : 0 <= Qsum (map (fun name => score_of name r * weight_of weights name)
                             component_names)).
  { apply Qsum_nonneg. intros name Hin.
    pose proof (score_of_bounds weights now c t name Hc Hb). specialize (Hw name Hin).
    apply Qmult_le_0_compat; [fold r in H; lra | exact Hw]. }
  assert (Hhi : Qsum (map (fun name => score_of name r * weight_of weights name)
                        component_names) <= 100).
  { apply Qle_trans with (Qsum (map (fun name => 100 * weight_of weights name) component_names)).
    - apply Qsum_le. intros name Hin.
      pose proof (score_of_bounds weights now c t name Hc Hb). specialize (Hw name Hin).
      apply Qmult_le_compat_r; [fold r in H; lra | exact Hw].
    - rewrite Qsum_scale. lra. }
  split.
  - apply (round2_ge 0). exact Hlo.
  - apply (round2_le 100). exact Hhi.
Qed.

Lemma total_score_bounded_witness :
  0 <= total_score (calculate_api_score configured_weights now0 basic_guarded no_stats) <= 100.
Proof.
  apply total_score_bounded.
  - split.
    + intros name Hin. simpl in Hin.
      repeat (destruct Hin as [<- | Hin]; [vm_compute; discriminate |]). destruct Hin.
    + vm_compute. discriminate.
  - unfold ssl_counts_ok. simpl. lia.
  - unfold ssl_counts_ok. simpl. lia.
Defined.

Local Close Scope Q_scope.

(** *** What the scorers see of the policies *)

(** The types of the enabled policies. *)
Definition enabled_types (l : list PolicyRef) : list string :=
  map ptype (List.filter is_enabled l).

Lemma existsb_enabled_types (test : string -> bool) (l : list PolicyRef) :
  existsb (fun p => test (ptype p) && is_enabled p) l = existsb test (enabled_types l).
Proof.
  unfold enabled_types. induction l as [| p l IH]; simpl; [reflexivity |].
  destruct (is_enabled p); simpl; rewrite IH.
  - now rewrite andb_true_r.
  - now rewrite andb_false_r.
Qed.

Lemma existsb_same_elements {A} (test : A -> bool) (l l' : list A) :
  (forall a, In a l <-> In a l') -> existsb test l = existsb test l'.
Proof.
  intros H. apply eq_true_iff_eq. rewrite !existsb_exists.
  split; intros (a & Hin & Ha); exists a; split; auto; now apply H.
Qed.

(** The ranking of [_score_authentication], on the retained types. *)
Definition rank_authentication (auth_types : list string) : Q * list Recommendation :=
  match auth_types with
  | [] =>
      (0%Q, [rec "critical" "authentication"
               "No authentication policy configured. API is publicly accessible."
               "Add authentication policy (OAuth2, JWT, or API Key recommended)"])
  | _ :: _ =>
      if in_list "PolicyOauth2Authentication" auth_types
         || in_list "PolicyJwtAuthentication" auth_types then (100%Q, [])
      else if in_list "PolicyMTLSAuthentication" auth_types then (100%Q, [])
      else if in_list "PolicyApiAuthentication" auth_types then (75%Q, [])
      else if in_list "PolicyBasicAuthentication" auth_types then
        (50%Q, [rec "medium" "authentication"
                  "Using Basic Auth. Consider upgrading to OAuth2 or JWT."
                  "Upgrade to stronger authentication method"])
      else (0%Q, [])
  end.

Lemma authentication_of_types (c : ApiConfig) :
  _score_authentication c
  = rank_authentication
      (List.filter (fun ty => in_list ty auth_policy_types) (enabled_types (all_policies c))).
Proof.
  unfold _score_authentication, enabled_types.
  assert (E : forall l,
             map ptype (List.filter (fun p => in_list (ptype p) auth_policy_types && is_enabled p) l)
             = List.filter (fun ty => in_list ty auth_policy_types)
                 (map ptype (List.filter is_enabled l))).
  { induction l as [| p l IH]; [reflexivity |]. cbn [List.filter].
    destruct (is_enabled p); [| rewrite andb_false_r; exact IH].
    rewrite andb_true_r. cbn [map List.filter].
    destruct (in_list (ptype p) auth_policy_types); [cbn [map]; now rewrite IH | exact IH]. }
  rewrite <- E.
  destruct (List.filter _ (all_policies c)); reflexivity.
Qed.

Lemma rank_same_elements (l l' : list string) :
  (forall ty, In ty l <-> In ty l') -> rank_authentication l = rank_authentication l'.
Proof.
  intros H. unfold rank_authentication.
  assert (Hin : forall ty, in_list ty l = in_list ty l').
  { intros ty. apply eq_true_iff_eq. rewrite !in_list_In. apply H. }
  rewrite !Hin.
  destruct l as [| a l], l' as [| a' l']; try reflexivity.
  - exfalso. apply (H a'). now left.
  - exfalso. apply (H a). now left.
Qed.

(** The nine scores and recommendations depend on the policies through the
    set of the types of the enabled ones only. *)
Lemma components_by_enabled_types (c c' : ApiConfig) (t : TrafficStats) :
  client_ssl c = client_ssl c' -> backend_ssl c = backend_ssl c' ->
  (forall ty, In ty (enabled_types (all_policies c))
              <-> In ty (enabled_types (all_policies c'))) ->
  components c t = components c' t.
Proof.
  intros Hcl Hbk Hty. unfold components.
  assert (Hex : forall test,
             existsb (fun p => test (ptype p) && is_enabled p) (all_policies c)
             = existsb (fun p => test (ptype p) && is_enabled p) (all_policies c')).
  { intros test. rewrite !existsb_enabled_types. now apply existsb_same_elements. }
  assert (Hip : _score_ip_whitelist c t = _score_ip_whitelist c' t).
  { unfold _score_ip_whitelist.
    now rewrite (Hex (fun ty => String.eqb ty "PolicyIpWhite")). }
  assert (Hth : _score_throttling c t = _score_throttling c' t).
  { unfold _score_throttling.
    now rewrite (Hex (fun ty => in_list ty ["PolicyApiBasedThrottling"; "PolicyEndpointRateLimit"])). }
  assert (Hqu : _score_quota c t = _score_quota c' t).
  { unfold _score_quota.
    now rewrite (Hex (fun ty => String.eqb ty "PolicyApiBasedQuota")). }
  assert (Hau : _score_authentication c = _score_authentication c').
  { rewrite !authentication_of_types. apply rank_same_elements.
    intros ty. rewrite !filter_In. now rewrite Hty. }
  assert (Hah : _score_allowed_hours c t = _score_allowed_hours c' t).
  { unfold _score_allowed_hours.
    now rewrite (Hex (fun ty => String.eqb ty "PolicyAllowedHours")). }
  assert (Hss : _score_ssl_tls c = _score_ssl_tls c').
  { unfold _score_ssl_tls. now rewrite Hcl, Hbk. }
  rewrite Hip, Hth, Hqu, Hau, Hah, Hss. reflexivity.
Qed.

(** The snapshot without its disabled policies. *)
Definition without_disabled (c : ApiConfig) : ApiConfig :=
  {| policies :=
       {| request := List.filter is_enabled (request (policies c));
          response := List.filter is_enabled (response (policies c));
          error := List.filter is_enabled (error (policies c)) |};
     client_ssl := client_ssl c;
     backend_ssl := backend_ssl c |}.

Lemma filter_twice {A} (f : A -> bool) (l : list A) :
  List.filter f (List.filter f l) = List.filter f l.
Proof.
  induction l as [| a l IH]; [reflexivity |]. simpl.
  destruct (f a) eqn:E; [simpl; now rewrite E, IH | exact IH].
Qed.

(** X13: a disabled policy has no effect on the report: removing the
    disabled policies from the three lists leaves every score, the level
    and the recommendations as they are. *)
Theorem disabled_policies_ignored (weights : gmap string Q) (now : string)
    (c : ApiConfig) (t : TrafficStats) :
  calculate_api_score weights now (without_disabled c) t
  = calculate_api_score weights now c t.
Proof.
  unfold calculate_api_score.
  rewrite (components_by_enabled_types (without_disabled c) c t); [reflexivity .. |].
  intros ty. unfold enabled_types, all_policies, without_disabled. cbn [policies request response error].
  rewrite !List.filter_app, !filter_twice. reflexivity.
Qed.

(** X14: the report does not depend on which of the request, response and
    error lists holds a policy, nor on the order of the policies: two
    snapshots with the same SSL data whose policies are the same up to
    order get the same report. *)
Theorem policy_placement_irrelevant (weights : gmap string Q) (now : string)
    (c c' : ApiConfig) (t : TrafficStats) :
  client_ssl c = client_ssl c' -> backend_ssl c = backend_ssl c' ->
  all_policies c ≡ₚ all_policies c' ->
  calculate_api_score weights now c t = calculate_api_score weights now c' t.
Proof.
  intros Hcl Hbk Hperm. unfold calculate_api_score.
  rewrite (components_by_enabled_types c c' t Hcl Hbk); [reflexivity |].
  intros ty. unfold enabled_types. rewrite !in_map_iff.
  split; intros (p & Hp & Hin); exists p; (split; [exact Hp |]);
    apply filter_In in Hin as [Hin He]; apply filter_In; (split; [| exact He]).
  - now apply (Permutation_in _ Hperm).
  - now apply (Permutation_in _ (Permutation_sym Hperm)).
Qed.

Lemma policy_placement_irrelevant_witness :
  calculate_api_score configured_weights now0
    {| policies := {| request := [policy "PolicyIpWhite"];
                      response := [policy "PolicyBasicAuthentication"];
                      error := [] |};
       client_ssl := all_client_ssl; backend_ssl := one_plain_backend |}
    no_stats
  = calculate_api_score configured_weights now0
      {| policies := {| request := [];
                        response := [];
                        error := [policy "PolicyBasicAuthentication"; policy "PolicyIpWhite"] |};
         client_ssl := all_client_ssl; backend_ssl := one_plain_backend |}
      no_stats.
Proof.
  apply policy_placement_irrelevant; [reflexivity | reflexivity |].
  apply Permutation_swap.
Defined.

End ScorerRules.

(** ** The rules of the traffic analysis *)

Module AnalyzerRules.
Import Py PyFacts ElasticsearchAnalyzer AnalyzerFacts.

(** *** The fields of a record *)

(** X16: for a bucket whose error count is between 0 and its document
    count, error_rate and success_rate are percentages: both lie between 0
    and 100. *)
Theorem rates_are_percentages (start_date end_date : datetime) (b : ApiBucket) :
  0 <= error_count_doc_count b <= doc_count b ->
  let s := parse_bucket start_date end_date b in
  (0 <= error_rate s <= 100)%Q /\ (0 <= success_rate s <= 100)%Q.
Proof.
  intros [Hlo Hhi] s. subst s. cbn [parse_bucket error_rate success_rate].
  assert (Hraw : (0 <= (if 0 <? doc_count b
                        then inject_Z (error_count_doc_count b) / inject_Z (doc_count b) * 100
                        else 0) <= 100)%Q).
  { destruct (0 <? doc_count b) eqn:Hd; [apply Z.ltb_lt in Hd | lra].
    assert (Hc : (0 <= inject_Z (error_count_doc_count b))%Q)
      by (change 0%Q with (inject_Z 0); now rewrite <- Zle_Qle).
    assert (Hct : (inject_Z (error_count_doc_count b) <= inject_Z (doc_count b))%Q)
      by now rewrite <- Zle_Qle.
    assert (Hpos : (0 < inject_Z (doc_count b))%Q)
      by (change 0%Q with (inject_Z 0); now rewrite <- Zlt_Qlt).
    assert (H01 : (0 <= inject_Z (error_count_doc_count b) / inject_Z (doc_count b) <= 1)%Q).
    { split; [apply Qle_shift_div_l; lra | apply Qle_shift_div_r; lra]. }
    lra. }
  split; (split; [apply (round2_ge 0) | apply (round2_le 100)]);
    change (inject_Z 0) with 0%Q; change (inject_Z 100) with 100%Q; lra.
Qed.

Lemma rates_are_percentages_witness :
  let s := parse_bucket 0 hour_us
             {| key := "orders"; doc_count := 7; api_name_buckets := ["Orders"];
                by_hour := []; unique_ips_value := 0; unique_users_value := 0;
                top_ips_buckets := []; top_users_buckets := [];
                avg_response_time_value := None; status_codes_buckets := [];
                error_count_doc_count := 2 |} in
  (0 <= error_rate s <= 100)%Q /\ (0 <= success_rate s <= 100)%Q.
Proof. apply rates_are_percentages. simpl. lia. Defined.

(** *** The peak hour *)

Section FirstMaximum.
Context {A : Type} (f : A -> Z).

(** [m] is the first element of [pre] whose key is largest. *)
Definition first_max (pre : list A) (m : A) : Prop :=
  exists i, pre !! i = Some m
            /\ (forall y, In y pre -> f y <= f m)
            /\ (forall j y, (j < i)%nat -> pre !! j = Some y -> f y < f m).

Lemma first_max_fold (l pre : list A) (m : A) :
  first_max pre m ->
  first_max (pre ++ l) (fold_left (fun m y => if f m <? f y then y else m) l m).
Proof.
  revert pre m. induction l as [| y l IH]; intros pre m Hm; simpl.
  - now rewrite app_nil_r.
  - replace (pre ++ y :: l)%list with ((pre ++ [y]) ++ l)%list by now rewrite <- app_assoc.
    apply IH. destruct Hm as (i & Hi & Hall & Hbefore).
    assert (Hlt : (i < length pre)%nat) by (eapply lookup_lt_Some; eauto).
    destruct (Z.ltb_spec (f m) (f y)) as [Hgt | Hle].
    + exists (length pre). split; [| split].
      * rewrite lookup_app_r by lia. now rewrite Nat.sub_diag.
      * intros z Hz. apply in_app_or in Hz as [Hz | [<- | []]]; [| lia].
        specialize (Hall z Hz). lia.
      * intros j z Hj Hz. rewrite lookup_app_l in Hz by lia.
        assert (In z pre) by (apply list_elem_of_In; eapply list_elem_of_lookup_2; eauto).
        specialize (Hall z H). lia.
    + exists i. split; [| split].
      * now rewrite lookup_app_l by lia.
      * intros z Hz. apply in_app_or in Hz as [Hz | [<- | []]]; [now apply Hall | lia].
      * intros j z Hj Hz. rewrite lookup_app_l in Hz by lia. now apply (Hbefore j).
Qed.

Lemma max_by_first_max (l : list A) :
  l <> [] -> exists m, max_by f l = Some m /\ first_max l m.
Proof.
  destruct l as [| x l]; [congruence |]. intros _. eexists. split; [reflexivity |].
  apply (first_max_fold l [x] x). exists 0%nat. split; [reflexivity |]. split.
  - intros y [<- | []]. lia.
  - intros j y Hj. lia.
Qed.

Lemma max_list_is_max_by (l : list A) (m : A) :
  max_by f l = Some m -> default 0 (max_list (map f l)) = f m.
Proof.
  destruct l as [| x l]; [discriminate |]. simpl. intros [= <-].
  revert x. induction l as [| y l IH]; intros x; simpl; [reflexivity |].
  rewrite <- IH. now destruct (f x <? f y).
Qed.

End FirstMaximum.

(** X17: the peak hour of a record is absent when the bucket has no hourly
    histogram; otherwise it is the timestamp of the first hourly bucket
    whose count is the largest, and that count is max_requests_per_hour:
    no bucket has more, and every earlier one has strictly less. *)
Theorem peak_hour_first_maximum (start_date end_date : datetime) (b : ApiBucket) :
  let s := parse_bucket start_date end_date b in
  (by_hour b = [] -> peak_hour s = None /\ max_requests_per_hour s = 0)
  /\ (by_hour b <> [] ->
      exists i hb,
        by_hour b !! i = Some hb
        /\ peak_hour s = key_as_string hb
        /\ max_requests_per_hour s = hour_doc_count hb
        /\ (forall hb', In hb' (by_hour b) -> hour_doc_count hb' <= hour_doc_count hb)
        /\ (forall j hb', (j < i)%nat -> by_hour b !! j = Some hb' ->
                          hour_doc_count hb' < hour_doc_count hb)).
Proof.
  intros s. subst s. cbn [parse_bucket peak_hour max_requests_per_hour]. split.
  - intros ->. split; reflexivity.
  - intros Hne. destruct (max_by_first_max hour_doc_count (by_hour b) Hne)
      as (m & Hm & i & Hi & Hall & Hbefore).
    exists i, m. rewrite Hm, (max_list_is_max_by hour_doc_count _ m Hm).
    repeat split; auto.
Qed.

Lemma peak_hour_first_maximum_witness :
  let s := parse_bucket 0 (3 * hour_us)
             (bucket_of "orders" 17
                [hour_bucket "2025-11-10T10:00:00.000Z" 5;
                 hour_bucket "2025-11-10T11:00:00.000Z" 6;
                 hour_bucket "2025-11-10T12:00:00.000Z" 6]) in
  exists i hb,
    by_hour (bucket_of "orders" 17
               [hour_bucket "2025-11-10T10:00:00.000Z" 5;
                hour_bucket "2025-11-10T11:00:00.000Z" 6;
                hour_bucket "2025-11-10T12:00:00.000Z" 6]) !! i = Some hb
    /\ peak_hour s = key_as_string hb
    /\ max_requests_per_hour s = hour_doc_count hb.
Proof.
  destruct (peak_hour_first_maximum 0 (3 * hour_us)
              (bucket_of "orders" 17
                 [hour_bucket "2025-11-10T10:00:00.000Z" 5;
                  hour_bucket "2025-11-10T11:00:00.000Z" 6;
                  hour_bucket "2025-11-10T12:00:00.000Z" 6])) as [_ H].
  destruct H as (i & hb & Hi & Hp & Hm & _).
  - discriminate.
  - exists i, hb. repeat split; assumption.
Defined.

(** *** The mapping of records *)

Lemma assign_all_last {K V B} `{EqDecision K} (key : B -> K) (f : B -> V)
    (l : list B) (d : list (K * V)) (k : K) :
  dict_get k (assign_all key f l d)
  = match last (List.filter (fun b => bool_decide (key b = k)) l) with
    | Some b => Some (f b)
    | None => dict_get k d
    end.
Proof.
  revert d. induction l as [| a l IH]; intros d; [reflexivity |].
  cbn [assign_all fold_left]. fold (assign_all key f l (dict_set (key a) (f a) d)).
  rewrite IH. cbn [List.filter]. case_bool_decide as Hk.
  - rewrite last_cons. destruct (last _); [reflexivity |].
    subst k. apply dict_get_set_eq.
  - destruct (last _); [reflexivity |]. apply dict_get_set_ne. congruence.
Qed.

(** X18: the statistics hold one record per API key: looking a key up
    gives the record of the last bucket with that key, and nothing when no
    bucket has it. *)
Theorem last_bucket_wins (api_buckets : list ApiBucket)
    (start_date end_date : datetime) (k : string) :
  dict_get k (_parse_traffic_stats api_buckets start_date end_date)
  = parse_bucket start_date end_date
      <$> last (List.filter (fun b => bool_decide (key b = k)) api_buckets).
Proof.
  rewrite parse_as_assign, assign_all_last. now destruct (last _).
Qed.

(** *** The distribution over the hours of the day *)

(** The hour of the day a bucket counts for, if any. *)
Definition bucket_hour (hb : HourBucket) : option Z :=
  match key_as_string hb with
  | Some timestamp => if bool_decide (timestamp = "") then None else hour_of timestamp
  | None => None
  end.

Lemma add_hour_bucket_hour (d : list (Z * Z)) (hb : HourBucket) :
  add_hour d hb
  = match bucket_hour hb with
    | Some hour => dict_set hour (default 0 (dict_get hour d) + hour_doc_count hb) d
    | None => d
    end.
Proof.
  unfold add_hour, bucket_hour. destruct (key_as_string hb) as [ts |]; simpl.
  - case_bool_decide; reflexivity.
  - reflexivity.
Qed.

(** The counts of the buckets that count for hour [h]. *)
Definition counts_at (h : Z) (l : list HourBucket) : list Z :=
  map hour_doc_count (List.filter (fun hb => bool_decide (bucket_hour hb = Some h)) l).

Lemma fold_add_hour_get (l : list HourBucket) (d : list (Z * Z)) (h : Z) :
  default 0 (dict_get h (fold_left add_hour l d))
  = default 0 (dict_get h d) + Zsum (counts_at h l).
Proof.
  revert d. induction l as [| hb l IH]; intros d; cbn [fold_left].
  - unfold counts_at. simpl. lia.
  - rewrite IH, add_hour_bucket_hour. unfold counts_at. cbn [List.filter].
    destruct (bucket_hour hb) as [h' |] eqn:Hh.
    + destruct (decide (h' = h)) as [-> | Hne].
      * rewrite bool_decide_eq_true_2 by reflexivity.
        rewrite dict_get_set_eq. simpl. lia.
      * rewrite bool_decide_eq_false_2 by congruence.
        rewrite dict_get_set_ne by congruence. reflexivity.
    + rewrite bool_decide_eq_false_2 by congruence. reflexivity.
Qed.

Lemma fold_add_hour_keys (l : list HourBucket) (d : list (Z * Z)) (h : Z) :
  is_Some (dict_get h (fold_left add_hour l d))
  <-> is_Some (dict_get h d) \/ exists hb, In hb l /\ bucket_hour hb = Some h.
Proof.
  revert d. induction l as [| hb l IH]; intros d; cbn [fold_left].
  - split; [auto | intros [H | (hb & [] & _)]; exact H].
  - rewrite IH, add_hour_bucket_hour. destruct (bucket_hour hb) as [h' |] eqn:Hh.
    + destruct (decide (h = h')) as [-> | Hne].
      * rewrite dict_get_set_eq. split; [| eauto].
        intros _. right. exists hb. split; [now left | exact Hh].
      * rewrite dict_get_set_ne by exact Hne. split.
        -- intros [H | (x & Hx & Hxh)]; [now left | right; exists x; split; [now right | exact Hxh]].
        -- intros [H | (x & [<- | Hx] & Hxh)]; [now left | congruence | right; eauto].
    + split.
      * intros [H | (x & Hx & Hxh)]; [now left | right; exists x; split; [now right | exact Hxh]].
      * intros [H | (x & [<- | Hx] & Hxh)]; [now left | congruence | right; eauto].
Qed.

(** X19: the distribution has an entry for an hour exactly when some
    hourly bucket has a non-empty timestamp that parses to it, and the
    entry is the sum of the counts of all those buckets; buckets whose
    timestamp is absent, empty or does not parse are left out without
    disturbing the others. *)
Theorem hourly_distribution_accumulates (hourly_buckets : list HourBucket) (h : Z) :
  let d := hourly_distribution hourly_buckets in
  (is_Some (dict_get h d) <-> exists hb, In hb hourly_buckets /\ bucket_hour hb = Some h)
  /\ default 0 (dict_get h d) = Zsum (counts_at h hourly_buckets).
Proof.
  intros d. subst d. unfold hourly_distribution. split.
  - rewrite fold_add_hour_keys. split; [intros [[x Hx] | H]; [discriminate | exact H] | auto].
  - rewrite fold_add_hour_get. reflexivity.
Qed.

Lemma top_hours_are_keys (d : list (Z * Z)) (h : Z) :
  In h (sorted (top_hours d)) -> In h (dict_keys d).
Proof.
  intros Hin. apply list_elem_of_In in Hin.
  unfold sorted in Hin. rewrite (sorted_by_perm Z.leb (top_hours d)) in Hin.
  unfold top_hours in Hin. apply list_elem_of_In, in_map_iff in Hin as ([h0 n] & Heq & Hin).
  simpl in Heq. subst h0. apply list_elem_of_In in Hin.
  assert (Hsub : (h, n) ∈ sorted_by_key_reverse snd d).
  { rewrite <- (take_drop 5 (sorted_by_key_reverse snd d)). apply elem_of_app. now left. }
  unfold sorted_by_key_reverse in Hsub. rewrite sorted_by_perm in Hsub.
  unfold dict_keys. apply in_map_iff. exists (h, n). split; [reflexivity |].
  now apply list_elem_of_In.
Qed.

Lemma dict_keys_get {V} (d : list (Z * V)) (h : Z) :
  In h (dict_keys d) -> is_Some (dict_get h d).
Proof.
  unfold dict_keys. induction d as [| [k v] d IH]; simpl; [intros [] |].
  intros [-> | Hin].
  - rewrite decide_True by reflexivity. eauto.
  - destruct (decide (h = k)); [eauto | now apply IH].
Qed.

(** Every peak hour is the hour some bucket's timestamp parses to. *)
Lemma peak_hours_provenance (start_date end_date : datetime) (b : ApiBucket) (h : Z) :
  In h (peak_hours (parse_bucket start_date end_date b)) ->
  exists hb, In hb (by_hour b) /\ bucket_hour hb = Some h.
Proof.
  cbn [parse_bucket peak_hours]. intros Hin.
  apply top_hours_are_keys, dict_keys_get in Hin.
  unfold hourly_distribution in Hin. apply fold_add_hour_keys in Hin as [[x Hx] | H].
  - discriminate.
  - exact H.
Qed.

(** *** Timestamps *)

Lemma has_char_cons (c x : ascii) (s : string) :
  has_char c (String x s) = Ascii.eqb c x || has_char c s.
Proof.
  unfold has_char. cbn [contains startswith].
  destruct (Ascii.eqb c x); [now destruct s | reflexivity].
Qed.

Lemma append_nil_l (s : string) : "" ++ s = s.
Proof. reflexivity. Qed.

Lemma append_cons (x : ascii) (a s : string) : String x a ++ s = String x (a ++ s).
Proof. reflexivity. Qed.

Lemma has_char_app_sep (c : ascii) (a b : string) : has_char c (a ++ String c b) = true.
Proof.
  induction a as [| x a IH]; [rewrite append_nil_l | rewrite append_cons];
    rewrite has_char_cons.
  - now rewrite Ascii.eqb_refl.
  - rewrite IH. apply orb_true_r.
Qed.

Lemma split_not_nil (c : ascii) (s : string) : split c s <> [].
Proof.
  destruct s as [| x s]; simpl; [discriminate |].
  destruct (Ascii.eqb x c); [discriminate |]. destruct (split c s); discriminate.
Qed.

(** A prefix without the separator stays in front of the first piece. *)
Lemma split_app_prefix (c : ascii) (a s w : string) (ws : list string) :
  has_char c a = false -> split c s = w :: ws -> split c (a ++ s) = (a ++ w) :: ws.
Proof.
  intros Ha Hs. induction a as [| x a IH]; [exact Hs |].
  rewrite has_char_cons in Ha. apply orb_false_iff in Ha as [Hx Ha].
  rewrite !append_cons. cbn [split]. rewrite Ascii.eqb_sym, Hx, (IH Ha). reflexivity.
Qed.

Lemma append_empty (a : string) : a ++ "" = a.
Proof.
  induction a as [| x a IH]; [reflexivity |]. rewrite append_cons. congruence.
Qed.

Lemma split_app_sep (c : ascii) (a b : string) :
  has_char c a = false -> split c (a ++ String c b) = a :: split c b.
Proof.
  intros Ha. rewrite (split_app_prefix c a (String c b) "" (split c b) Ha).
  - now rewrite append_empty.
  - cbn [split]. now rewrite Ascii.eqb_refl.
Qed.

(** The two digits of an hour of the day read back as the hour. *)
Lemma hour_digits (h : Z) :
  0 <= h <= 23 ->
  has_char "T" (fmt_02d h) = false /\ has_char ":" (fmt_02d h) = false
  /\ Py.int (fmt_02d h) = Some h.
Proof.
  intros Hh.
  assert (Hall : forallb
                   (fun n => let h := Z.of_nat n in
                             negb (has_char "T" (fmt_02d h)) && negb (has_char ":" (fmt_02d h))
                             && bool_decide (Py.int (fmt_02d h) = Some h))
                   (seq 0 24) = true) by (vm_compute; reflexivity).
  rewrite forallb_forall in Hall. specialize (Hall (Z.to_nat h)).
  rewrite Z2Nat.id in Hall by lia. cbv zeta in Hall.
  assert (Hin : In (Z.to_nat h) (seq 0 24)) by (apply in_seq; lia).
  apply Hall in Hin. apply andb_true_iff in Hin as [Hin H3].
  apply andb_true_iff in Hin as [H1 H2].
  apply negb_true_iff in H1, H2. apply bool_decide_eq_true in H3. auto.
Qed.

(** The timestamp of the hour [h] on the day [date]. *)
Definition iso_timestamp (date : string) (h : Z) (rest : string) : string :=
  date ++ "T" ++ fmt_02d h ++ ":" ++ rest.

Lemma hour_of_iso_timestamp (date rest : string) (h : Z) :
  has_char "T" date = false -> 0 <= h <= 23 ->
  hour_of (iso_timestamp date h rest) = Some h.
Proof.
  intros Hdate Hh. destruct (hour_digits h Hh) as (HT & Hcolon & Hint).
  unfold hour_of, iso_timestamp.
  change (date ++ "T" ++ fmt_02d h ++ ":" ++ rest)
    with (date ++ String "T" (fmt_02d h ++ String ":" rest)).
  rewrite has_char_app_sep, (split_app_sep "T" date _ Hdate). cbn [lookup list_lookup].
  destruct (split "T" (String ":" rest)) as [| w ws] eqn:Hw; [now apply split_not_nil in Hw |].
  rewrite (split_app_prefix "T" (fmt_02d h) (String ":" rest) w ws HT Hw).
  cbn [lookup list_lookup mbind option_bind].
  assert (Hw' : exists w', w = String ":" w').
  { cbn [split] in Hw. destruct (Ascii.eqb ":" "T") eqn:E; [discriminate E |].
    destruct (split "T" rest); inversion Hw; eauto. }
  destruct Hw' as [w' ->].
  rewrite (split_app_sep ":" (fmt_02d h) w' Hcolon). cbn [lookup list_lookup mbind option_bind].
  exact Hint.
Qed.

(** X20: formatting and parsing agree on well-formed timestamps: the hour
    of the day read from a timestamp [<date>T<hh>:<rest>], whose date part
    has no [T] and whose two digits denote an hour from 0 to 23, is that
    hour, whatever follows the colon. *)
Theorem hour_of_round_trip (date rest : string) (h : Z) :
  has_char "T" date = false -> 0 <= h <= 23 ->
  hour_of (date ++ "T" ++ fmt_02d h ++ ":" ++ rest) = Some h.
Proof. apply hour_of_iso_timestamp. Qed.

Lemma hour_of_round_trip_witness :
  hour_of ("2025-11-10" ++ "T" ++ fmt_02d 7 ++ ":" ++ "30:00.000Z") = Some 7.
Proof. apply hour_of_round_trip; [reflexivity | lia]. Defined.

(** X21: when every hourly bucket carries a well-formed timestamp, each
    peak hour of the record is an hour of the day, from 0 to 23. *)
Theorem well_formed_peak_hours_in_range (start_date end_date : datetime) (b : ApiBucket) :
  (forall hb, In hb (by_hour b) ->
     exists date h rest,
       key_as_string hb = Some (iso_timestamp date h rest)
       /\ has_char "T" date = false /\ 0 <= h <= 23) ->
  Forall (fun h => 0 <= h <= 23) (peak_hours (parse_bucket start_date end_date b)).
Proof.
  intros Hwf. apply List.Forall_forall. intros h Hin.
  apply peak_hours_provenance in Hin as (hb & Hhb & Hhour).
  destruct (Hwf hb Hhb) as (date & h' & rest & Hkey & Hdate & Hrange).
  unfold bucket_hour in Hhour. rewrite Hkey in Hhour.
  case_bool_decide; [discriminate |].
  rewrite (hour_of_iso_timestamp date rest h' Hdate Hrange) in Hhour.
  injection Hhour as <-. exact Hrange.
Qed.

Lemma well_formed_peak_hours_in_range_witness :
  Forall (fun h => 0 <= h <= 23)
    (peak_hours
       (parse_bucket 0 (2 * hour_us)
          (bucket_of "orders" 9
             [hour_bucket (iso_timestamp "2025-11-10" 9 "00:00.000Z") 4;
              hour_bucket (iso_timestamp "2025-11-10" 23 "00:00.000Z") 5]))).
Proof.
  apply well_formed_peak_hours_in_range. intros hb Hin. simpl in Hin.
  destruct Hin as [<- | [<- | []]].
  - exists "2025-11-10", 9, "00:00.000Z". repeat split; (reflexivity || lia).
  - exists "2025-11-10", 23, "00:00.000Z". repeat split; (reflexivity || lia).
Defined.

(** *** The scan *)

Lemma count_if_bounds (p : Hit -> bool) (hits : list Hit) :
  0 <= count_if p hits <= Z.of_nat (length hits).
Proof.
  unfold count_if. pose proof (filter_length_le p hits). lia.
Qed.

Lemma count_if_or (p q : Hit -> bool) (hits : list Hit) :
  count_if p hits <= count_if (fun h => p h || q h) hits
  /\ count_if q hits <= count_if (fun h => p h || q h) hits
  /\ count_if (fun h => p h || q h) hits <= count_if p hits + count_if q hits.
Proof.
  unfold count_if. induction hits as [| h hits IH]; simpl; [lia |].
  destruct (p h), (q h); simpl; lia.
Qed.

Lemma keyword_percentages_elements (total_logs : Z) (keywords : list string)
    (c : string -> KeywordCounts) (k : string) (info : KeywordInfo) :
  In (k, info) (keyword_percentages total_logs (table keywords c)) ->
  In k keywords /\ 0 < count (c k) /\ info = info_of total_logs (c k).
Proof.
  unfold keyword_percentages.
  induction keywords as [| a l IH]; cbn [table map omap list_omap]; [intros [] |].
  fold (table l c). destruct (Z.ltb_spec 0 (count (c a))) as [Hpos | Hpos].
  - intros [[= <- <-] | Hin].
    + split; [now left | split; [exact Hpos | reflexivity]].
    + destruct (IH Hin) as (H1 & H2 & H3). split; [now right | auto].
  - intros Hin. destruct (IH Hin) as (H1 & H2 & H3). split; [now right | auto].
Qed.

Lemma percentage_of_bounds (n total_logs : Z) :
  0 <= n <= total_logs -> (0 <= round2 (percentage_of n total_logs) <= 100)%Q.
Proof.
  intros [Hlo Hhi]. unfold percentage_of.
  assert (Hraw : (0 <= (if 0 <? total_logs
                        then inject_Z n / inject_Z total_logs * 100 else 0) <= 100)%Q).
  { destruct (0 <? total_logs) eqn:Hd; [apply Z.ltb_lt in Hd | lra].
    assert (Hc : (0 <= inject_Z n)%Q) by (change 0%Q with (inject_Z 0); now rewrite <- Zle_Qle).
    assert (Hct : (inject_Z n <= inject_Z total_logs)%Q) by now rewrite <- Zle_Qle.
    assert (Hpos : (0 < inject_Z total_logs)%Q)
      by (change 0%Q with (inject_Z 0); now rewrite <- Zlt_Qlt).
    assert (H01 : (0 <= inject_Z n / inject_Z total_logs <= 1)%Q).
    { split; [apply Qle_shift_div_l; lra | apply Qle_shift_div_r; lra]. }
    lra. }
  split; [apply (round2_ge 0) | apply (round2_le 100)]; apply Hraw.
Qed.

(** X22: for a keyword list without repetition every entry of the scan's
    mapping belongs to a listed keyword and is consistent: its count is
    positive and at most the number of sampled records, the header and body
    counts are each at most the count and together at least the count, and
    the percentage lies between 0 and 100. *)
Theorem scan_entries_consistent (keywords : list string) (hits : list Hit)
    (k : string) (info : KeywordInfo) :
  List.NoDup keywords ->
  In (k, info) (default [] (get_sensitive_keywords (scan_hits keywords hits))) ->
  In k keywords
  /\ 0 < kw_count info <= Z.of_nat (length hits)
  /\ 0 <= kw_in_headers info <= kw_count info
  /\ 0 <= kw_in_body info <= kw_count info
  /\ kw_count info <= kw_in_headers info + kw_in_body info
  /\ (0 <= kw_percentage info <= 100)%Q
  /\ kw_exists info = true.
Proof.
  intros Hnd Hin. cbn [scan_hits get_sensitive_keywords default from_option id] in Hin.
  rewrite tally_table in Hin by exact Hnd.
  apply keyword_percentages_elements in Hin as (Hk & Hpos & ->).
  rewrite counted_spec in *. cbn [info_of kw_count kw_in_headers kw_in_body kw_percentage
                                    kw_exists count in_headers in_body zero_counts] in *.
  rewrite !Z.add_0_l in *.
  pose proof (count_if_bounds (fun h => in_headers_of k h || in_body_of k h) hits) as Hb.
  pose proof (count_if_bounds (in_headers_of k) hits) as Hbh.
  pose proof (count_if_bounds (in_body_of k) hits) as Hbb.
  pose proof (count_if_or (in_headers_of k) (in_body_of k) hits) as (Ho1 & Ho2 & Ho3).
  split; [exact Hk |]. repeat split; try lia.
  - apply percentage_of_bounds. lia.
  - apply percentage_of_bounds. lia.
Qed.

Lemma scan_entries_consistent_witness :
  let info := {| kw_count := 2; kw_percentage := round2 (2 / 3 * 100);
                 kw_in_headers := 1; kw_in_body := 2; kw_exists := true |} in
  0 < kw_count info <= 3 /\ kw_count info <= kw_in_headers info + kw_in_body info.
Proof.
  destruct (scan_entries_consistent ["password"]
              [hit_of "Authorization: Basic" "{'Password': 'x'}";
               hit_of "X-Password: x" "password=x";
               hit_of "Accept: */*" "{}"]
              "password"
              {| kw_count := 2; kw_percentage := round2 (2 / 3 * 100);
                 kw_in_headers := 1; kw_in_body := 2; kw_exists := true |})
    as (_ & Hc & _ & _ & Hs & _).
  - repeat constructor. intros [].
  - left. reflexivity.
  - split; [exact Hc | exact Hs].
Defined.

(** *** The keyword list *)

Lemma lower_char_idempotent (c : ascii) : lower_char (lower_char c) = lower_char c.
Proof. destruct c as [[] [] [] [] [] [] [] []]; reflexivity. Qed.

Lemma lower_idempotent (s : string) : lower (lower s) = lower s.
Proof.
  induction s as [| c s IH]; simpl; [reflexivity |].
  now rewrite lower_char_idempotent, IH.
Qed.

Lemma lower_empty (s : string) : lower s = "" -> s = "".
Proof. destruct s; [reflexivity | discriminate]. Qed.

(** X23: whatever the keyword file holds, and also when it is missing, no
    loaded keyword is empty (an empty keyword would match every record)
    and every loaded keyword is in lower case, as the lower-cased log text
    it is searched in. *)
Theorem loaded_keywords_lowercase_nonempty (file : option string) (k : string) :
  In k (load_keywords file) -> k <> "" /\ lower k = k.
Proof.
  unfold load_keywords. destruct file as [text |].
  - intros Hin. apply in_map_iff in Hin as (kw & <- & Hkw).
    apply filter_In in Hkw as [_ Hne]. apply negb_true_iff, bool_decide_eq_false in Hne.
    split; [| apply lower_idempotent].
    intros E. apply Hne. now apply lower_empty.
  - unfold default_keywords. simpl.
    intros H. repeat (destruct H as [<- | H]; [split; [discriminate | reflexivity] |]).
    destruct H.
Qed.

Lemma loaded_keywords_lowercase_nonempty_witness :
  "kimlik" <> "" /\ lower "kimlik" = "kimlik".
Proof.
  apply (loaded_keywords_lowercase_nonempty (Some "TC, Kimlik ,tel,")).
  simpl. tauto.
Defined.

(** *** Matching without regard to letter case *)

Lemma startswith_lower (p s : string) :
  startswith p s = true -> startswith (lower p) (lower s) = true.
Proof.
  revert s. induction p as [| a p IH]; intros s H; [reflexivity |].
  destruct s as [| b s]; [discriminate |]. simpl in *.
  destruct (Ascii.eqb_spec a b) as [-> | Hne]; [| discriminate].
  rewrite Ascii.eqb_refl. now apply IH.
Qed.

Lemma contains_lower (k s : string) :
  contains k s = true -> contains (lower k) (lower s) = true.
Proof.
  induction s as [| b s IH]; intros H.
  - change (startswith k "" || false = true) in H.
    change (startswith (lower k) (lower "") || false = true).
    apply orb_true_iff in H as [H | H]; [| discriminate].
    now rewrite (startswith_lower _ _ H).
  - change (startswith k (String b s) || contains k s = true) in H.
    change (startswith (lower k) (lower (String b s)) || contains (lower k) (lower s) = true).
    apply orb_true_iff in H as [H | H].
    + now rewrite (startswith_lower _ _ H).
    + rewrite (IH H). apply orb_true_r.
Qed.

(** [b] is the lower-case form of the ASCII character [a], said without
    [lower]: a capital letter A..Z goes to the letter 32 places up, every
    other character stays. *)
Definition folds_to (a b : ascii) : bool :=
  let n := nat_of_ascii a in
  if (65 <=? n)%nat && (n <=? 90)%nat then (nat_of_ascii b =? n + 32)%nat
  else Ascii.eqb a b.

(** [keyword] is [variant] with its capital letters made small. *)
Fixpoint case_variant (variant keyword : string) : bool :=
  match variant, keyword with
  | EmptyString, EmptyString => true
  | String a v, String b k => folds_to a b && case_variant v k
  | _, _ => false
  end.

(** Every character is an ASCII character, where [lower] is the
    [str.lower()] of Python. *)
Fixpoint is_ascii (s : string) : bool :=
  match s with
  | EmptyString => true
  | String c s' => (nat_of_ascii c <? 128)%nat && is_ascii s'
  end.

Lemma folds_to_lower_char (a b : ascii) : folds_to a b = true -> lower_char a = b.
Proof.
  unfold folds_to, lower_char, is_upper.
  destruct ((65 <=? nat_of_ascii a)%nat && (nat_of_ascii a <=? 90)%nat).
  - intros H. apply Nat.eqb_eq in H. rewrite <- H. apply ascii_nat_embedding.
  - intros H. now apply Ascii.eqb_eq in H.
Qed.

Lemma case_variant_lower (variant keyword : string) :
  case_variant variant keyword = true -> lower variant = keyword.
Proof.
  revert keyword. induction variant as [| a v IH]; intros [| b k] H; try discriminate.
  - reflexivity.
  - cbn [case_variant] in H. apply andb_true_iff in H as [Hc Hv].
    cbn [lower]. now rewrite (folds_to_lower_char a b Hc), (IH k Hv).
Qed.

(** X24: on ASCII text matching is blind to letter case: when the header
    or body blob of a record contains some spelling of a keyword, with
    capital letters where the keyword has small ones, the record is a match
    for the keyword. *)
Theorem match_ignores_case (variant keyword : string) (hit : Hit) :
  is_ascii variant = true -> is_ascii (fcrh hit) = true -> is_ascii (fcrb hit) = true ->
  case_variant variant keyword = true ->
  (contains variant (fcrh hit) = true -> in_headers_of keyword hit = true)
  /\ (contains variant (fcrb hit) = true -> in_body_of keyword hit = true).
Proof.
  intros _ _ _ Hv. apply case_variant_lower in Hv. subst keyword.
  split; apply contains_lower.
Qed.

Lemma match_ignores_case_witness :
  in_headers_of "password" (hit_of "X-PASSWORD: secret" "{'PassWord': 1}") = true
  /\ in_body_of "password" (hit_of "X-PASSWORD: secret" "{'PassWord': 1}") = true.
Proof.
  destruct (match_ignores_case "PASSWORD" "password"
              (hit_of "X-PASSWORD: secret" "{'PassWord': 1}"))
    as [Hh _]; try reflexivity.
  destruct (match_ignores_case "PassWord" "password"
              (hit_of "X-PASSWORD: secret" "{'PassWord': 1}"))
    as [_ Hb]; try reflexivity.
  split; [apply Hh | apply Hb]; reflexivity.
Defined.

(** *** The heat map *)

(** The hour of the day a bucket counts for in the heat map, if any: the
    hour of the traffic statistics, provided the timestamp has a [T] and
    the hour is an hour of the day. *)
Definition day_hour (hb : HourBucket) : option Z :=
  h ← bucket_hour hb;
  if has_char "T" (default "" (key_as_string hb)) && (0 <=? h) && (h <? 24)
  then Some h else None.

Lemma add_hour_of_day_day_hour (l : list Z) (hb : HourBucket) :
  add_hour_of_day l hb
  = match day_hour hb with
    | Some h => <[Z.to_nat h := default 0 (l !! Z.to_nat h) + hour_doc_count hb]> l
    | None => l
    end.
Proof.
  unfold add_hour_of_day, day_hour, bucket_hour, hour_of.
  destruct (key_as_string hb) as [ts |]; cbn [default from_option id mbind option_bind];
    [| reflexivity].
  case_bool_decide; [reflexivity |].
  destruct (has_char "T" ts); cbn [andb mbind option_bind].
  - destruct (split "T" ts !! 1%nat ≫= _) as [h |]; cbn [mbind option_bind]; [| reflexivity].
    destruct ((0 <=? h) && (h <? 24)); reflexivity.
  - destruct (split " " ts !! 1%nat ≫= _); reflexivity.
Qed.

(** The counts of the buckets the heat map counts for hour [h]. *)
Definition day_counts_at (h : Z) (l : list HourBucket) : list Z :=
  map hour_doc_count (List.filter (fun hb => bool_decide (day_hour hb = Some h)) l).

Lemma day_hour_range (hb : HourBucket) (h : Z) : day_hour hb = Some h -> 0 <= h < 24.
Proof.
  unfold day_hour. destruct (bucket_hour hb) as [h' |]; cbn [mbind option_bind]; [| discriminate].
  destruct (has_char _ _); cbn [andb]; [| discriminate].
  destruct (Z.leb_spec 0 h'), (Z.ltb_spec h' 24); cbn [andb]; try discriminate.
  intros [= <-]. lia.
Qed.

Lemma fold_add_hour_of_day_length (l : list HourBucket) (acc : list Z) :
  length (fold_left add_hour_of_day l acc) = length acc.
Proof.
  revert acc. induction l as [| hb l IH]; intros acc; cbn [fold_left]; [reflexivity |].
  rewrite IH, add_hour_of_day_day_hour. destruct (day_hour hb); [apply length_insert | reflexivity].
Qed.

Lemma fold_add_hour_of_day_get (l : list HourBucket) (acc : list Z) (h : Z) :
  0 <= h -> (Z.to_nat h < length acc)%nat ->
  default 0 (fold_left add_hour_of_day l acc !! Z.to_nat h)
  = default 0 (acc !! Z.to_nat h) + Zsum (day_counts_at h l).
Proof.
  intros Hh. revert acc. induction l as [| hb l IH]; intros acc Hlen; cbn [fold_left].
  - unfold day_counts_at. simpl. lia.
  - rewrite add_hour_of_day_day_hour. unfold day_counts_at. cbn [List.filter].
    destruct (day_hour hb) as [h' |] eqn:Hd.
    + pose proof (day_hour_range hb h' Hd) as Hr.
      rewrite IH by now rewrite length_insert.
      destruct (decide (h' = h)) as [-> | Hne].
      * rewrite bool_decide_eq_true_2 by reflexivity.
        rewrite list_lookup_insert_eq by exact Hlen. unfold day_counts_at. simpl. lia.
      * rewrite bool_decide_eq_false_2 by congruence.
        rewrite list_lookup_insert_ne by lia. reflexivity.
    + rewrite bool_decide_eq_false_2 by congruence. now apply IH.
Qed.

Lemma Zsum_insert (l : list Z) (i : nat) (x : Z) :
  (i < length l)%nat -> Zsum (<[i := x]> l) = Zsum l - default 0 (l !! i) + x.
Proof.
  revert i. induction l as [| a l IH]; intros [| i] Hi; simpl in *; try lia.
  rewrite IH by lia. lia.
Qed.

Lemma fold_add_hour_of_day_sum (l : list HourBucket) (acc : list Z) :
  length acc = 24%nat ->
  Zsum (fold_left add_hour_of_day l acc)
  = Zsum acc
    + Zsum (map hour_doc_count
              (List.filter (fun hb => bool_decide (is_Some (day_hour hb))) l)).
Proof.
  revert acc. induction l as [| hb l IH]; intros acc Hlen; cbn [fold_left List.filter].
  - simpl. lia.
  - rewrite add_hour_of_day_day_hour. destruct (day_hour hb) as [h |] eqn:Hd.
    + pose proof (day_hour_range hb h Hd) as Hr.
      rewrite bool_decide_eq_true_2 by eauto.
      rewrite IH by now rewrite length_insert.
      rewrite Zsum_insert by lia. simpl. lia.
    + rewrite bool_decide_eq_false_2 by (intros [? ?]; discriminate). now apply IH.
Qed.

Lemma fold_left_add_Zsum (l : list Z) (a : Z) : fold_left Z.add l a = a + Zsum l.
Proof.
  revert a. induction l as [| x l IH]; intros a; simpl; [lia |]. rewrite IH. lia.
Qed.

Lemma fold_max_in (l : list Z) (acc : Z) :
  In (fold_left (fun m y => if m <? y then y else m) l acc) (acc :: l).
Proof.
  revert acc. induction l as [| x l IH]; intros acc; simpl; [now left |].
  destruct (IH (if acc <? x then x else acc)) as [H | H].
  - destruct (acc <? x); [right; left | left]; exact H.
  - right. right. exact H.
Qed.

Lemma max_list_in (l : list Z) : l <> [] -> In (default 0 (max_list l)) l.
Proof. destruct l as [| x l]; [congruence | intros _; apply fold_max_in]. Qed.

(** X25: the heat map of a successful answer always has its 24 places; the
    place of an hour holds the sum of the counts of the buckets whose
    timestamp has a [T] and parses to that hour, the total is the sum of
    the counts of all buckets counted at some hour (a bucket whose
    timestamp does not parse, or parses to an hour outside 0..23, is left
    out of the places and of the total alike), and the maximum is the
    largest place. *)
Theorem heat_map_accumulates (buckets : list HourBucket) :
  let r := get_hourly_traffic_distribution (Response 200 (inl buckets)) in
  length (hourly_counts r) = 24%nat
  /\ (forall h, 0 <= h < 24 ->
        hourly_counts r !! Z.to_nat h = Some (Zsum (day_counts_at h buckets)))
  /\ heat_total_requests r
     = Zsum (map hour_doc_count
               (List.filter (fun hb => bool_decide (is_Some (day_hour hb))) buckets))
  /\ In (max_traffic r) (hourly_counts r)
  /\ (forall n, In n (hourly_counts r) -> n <= max_traffic r).
Proof.
  cbn [get_hourly_traffic_distribution Z.eqb negb Pos.eqb hourly_counts max_traffic
         heat_total_requests].
  set (counts := fold_left add_hour_of_day buckets (replicate 24 0)).
  assert (Hlen : length counts = 24%nat)
    by (unfold counts; now rewrite fold_add_hour_of_day_length).
  split; [exact Hlen |]. split; [| split; [| split]].
  - intros h Hh.
    assert (Hi : (Z.to_nat h < 24)%nat) by lia.
    pose proof (fold_add_hour_of_day_get buckets (replicate 24 0) h (proj1 Hh) Hi) as Hget.
    fold counts in Hget.
    destruct (counts !! Z.to_nat h) as [n |] eqn:Hn.
    + rewrite lookup_replicate_2 in Hget by exact Hi. simpl in Hget. now subst n.
    + apply lookup_ge_None in Hn. lia.
  - rewrite fold_left_add_Zsum. unfold counts.
    rewrite fold_add_hour_of_day_sum by reflexivity. reflexivity.
  - apply max_list_in. intros E. rewrite E in Hlen. discriminate.
  - apply max_list_ge.
Qed.

Lemma day_hour_of_T (hb : HourBucket) :
  has_char "T" (default "" (key_as_string hb)) = true ->
  forall h, 0 <= h < 24 -> day_hour hb = Some h <-> bucket_hour hb = Some h.
Proof.
  intros HT h Hh. unfold day_hour. rewrite HT.
  destruct (bucket_hour hb) as [h' |]; cbn [mbind option_bind andb]; [| tauto].
  destruct (Z.leb_spec 0 h'), (Z.ltb_spec h' 24); cbn [andb];
    split; intros E; try discriminate; try exact E; injection E as ->; lia.
Qed.

(** X26: the heat map and the traffic statistics agree on the hours of the
    day: when every bucket has a timestamp with a [T], the place of an hour
    from 0 to 23 holds the count the hourly distribution of
    [_parse_traffic_stats] has for that hour on the same buckets, and 0
    when the distribution has no such hour; and an answer that failed
    yields 24 zeros. *)
Theorem heat_map_matches_distribution (buckets : list HourBucket)
    (failed : Fetched (list HourBucket)) :
  (forall hb, In hb buckets -> has_char "T" (default "" (key_as_string hb)) = true) ->
  (forall l, failed <> Response 200 (inl l)) ->
  (forall h, 0 <= h < 24 ->
     hourly_counts (get_hourly_traffic_distribution (Response 200 (inl buckets)))
       !! Z.to_nat h
     = Some (default 0 (dict_get h (hourly_distribution buckets))))
  /\ get_hourly_traffic_distribution failed = no_traffic.
Proof.
  intros HT Hfailed. split.
  - intros h Hh.
    cbn [get_hourly_traffic_distribution Z.eqb negb Pos.eqb hourly_counts].
    set (counts := fold_left add_hour_of_day buckets (replicate 24 0)).
    assert (Hlen : length counts = 24%nat)
      by (unfold counts; now rewrite fold_add_hour_of_day_length).
    assert (Hi : (Z.to_nat h < 24)%nat) by lia.
    pose proof (fold_add_hour_of_day_get buckets (replicate 24 0) h (proj1 Hh) Hi) as Hget.
    fold counts in Hget. rewrite lookup_replicate_2 in Hget by exact Hi.
    unfold hourly_distribution. rewrite fold_add_hour_get.
    destruct (counts !! Z.to_nat h) as [n |] eqn:Hn;
      [| apply lookup_ge_None in Hn; lia].
    simpl in Hget. subst n.
    assert (E : day_counts_at h buckets = counts_at h buckets).
    { unfold day_counts_at, counts_at. f_equal.
      clear -HT Hh. induction buckets as [| hb l IH]; [reflexivity |]. cbn [List.filter].
      rewrite IH by (intros; apply HT; now right).
      assert (E : bool_decide (day_hour hb = Some h) = bool_decide (bucket_hour hb = Some h)).
      { apply bool_decide_ext, day_hour_of_T; [apply HT; now left | exact Hh]. }
      now rewrite E. }
    rewrite E. reflexivity.
  - destruct failed as [msg | status [l | msg]]; cbn [get_hourly_traffic_distribution];
      try reflexivity; destruct (Z.eqb_spec status 200) as [-> | Hne]; try reflexivity.
    now contradiction (Hfailed l).
Qed.

Lemma heat_map_matches_distribution_witness :
  hourly_counts
    (get_hourly_traffic_distribution
       (Response 200
          (inl [hour_bucket "2025-11-10T09:00:00.000Z" 4;
                hour_bucket "2025-11-11T09:00:00.000Z" 5]))) !! 9%nat
  = Some 9
  /\ get_hourly_traffic_distribution (Response 503 (inr "unavailable")) = no_traffic.
Proof.
  destruct (heat_map_matches_distribution
              [hour_bucket "2025-11-10T09:00:00.000Z" 4;
               hour_bucket "2025-11-11T09:00:00.000Z" 5]
              (Response 503 (inr "unavailable"))) as [Hplace Hfail].
  - intros hb [<- | [<- | []]]; reflexivity.
  - intros l. discriminate.
  - split; [exact (Hplace 9 ltac:(lia)) | exact Hfail].
Defined.

End AnalyzerRules.

(** ** From the stored documents to the report *)

Module PipelineRules.
Import Py PyFacts SecurityScorer ScorerFacts ScorerRules.
Import ElasticsearchAnalyzer AnalyzerFacts AnalyzerRules MongoDBAnalyzer.

(** *** TLS of the deployments and of the backends *)












(** *** Policy classes *)

Lemma split_without_sep (c : ascii) (s : string) : has_char c s = false -> split c s = [s].
Proof.
  induction s as [| x s IH]; [reflexivity |]. rewrite has_char_cons.
  intros H. apply orb_false_iff in H as [Hx Hs]. cbn [split].
  rewrite Ascii.eqb_sym, Hx, (IH Hs). reflexivity.
Qed.

Lemma split_ends_with (c : ascii) (pkg name : string) :
  has_char c name = false ->
  exists ws, split c (pkg ++ String c name) = (ws ++ [name])%list /\ ws <> [].
Proof.
  intros Hname. induction pkg as [| x pkg IH].
  - rewrite append_nil_l. cbn [split]. rewrite Ascii.eqb_refl, (split_without_sep c name Hname).
    exists [""]. split; [reflexivity | discriminate].
  - rewrite append_cons. cbn [split]. destruct IH as (ws & -> & Hne).
    destruct (Ascii.eqb x c).
    + exists ("" :: ws). split; [reflexivity | discriminate].
    + destruct ws as [| w ws]; [congruence |]. cbn [app].
      exists (String x w :: ws). split; [reflexivity | discriminate].
Qed.

(** X28: a stored policy is classified by the simple name of its class: for
    a class name [<package>.<name>] whose last part has no dot the parsed
    type is [<name>], whatever the package, and a class name without any
    dot is its own type; the parsed policy always carries the [enabled]
    key, true when the document has none, so that the scorer counts a
    policy as disabled only when the document says so. *)
Theorem stored_policy_classified (pkg name : string) (e : option bool) (o : option Z) :
  has_char "." name = false ->
  let qualified :=
    policy_info {| _class := Some (pkg ++ "." ++ name); doc_enabled := e; doc_order := o |} in
  let simple := policy_info {| _class := Some name; doc_enabled := e; doc_order := o |} in
  ptype qualified = name /\ ptype simple = name
  /\ enabled qualified = Some (default true e)
  /\ (is_enabled qualified = false <-> e = Some false).
Proof.
  intros Hname qualified simple. subst qualified simple.
  unfold policy_info, policy_class, is_enabled.
  cbn [ptype enabled _class default from_option id].
  change (pkg ++ "." ++ name) with (pkg ++ String "." name).
  destruct (split_ends_with "." pkg name Hname) as (ws & -> & _).
  rewrite last_snoc, (split_without_sep "." name Hname).
  split; [reflexivity |]. split; [reflexivity |]. split; [reflexivity |].
  destruct e as [[] |]; simpl; split; congruence.
Qed.

Lemma stored_policy_classified_witness :
  ptype (policy_info {| _class := Some ("com.apinizer.policy" ++ "." ++ "PolicyIpWhite");
                        doc_enabled := None; doc_order := None |})
  = "PolicyIpWhite".
Proof.
  apply (stored_policy_classified "com.apinizer.policy" "PolicyIpWhite" None None).
  reflexivity.
Defined.

(** *** From the sample to the logging score *)

Lemma keyword_percentages_complete (total_logs : Z) (keywords : list string)
    (c : string -> KeywordCounts) (k : string) :
  In k keywords -> 0 < count (c k) ->
  In (k, info_of total_logs (c k)) (keyword_percentages total_logs (table keywords c)).
Proof.
  intros Hin Hpos. unfold keyword_percentages.
  induction keywords as [| a l IH]; cbn [table map omap list_omap]; [destruct Hin |].
  fold (table l c). destruct Hin as [-> | Hin].
  - destruct (Z.ltb_spec 0 (count (c k))); [now left | lia].
  - destruct (0 <? count (c a)); [right |]; now apply IH.
Qed.

Lemma score_logging_cases (c : ApiConfig) (t : TrafficStats) :
  let r := _score_logging c t in
  (flagged t = false \/ Forall (fun p => (p <= 0)%Q) (recorded_percentages t) ->
   r = (100%Q, []))
  /\ (flagged t = true -> ~ Forall (fun p => (p <= 0)%Q) (recorded_percentages t) ->
      (fst r <= 80)%Q /\ map category (snd r) = ["logging"]).
Proof.
  intros r. subst r. unfold _score_logging, recorded_percentages, flagged.
  set (kws := default [] (sensitive_data t ≫= get_sensitive_keywords)).
  destruct (default false (sensitive_data t ≫= get_has_sensitive_data)).
  2: { split; [reflexivity | discriminate]. }
  pose proof (positive_filter_nil kws) as Hnil.
  destruct (List.filter _ kws) as [| x l] eqn:Hf; cbn [map].
  - split; [reflexivity |]. intros _ Hn. exfalso. apply Hn, Hnil. reflexivity.
  - split.
    + intros [H | H]; [discriminate |]. apply Hnil in H. discriminate.
    + intros _ _. unfold logging_bucket.
      repeat match goal with |- context [Qgtb ?a ?b] => destruct (Qgtb a b) end;
        cbn [fst snd map category rec]; (split; [lra | reflexivity]).
Qed.

Lemma count_if_pos (p : Hit -> bool) (hits : list Hit) (h : Hit) :
  In h hits -> p h = true -> 0 < count_if p hits.
Proof.
  intros Hin Hp. unfold count_if.
  assert (H : In h (List.filter p hits)) by (apply filter_In; auto).
  destruct (List.filter p hits); [destruct H | simpl; lia].
Qed.

Lemma count_if_none (p : Hit -> bool) (hits : list Hit) :
  (forall h, In h hits -> p h = false) -> count_if p hits = 0.
Proof.
  intros H. unfold count_if. induction hits as [| h hits IH]; [reflexivity |]. simpl.
  rewrite (H h) by now left. apply IH. intros; apply H; now right.
Qed.

Lemma percentage_positive (n total_logs : Z) :
  0 < n -> 0 < total_logs <= 10000 -> (0 < round2 (percentage_of n total_logs))%Q.
Proof.
  intros Hn [Hpos Hle]. unfold percentage_of.
  destruct (Z.ltb_spec 0 total_logs); [| lia].
  apply Qlt_le_trans with (y := round2 (1 # 100)); [reflexivity |].
  apply round2_mono.
  assert (H1 : (1 <= inject_Z n)%Q) by (change 1%Q with (inject_Z 1); rewrite <- Zle_Qle; lia).
  assert (H2 : (inject_Z total_logs <= 10000)%Q)
    by (change 10000%Q with (inject_Z 10000); now rewrite <- Zle_Qle).
  assert (H3 : (0 < inject_Z total_logs)%Q)
    by (change 0%Q with (inject_Z 0); now rewrite <- Zlt_Qlt).
  assert (H4 : (1 # 10000 <= inject_Z n / inject_Z total_logs)%Q).
  { apply Qle_shift_div_l; [exact H3 |]. lra. }
  lra.
Qed.

(** X29: the sample decides the logging score. For keywords without
    repetition and a sample of at most 10000 records (the application asks
    for 1000), the logging score is 100 with no recommendation when no
    sampled record contains a keyword in its headers or body, and it is at
    most 80 with exactly one recommendation, of category logging, as soon
    as one record contains one keyword. *)
Theorem sample_decides_logging_score (c : ApiConfig) (t : TrafficStats)
    (keywords : list string) (hits : list Hit) :
  List.NoDup keywords -> Z.of_nat (length hits) <= 10000 ->
  let r := _score_logging c (with_sensitive_data t (scan_hits keywords hits)) in
  ((forall k h, In k keywords -> In h hits ->
      in_headers_of k h = false /\ in_body_of k h = false) ->
   r = (100%Q, []))
  /\ ((exists k h, In k keywords /\ In h hits
                   /\ in_headers_of k h || in_body_of k h = true) ->
      (fst r <= 80)%Q /\ map category (snd r) = ["logging"]).
Proof.
  intros Hnd Hsize r. subst r.
  destruct (score_logging_cases c (with_sensitive_data t (scan_hits keywords hits)))
    as [Hclean Hdirty].
  unfold flagged, recorded_percentages in Hclean, Hdirty.
  cbn [with_sensitive_data sensitive_data scan_hits mbind option_bind
         get_has_sensitive_data get_sensitive_keywords default from_option id]
    in Hclean, Hdirty.
  rewrite tally_table in Hclean, Hdirty by exact Hnd.
  set (n := Z.of_nat (length hits)) in *.
  set (P := keyword_percentages n (table keywords (fun k => counted k hits zero_counts))) in *.
  split.
  - intros Hnone. apply Hclean. left.
    assert (E : P = []).
    { destruct P as [| [k info] P'] eqn:HP; [reflexivity |]. exfalso.
      assert (Hin : In (k, info) P) by (rewrite HP; now left).
      apply keyword_percentages_elements in Hin as (Hk & Hcount & _).
      rewrite counted_spec in Hcount. cbn [count zero_counts] in Hcount.
      rewrite count_if_none in Hcount; [lia |].
      intros h Hh. destruct (Hnone k h Hk Hh) as [-> ->]. reflexivity. }
    rewrite E. reflexivity.
  - intros (k & h & Hk & Hh & Hmatch).
    assert (Hcount : 0 < count (counted k hits zero_counts)).
    { rewrite counted_spec. cbn [count zero_counts]. rewrite Z.add_0_l.
      now apply (count_if_pos _ hits h). }
    pose proof (keyword_percentages_complete n keywords
                  (fun k => counted k hits zero_counts) k Hk Hcount) as Hin.
    fold P in Hin.
    assert (Hn : 0 < n) by (unfold n; destruct hits; [destruct Hh | simpl; lia]).
    apply Hdirty.
    + destruct P; [destruct Hin | reflexivity].
    + intros Hall. rewrite List.Forall_forall in Hall.
      assert (Hle : (kw_percentage (info_of n (counted k hits zero_counts)) <= 0)%Q).
      { apply Hall. apply in_map_iff. exists (k, info_of n (counted k hits zero_counts)).
        split; [reflexivity | exact Hin]. }
      cbn [info_of kw_percentage] in Hle.
      pose proof (percentage_positive (count (counted k hits zero_counts)) n Hcount
                    (conj Hn Hsize)).
      lra.
Qed.

Lemma sample_decides_logging_score_witness :
  let r := _score_logging quiet_config
             (with_sensitive_data no_stats
                (scan_hits ["password"; "tc"]
                   [hit_of "Accept: */*" "{}"; hit_of "Host: a" "{'id': 7}"])) in
  r = (100%Q, []).
Proof.
  apply (sample_decides_logging_score quiet_config no_stats ["password"; "tc"]
           [hit_of "Accept: */*" "{}"; hit_of "Host: a" "{'id': 7}"]).
  - repeat constructor; simpl; intuition discriminate.
  - simpl. lia.
  - intros k h [<- | [<- | []]] [<- | [<- | []]]; split; reflexivity.
Defined.

(** *** The report while Elasticsearch is out of reach *)

Lemma failed_scan_not_flagged (file : option string) (sample : Fetched (list Hit))
    (t : TrafficStats) :
  (forall hits, sample <> Response 200 (inl hits)) ->
  flagged (with_sensitive_data t (check_sensitive_fields file sample)) = false.
Proof.
  intros Hfailed. unfold flagged, check_sensitive_fields.
  destruct sample as [msg | status [hits | msg]]; cbn [with_sensitive_data sensitive_data];
    try reflexivity; destruct (Z.eqb_spec status 200) as [-> | Hne]; try reflexivity.
  now contradiction (Hfailed hits).
Qed.

Lemma ssl_side_category (s : SslInfo) (sev msg act : string) :
  Forall (fun x => category x = "ssl_tls") (snd (ssl_side s sev msg act)).
Proof.
  destruct (ssl_side_recs s sev msg act) as [-> | [m ->]]; repeat constructor.
Qed.

(** X30: a report made while Elasticsearch is out of reach does not show
    it. When the traffic answer has no statistics for the API (the request
    failed, or the API had no traffic) and the sample request failed, the
    application still returns a report; in it the components
    [allowed_hours], [traffic_anomaly], [error_rate] and [logging_status]
    have their best score 100, and every recommendation is about
    authentication or TLS. *)
Theorem outage_report (weights : gmap string Q) (now : string) (c : ApiConfig)
    (api_id : string) (start_date end_date : datetime)
    (traffic : Fetched (list ApiBucket))
    (file : option string) (sample : Fetched (list Hit)) :
  dict_get api_id (get_traffic_stats traffic start_date end_date) = None ->
  (forall hits, sample <> Response 200 (inl hits)) ->
  exists r,
    App.get_api_score weights now (Some c) api_id start_date end_date traffic file sample
    = Some r
    /\ dict_get "allowed_hours" (component_scores r) = Some 100%Q
    /\ dict_get "traffic_anomaly" (component_scores r) = Some 100%Q
    /\ dict_get "error_rate" (component_scores r) = Some 100%Q
    /\ dict_get "logging_status" (component_scores r) = Some 100%Q
    /\ Forall (fun x => category x = "authentication" \/ category x = "ssl_tls")
         (recommendations r).
Proof.
  intros Hnone Hfailed. eexists. split.
  { unfold App.get_api_score. rewrite Hnone. reflexivity. }
  cbn [default from_option id].
  set (t := with_sensitive_data no_stats (check_sensitive_fields file sample)).
  assert (Hlog : _score_logging c t = (100%Q, [])).
  { apply score_logging_cases. left. now apply failed_scan_not_flagged. }
  assert (Hhours : _score_allowed_hours c t = (100%Q, [])).
  { unfold _score_allowed_hours. destruct (existsb _ _); reflexivity. }
  assert (Hip : snd (_score_ip_whitelist c t) = []).
  { unfold _score_ip_whitelist. destruct (existsb _ _); reflexivity. }
  assert (Hth : snd (_score_throttling c t) = []).
  { unfold _score_throttling. destruct (existsb _ _); reflexivity. }
  assert (Hq : snd (_score_quota c t) = []).
  { unfold _score_quota. destruct (existsb _ _); reflexivity. }
  assert (Hanom : _score_traffic_anomaly t = (100%Q, [])) by reflexivity.
  assert (Herr : _score_error_rate t = (100%Q, [])) by reflexivity.
  unfold calculate_api_score, components.
  cbn [component_scores recommendations map fst snd concat].
  rewrite Hlog, Hhours, Hip, Hth, Hq, Hanom, Herr. cbn [fst snd app].
  repeat split; try (lookup_keys; reflexivity).
  rewrite app_nil_r. apply Forall_app. split.
  - unfold _score_authentication. repeat case_match; cbn [snd];
      repeat constructor.
  - rewrite score_ssl_tls_unfold. cbn [snd]. apply Forall_app.
    split; (eapply List.Forall_impl; [| apply ssl_side_category]); intros x Hx; now right.
Qed.

Lemma outage_report_witness :
  exists r,
    App.get_api_score configured_weights "2025-11-10T12:00:00" (Some quiet_config)
      "orders" 0 hour_us (Raised "connection refused") None (Raised "connection refused")
    = Some r
    /\ dict_get "logging_status" (component_scores r) = Some 100%Q.
Proof.
  destruct (outage_report configured_weights "2025-11-10T12:00:00" quiet_config
              "orders" 0 hour_us (Raised "connection refused") None
              (Raised "connection refused")) as (r & Hr & _ & _ & _ & Hlog & _).
  - reflexivity.
  - intros hits. discriminate.
  - exists r. split; [exact Hr | exact Hlog].
Defined.

End PipelineRules.
